(** * Interview orchestration engine: a shallow embedding and its properties

    The development follows [app/services/interview_service.py]
    (session manager, turn processor, scoring engine, usage ledger),
    [app/services/telegram_service.py] (the messaging adapter),
    [app/utils/prompt_generator.py] and the auto-configure endpoint of
    [app/routers/questions.py].

    The MongoDB collections are lists of documents in insertion order
    ([find_one] returns the first match, [update_one] rewrites the first
    match).  Service code runs in a state-and-exception monad over the
    [World]: the database, the clock, and the logs of the calls made to the
    external collaborators (LLM, Airtable, Telegram). *)

From Stdlib Require Import List String Ascii ZArith Lia Bool Arith.
From Stdlib Require Import DecimalString Sorted Permutation.
From Stdlib Require Import Floats.PrimFloat Numbers.Cyclic.Int63.Uint63.
Import ListNotations.

Open Scope string_scope.

(* ================================================================== *)
(** ** Python builtins used by the services *)

Module Py.

(** The double-quote and newline characters, for building f-strings. *)
Definition dq : string := String (ascii_of_nat 34) EmptyString.
Definition nl : string := String (ascii_of_nat 10) EmptyString.

(** [str(n)] for a non-negative [int]. *)
Definition str_of_nat (n : nat) : string :=
  NilZero.string_of_uint (Nat.to_uint n).

(** [sep.join(parts)]. *)
Definition join (sep : string) (parts : list string) : string :=
  String.concat sep parts.

(** [s.split("\n")[0]]: the text before the first newline. *)
Fixpoint first_line (s : string) : string :=
  match s with
  | EmptyString => EmptyString
  | String c s' =>
      if Ascii.eqb c (ascii_of_nat 10) then EmptyString
      else String c (first_line s')
  end.

(** A [str] is held as its UTF-8 encoding.  A character (code point) is
    a lead byte followed by its continuation bytes, the bytes 10xxxxxx. *)
Definition is_continuation (c : ascii) : bool :=
  Nat.leb 128 (nat_of_ascii c) && Nat.ltb (nat_of_ascii c) 192.

(** [s[:n]]: the first [n] characters of [s], each with all its bytes. *)
Fixpoint take (n : nat) (s : string) : string :=
  match s with
  | EmptyString => EmptyString
  | String c s' =>
      if is_continuation c then String c (take n s')
      else
        match n with
        | S k => String c (take k s')
        | O => EmptyString
        end
  end.

(** [s.replace(old, new)] for a non-empty [old]: occurrences are replaced
    left to right without overlap.  [skip] counts the characters of a
    matched occurrence that are still to be dropped. *)
Fixpoint replace_from (old new : string) (skip : nat) (s : string) : string :=
  match s with
  | EmptyString => EmptyString
  | String c s' =>
      match skip with
      | S k => replace_from old new k s'
      | O =>
          if String.prefix old s
          then new ++ replace_from old new (String.length old - 1) s'
          else String c (replace_from old new 0 s')
      end
  end.

(** With an empty [old], Python inserts [new] before every character and
    at the end. *)
Fixpoint intersperse (new s : string) : string :=
  match s with
  | EmptyString => new
  | String c s' => new ++ String c (intersperse new s')
  end.

Definition replace (old new s : string) : string :=
  match old with
  | EmptyString => intersperse new s
  | _ => replace_from old new 0 s
  end.

(** [s.lower()] on ASCII letters. *)
Definition lower_ascii (c : ascii) : ascii :=
  let n := nat_of_ascii c in
  if (65 <=? n)%nat && (n <=? 90)%nat then ascii_of_nat (n + 32) else c.

Fixpoint lower (s : string) : string :=
  match s with
  | EmptyString => EmptyString
  | String c s' => String (lower_ascii c) (lower s')
  end.

(** [enumerate(l)] starting at [i]. *)
Fixpoint enumerate_from {A : Type} (i : nat) (l : list A) : list (nat * A) :=
  match l with
  | [] => []
  | x :: l' => (i, x) :: enumerate_from (S i) l'
  end.

Definition enumerate {A : Type} (l : list A) : list (nat * A) :=
  enumerate_from 0 l.

(** [sorted(l, key=key)]: a stable sort, by insertion.  Each element is
    inserted in front of the later elements of equal key. *)
Fixpoint insert_by {A : Type} (key : A -> Z) (x : A) (l : list A) : list A :=
  match l with
  | [] => [x]
  | y :: l' => if (key x <=? key y)%Z then x :: y :: l' else y :: insert_by key x l'
  end.

Definition sorted {A : Type} (key : A -> Z) (l : list A) : list A :=
  fold_right (fun x acc => insert_by key x acc) [] l.

(** The values [json.loads] produces. *)
#[local] Unset Elimination Schemes.
Inductive JSON : Type :=
| JNull
| JBool (b : bool)
| JInt (z : Z)
| JFloat (f : float)
| JString (s : string)
| JArray (l : list JSON)
| JObject (kv : list (string * JSON)).
#[local] Set Elimination Schemes.

(** [type(v).__name__], as it appears in an AttributeError message. *)
Definition type_name (v : JSON) : string :=
  match v with
  | JNull => "NoneType"
  | JBool _ => "bool"
  | JInt _ => "int"
  | JFloat _ => "float"
  | JString _ => "str"
  | JArray _ => "list"
  | JObject _ => "dict"
  end.

(** [d.get(key)] on the key/value list of a dict. *)
Fixpoint lookup (key : string) (kv : list (string * JSON)) : option JSON :=
  match kv with
  | [] => None
  | (k, v) :: kv' => if String.eqb k key then Some v else lookup key kv'
  end.

(** Python exceptions: the class and [str(e)]. *)
Inductive ExcClass : Type :=
| ValueError
| ValidationError        (* pydantic's; a subclass of ValueError *)
| AttributeError
| TypeError
| JSONDecodeError
| HTTPException (status_code : nat)
| UpstreamError.         (* anything the LLM client raises *)

Record Exc : Type := { exc_class : ExcClass; exc_str : string }.

Definition is_ValueError (e : Exc) : bool :=
  match exc_class e with
  | ValueError | ValidationError | JSONDecodeError => true
  | _ => false
  end.

(** [s.split(sep)] for a one-character separator: the pieces between the
    separators, empty pieces included; never an empty list. *)
Fixpoint split (sep : ascii) (s : string) : list string :=
  match s with
  | EmptyString => [EmptyString]
  | String c s' =>
      if Ascii.eqb c sep then EmptyString :: split sep s'
      else
        match split sep s' with
        | piece :: pieces => String c piece :: pieces
        | [] => [String c EmptyString]
        end
  end.

(** [c.isspace()] on ASCII: tab to carriage return, the four separators
    FS to US, and the space. *)
Definition is_space (c : ascii) : bool :=
  let n := nat_of_ascii c in
  ((9 <=? n)%nat && (n <=? 13)%nat) || ((28 <=? n)%nat && (n <=? 32)%nat).

Fixpoint lstrip (s : string) : string :=
  match s with
  | EmptyString => EmptyString
  | String c s' => if is_space c then lstrip s' else s
  end.

Fixpoint rstrip (s : string) : string :=
  match s with
  | EmptyString => EmptyString
  | String c s' =>
      match rstrip s' with
      | EmptyString => if is_space c then EmptyString else String c EmptyString
      | kept => String c kept
      end
  end.

(** [s.strip()] on ASCII text. *)
Definition strip (s : string) : string := rstrip (lstrip s).

End Py.

Import Py.

(* ================================================================== *)
(** ** Data model *)

(** A BSON ObjectId; [insert_one] draws fresh ones from a counter. *)
Definition ObjectId : Type := nat.

Module bson.

Definition hex_digit (n : N) : ascii :=
  match n with
  | 0 => "0" | 1 => "1" | 2 => "2" | 3 => "3" | 4 => "4" | 5 => "5" | 6 => "6"
  | 7 => "7" | 8 => "8" | 9 => "9" | 10 => "a" | 11 => "b" | 12 => "c"
  | 13 => "d" | 14 => "e" | _ => "f"
  end%N%char.

(** The last [digits] hexadecimal digits of [n], in front of [acc]. *)
Fixpoint hex (digits : nat) (n : N) (acc : string) : string :=
  match digits with
  | O => acc
  | S d => hex d (n / 16)%N (String (hex_digit (n mod 16)%N) acc)
  end.

(** [str(oid)]: the twelve bytes as 24 lower-case hexadecimal digits. *)
Definition str (oid : ObjectId) : string := hex 24 (N.of_nat oid) EmptyString.

End bson.

(** [datetime.utcnow()] read off the world's clock. *)
Definition datetime : Type := nat.

(** *** Pipelines and questions ([app/models/question.py], [pipeline.py]) *)

Record FollowUpQuestion : Type := {
  fu_text : string;
  fu_condition : string;
  fu_scoring_rubric : string;
  fu_max_score : Z
}.

Record Question : Type := {
  question_id : string;
  q_text : string;
  q_type : string;
  max_score : Z;
  required : bool;
  follow_up : option FollowUpQuestion;
  scoring_rubric : string;
  order : Z
}.

Record InterviewAgent : Type := {
  enabled : bool;
  agent_name : string;
  agent_prompt : string;
  llm_provider : string;
  llm_model : string;
  temperature : float;
  language : string;
  agent_api_key : option string
}.

Record PipelineStage : Type := {
  stage_id : string;
  stage_name : string;
  questions : list Question
}.

Record Pipeline : Type := {
  pl_id : ObjectId;
  pl_organization_id : ObjectId;
  pl_name : string;
  pl_status : string;
  stages : list PipelineStage;
  interview_agent : option InterviewAgent;
  airtable_table_id : option string
}.

(** *** Chat messages and the LLM boundary *)

Record ToolCall : Type := {
  tc_id : string;
  tc_name : string;          (* tool_call.function.name *)
  tc_arguments : string      (* tool_call.function.arguments, JSON text *)
}.

(** A message dict: the stored log holds [role] and [content] only; the
    working history of a turn also carries the assistant's tool-call
    message and the tool results. *)
Record Message : Type := {
  role : string;
  content : option string;
  tool_calls : list ToolCall;
  tool_call_id : option string;
  msg_name : option string
}.

Definition plain_message (r c : string) : Message :=
  {| role := r; content := Some c; tool_calls := [];
     tool_call_id := None; msg_name := None |}.

Record ToolProperty : Type := {
  prop_name : string;
  prop_type : string;
  prop_description : string
}.

Record Tool : Type := {
  tool_type : string;
  fn_name : string;
  fn_description : string;
  fn_properties : list ToolProperty;
  fn_required : list string
}.

(** The four interaction types of the usage ledger; they also tag the
    LLM calls in the world's call log. *)
Inductive InteractionType : Type := Chat | ChatToolResponse | Scoring | Greeting.

Definition interaction_type_str (k : InteractionType) : string :=
  match k with
  | Chat => "chat"
  | ChatToolResponse => "chat_tool_response"
  | Scoring => "scoring"
  | Greeting => "greeting"
  end.

Record ChatRequest : Type := {
  req_model : string;
  req_messages : list Message;
  req_tools : option (list Tool);
  req_tool_choice : option string;
  req_response_format : option string;
  req_temperature : option float
}.

Record Usage : Type := { prompt_tokens : Z; completion_tokens : Z }.

(** [response.choices[0].message] and [response.usage]. *)
Record ChatCompletion : Type := {
  ai_content : option string;
  ai_tool_calls : list ToolCall;
  usage : option Usage
}.

Inductive ChatOutcome : Type :=
| Returned (r : ChatCompletion)
| Raised (e : Exc).

(** *** Stored documents *)

Inductive Platform : Type := telegram | web_simulator.

(** A document of the [interview_sessions] collection.  [status] is the
    stored string: the adapter writes it without going through the
    pydantic model.  [scores] and [total_score] hold whatever the scoring
    call returned. *)
Record InterviewSession : Type := {
  session_id : ObjectId;                  (* _id *)
  candidate_id : ObjectId;
  pipeline_id : ObjectId;
  platform : Platform;
  telegram_chat_id : option string;
  messages : list Message;
  status : string;
  current_question_index : Z;
  scores : JSON;
  total_score : JSON;
  created_at : datetime;
  updated_at : datetime
}.

Record Candidate : Type := {
  cand_id : ObjectId;
  cand_organization_id : ObjectId;
  cand_pipeline_id : ObjectId;
  first_name : string;
  last_name : string;
  email : string;
  phone : option string;
  cand_status : string;
  airtable_record_id : option string;
  cand_telegram_chat_id : option string;
  cand_total_input_tokens : Z;
  cand_total_output_tokens : Z;
  cand_total_ai_cost : float;
  cand_created_at : datetime;
  cand_updated_at : datetime
}.

Record AirtableConfig : Type := {
  api_key : option string;
  base_id : option string
}.

Record Organization : Type := {
  org_id : ObjectId;
  airtable_config : option AirtableConfig;
  org_total_input_tokens : Z;
  org_total_output_tokens : Z;
  org_total_ai_cost : float
}.

Record User : Type := {
  user_email : string;
  user_organization_id : ObjectId
}.

(** [app/models/usage.py] *)
Record TokenUsageLog : Type := {
  log_organization_id : ObjectId;
  log_candidate_id : ObjectId;
  interaction_type : string;
  log_model : string;
  input_tokens : Z;
  output_tokens : Z;
  cost : float;
  timestamp : datetime
}.

(** One PATCH sent to the CRM by [AirtableService.update_record]. *)
Record AirtableUpdate : Type := {
  at_api_key : string;
  at_base_id : string;
  at_table_id : string;
  at_record_id : string;
  at_status : string;
  at_notes : string
}.

(** [app/config.py], the billing part. *)
Record Settings : Type := {
  input_token_cost_per_million : float;
  output_token_cost_per_million : float
}.

Definition default_settings : Settings :=
  {| input_token_cost_per_million := 1%float;
     output_token_cost_per_million := 2.5%float |}.

(** [Settings.allowed_origins_list], of the [allowed_origins] setting:
    [[origin.strip() for origin in self.allowed_origins.split(",")]]. *)
Definition allowed_origins_list (allowed_origins : string) : list string :=
  map Py.strip (Py.split "," allowed_origins).

(** *** The world

    The database collections, the clock and the id counter, and the logs
    of what was sent to the collaborators.  [session_history] is a ghost
    trace: every write to the sessions collection enters the collection
    it leaves behind, so that properties can be stated of every instant
    between two writes and not only of the end of an operation. *)

Record World : Type := {
  candidates : list Candidate;
  pipelines : list Pipeline;
  organizations : list Organization;
  users : list User;
  interview_sessions : list InterviewSession;
  session_history : list (list InterviewSession);   (* ghost *)
  token_usage_logs : list TokenUsageLog;
  next_oid : ObjectId;
  clock : datetime;
  llm_calls : list (InteractionType * ChatRequest * ChatOutcome);
  airtable_calls : list AirtableUpdate;
  telegram_outbox : list (string * string)     (* chat id, text *)
}.

Definition empty_world : World :=
  {| candidates := []; pipelines := []; organizations := []; users := [];
     interview_sessions := []; session_history := [];
     token_usage_logs := []; next_oid := 0;
     clock := 0; llm_calls := []; airtable_calls := []; telegram_outbox := [] |}.

(** The collaborators that are not code of the repository: the LLM client
    (its answer may depend on how many calls came before), Python's [json]
    module and [str()] on JSON values, pydantic's lax [int] check, and the
    configured settings. *)
Record Env : Type := {
  client : nat -> ChatRequest -> ChatOutcome;
  json_loads : string -> JSON + Exc;
  json_dumps : JSON -> string;
  py_str : JSON -> string;
  pydantic_int : JSON -> bool;
  settings : Settings
}.

(* ================================================================== *)
(** ** The service monad: world state and Python exceptions *)

Inductive Result (A : Type) : Type :=
| Ok (a : A)
| Raise (e : Exc).

Arguments Ok {A} a.
Arguments Raise {A} e.

Definition M (A : Type) : Type := World -> Result A * World.

Definition ret {A : Type} (a : A) : M A := fun w => (Ok a, w).

Definition raise {A : Type} (e : Exc) : M A := fun w => (Raise e, w).

Definition bind {A B : Type} (m : M A) (f : A -> M B) : M B :=
  fun w =>
    match m w with
    | (Ok a, w') => f a w'
    | (Raise e, w') => (Raise e, w')
    end.

(** [try: m  except Exception as e: h e]; what [m] wrote before raising stays. *)
Definition try_except {A : Type} (m : M A) (h : Exc -> M A) : M A :=
  fun w =>
    match m w with
    | (Ok a, w') => (Ok a, w')
    | (Raise e, w') => h e w'
    end.

Definition gets {A : Type} (f : World -> A) : M A := fun w => (Ok (f w), w).

Definition modify (f : World -> World) : M unit := fun w => (Ok tt, f w).

Declare Scope service_scope.
Delimit Scope service_scope with service.
Notation "x <- m ;; k" := (bind m (fun x => k))
  (at level 61, m at next level, right associativity) : service_scope.
Notation "m ;;; k" := (bind m (fun _ => k))
  (at level 61, right associativity) : service_scope.
Open Scope service_scope.

Definition mk_exc (c : ExcClass) (msg : string) : Exc :=
  {| exc_class := c; exc_str := msg |}.

(** *** Field updates of the world *)

Definition with_candidates (f : list Candidate -> list Candidate) (w : World) : World :=
  {| candidates := f (candidates w); pipelines := pipelines w;
     organizations := organizations w; users := users w;
     interview_sessions := interview_sessions w;
     session_history := session_history w;
     token_usage_logs := token_usage_logs w; next_oid := next_oid w;
     clock := clock w; llm_calls := llm_calls w;
     airtable_calls := airtable_calls w; telegram_outbox := telegram_outbox w |}.

Definition with_pipelines (f : list Pipeline -> list Pipeline) (w : World) : World :=
  {| candidates := candidates w; pipelines := f (pipelines w);
     organizations := organizations w; users := users w;
     interview_sessions := interview_sessions w;
     session_history := session_history w;
     token_usage_logs := token_usage_logs w; next_oid := next_oid w;
     clock := clock w; llm_calls := llm_calls w;
     airtable_calls := airtable_calls w; telegram_outbox := telegram_outbox w |}.

Definition with_organizations (f : list Organization -> list Organization) (w : World) : World :=
  {| candidates := candidates w; pipelines := pipelines w;
     organizations := f (organizations w); users := users w;
     interview_sessions := interview_sessions w;
     session_history := session_history w;
     token_usage_logs := token_usage_logs w; next_oid := next_oid w;
     clock := clock w; llm_calls := llm_calls w;
     airtable_calls := airtable_calls w; telegram_outbox := telegram_outbox w |}.

Definition with_interview_sessions
    (f : list InterviewSession -> list InterviewSession) (w : World) : World :=
  {| candidates := candidates w; pipelines := pipelines w;
     organizations := organizations w; users := users w;
     interview_sessions := f (interview_sessions w);
     session_history := (session_history w ++ [f (interview_sessions w)])%list;
     token_usage_logs := token_usage_logs w; next_oid := next_oid w;
     clock := clock w; llm_calls := llm_calls w;
     airtable_calls := airtable_calls w; telegram_outbox := telegram_outbox w |}.

Definition with_token_usage_logs
    (f : list TokenUsageLog -> list TokenUsageLog) (w : World) : World :=
  {| candidates := candidates w; pipelines := pipelines w;
     organizations := organizations w; users := users w;
     interview_sessions := interview_sessions w;
     session_history := session_history w;
     token_usage_logs := f (token_usage_logs w); next_oid := next_oid w;
     clock := clock w; llm_calls := llm_calls w;
     airtable_calls := airtable_calls w; telegram_outbox := telegram_outbox w |}.

Definition with_next_oid (f : ObjectId -> ObjectId) (w : World) : World :=
  {| candidates := candidates w; pipelines := pipelines w;
     organizations := organizations w; users := users w;
     interview_sessions := interview_sessions w;
     session_history := session_history w;
     token_usage_logs := token_usage_logs w; next_oid := f (next_oid w);
     clock := clock w; llm_calls := llm_calls w;
     airtable_calls := airtable_calls w; telegram_outbox := telegram_outbox w |}.

Definition with_clock (f : datetime -> datetime) (w : World) : World :=
  {| candidates := candidates w; pipelines := pipelines w;
     organizations := organizations w; users := users w;
     interview_sessions := interview_sessions w;
     session_history := session_history w;
     token_usage_logs := token_usage_logs w; next_oid := next_oid w;
     clock := f (clock w); llm_calls := llm_calls w;
     airtable_calls := airtable_calls w; telegram_outbox := telegram_outbox w |}.

Definition with_llm_calls
    (f : list (InteractionType * ChatRequest * ChatOutcome)
         -> list (InteractionType * ChatRequest * ChatOutcome)) (w : World) : World :=
  {| candidates := candidates w; pipelines := pipelines w;
     organizations := organizations w; users := users w;
     interview_sessions := interview_sessions w;
     session_history := session_history w;
     token_usage_logs := token_usage_logs w; next_oid := next_oid w;
     clock := clock w; llm_calls := f (llm_calls w);
     airtable_calls := airtable_calls w; telegram_outbox := telegram_outbox w |}.

Definition with_airtable_calls
    (f : list AirtableUpdate -> list AirtableUpdate) (w : World) : World :=
  {| candidates := candidates w; pipelines := pipelines w;
     organizations := organizations w; users := users w;
     interview_sessions := interview_sessions w;
     session_history := session_history w;
     token_usage_logs := token_usage_logs w; next_oid := next_oid w;
     clock := clock w; llm_calls := llm_calls w;
     airtable_calls := f (airtable_calls w); telegram_outbox := telegram_outbox w |}.

Definition with_telegram_outbox
    (f : list (string * string) -> list (string * string)) (w : World) : World :=
  {| candidates := candidates w; pipelines := pipelines w;
     organizations := organizations w; users := users w;
     interview_sessions := interview_sessions w;
     session_history := session_history w;
     token_usage_logs := token_usage_logs w; next_oid := next_oid w;
     clock := clock w; llm_calls := llm_calls w;
     airtable_calls := airtable_calls w; telegram_outbox := f (telegram_outbox w) |}.

(** *** Collection primitives *)

(** [collection.update_one(filter, update)]: the first match is rewritten. *)
Fixpoint update_one {A : Type} (filter : A -> bool) (update : A -> A) (l : list A) : list A :=
  match l with
  | [] => []
  | x :: l' => if filter x then update x :: l' else x :: update_one filter update l'
  end.

(** [datetime.utcnow()]: reads the clock; time moves on. *)
Definition utcnow : M datetime :=
  fun w => (Ok (clock w), with_clock S w).

(** A fresh ObjectId, as [insert_one] assigns it. *)
Definition new_object_id : M ObjectId :=
  fun w => (Ok (next_oid w), with_next_oid S w).

Definition find_candidate (cid : ObjectId) : M (option Candidate) :=
  gets (fun w => find (fun c => Nat.eqb (cand_id c) cid) (candidates w)).

Definition find_pipeline (pid : ObjectId) : M (option Pipeline) :=
  gets (fun w => find (fun p => Nat.eqb (pl_id p) pid) (pipelines w)).

Definition find_organization (oid : ObjectId) : M (option Organization) :=
  gets (fun w => find (fun o => Nat.eqb (org_id o) oid) (organizations w)).

Definition find_session (sid : ObjectId) : M (option InterviewSession) :=
  gets (fun w => find (fun s => Nat.eqb (session_id s) sid) (interview_sessions w)).

Definition is_active_for (cid : ObjectId) (s : InterviewSession) : bool :=
  Nat.eqb (candidate_id s) cid && String.eqb (status s) "active".

(** [find_one({"candidate_id": cid, "status": "active"})] *)
Definition find_active_session (cid : ObjectId) : M (option InterviewSession) :=
  gets (fun w => find (is_active_for cid) (interview_sessions w)).

(** [update_one({"_id": sid}, {"$push": {"messages": msg},
                               "$set": {"updated_at": now}})] *)
Definition push_message_doc (msg : Message) (now : datetime) (s : InterviewSession)
  : InterviewSession :=
  {| session_id := session_id s; candidate_id := candidate_id s;
     pipeline_id := pipeline_id s; platform := platform s;
     telegram_chat_id := telegram_chat_id s;
     messages := messages s ++ [msg]; status := status s;
     current_question_index := current_question_index s;
     scores := scores s; total_score := total_score s;
     created_at := created_at s; updated_at := now |}.

Definition push_message (sid : ObjectId) (msg : Message) : M unit :=
  now <- utcnow ;;
  modify (with_interview_sessions
            (update_one (fun s => Nat.eqb (session_id s) sid) (push_message_doc msg now))).

(** [{"$set": {"status": st}}] on a session document. *)
Definition set_status_doc (st : string) (s : InterviewSession) : InterviewSession :=
  {| session_id := session_id s; candidate_id := candidate_id s;
     pipeline_id := pipeline_id s; platform := platform s;
     telegram_chat_id := telegram_chat_id s;
     messages := messages s; status := st;
     current_question_index := current_question_index s;
     scores := scores s; total_score := total_score s;
     created_at := created_at s; updated_at := updated_at s |}.

(** [{"$set": {"status": "completed", "scores": .., "total_score": ..,
               "updated_at": now}}] *)
Definition complete_doc (sc total : JSON) (now : datetime) (s : InterviewSession)
  : InterviewSession :=
  {| session_id := session_id s; candidate_id := candidate_id s;
     pipeline_id := pipeline_id s; platform := platform s;
     telegram_chat_id := telegram_chat_id s;
     messages := messages s; status := "completed";
     current_question_index := current_question_index s;
     scores := sc; total_score := total;
     created_at := created_at s; updated_at := now |}.

(** [{"$set": {"status": st, "updated_at": now}}] on a candidate. *)
Definition set_candidate_status_doc (st : string) (now : datetime) (c : Candidate)
  : Candidate :=
  {| cand_id := cand_id c; cand_organization_id := cand_organization_id c;
     cand_pipeline_id := cand_pipeline_id c; first_name := first_name c;
     last_name := last_name c; email := email c; phone := phone c;
     cand_status := st; airtable_record_id := airtable_record_id c;
     cand_telegram_chat_id := cand_telegram_chat_id c;
     cand_total_input_tokens := cand_total_input_tokens c;
     cand_total_output_tokens := cand_total_output_tokens c;
     cand_total_ai_cost := cand_total_ai_cost c;
     cand_created_at := cand_created_at c; cand_updated_at := now |}.

(** [{"$inc": {"total_input_tokens": i, "total_output_tokens": o,
               "total_ai_cost": c}}] on a candidate and on an organization. *)
Definition inc_candidate_doc (i o : Z) (c : float) (d : Candidate) : Candidate :=
  {| cand_id := cand_id d; cand_organization_id := cand_organization_id d;
     cand_pipeline_id := cand_pipeline_id d; first_name := first_name d;
     last_name := last_name d; email := email d; phone := phone d;
     cand_status := cand_status d; airtable_record_id := airtable_record_id d;
     cand_telegram_chat_id := cand_telegram_chat_id d;
     cand_total_input_tokens := (cand_total_input_tokens d + i)%Z;
     cand_total_output_tokens := (cand_total_output_tokens d + o)%Z;
     cand_total_ai_cost := (cand_total_ai_cost d + c)%float;
     cand_created_at := cand_created_at d; cand_updated_at := cand_updated_at d |}.

Definition inc_organization_doc (i o : Z) (c : float) (d : Organization) : Organization :=
  {| org_id := org_id d; airtable_config := airtable_config d;
     org_total_input_tokens := (org_total_input_tokens d + i)%Z;
     org_total_output_tokens := (org_total_output_tokens d + o)%Z;
     org_total_ai_cost := (org_total_ai_cost d + c)%float |}.

(* ================================================================== *)
(** ** [InterviewService] ([app/services/interview_service.py]) *)

Section InterviewService.

Variable env : Env.

(** [self.model] *)
Definition model : string := "gpt-4-turbo-preview".

(** [self.client.chat.completions.create(...)].  The call and its outcome
    are entered in the call log under the interaction type the service
    bills it as; an upstream failure is raised as a Python exception. *)
Definition chat_completions_create (kind : InteractionType) (req : ChatRequest)
  : M ChatCompletion :=
  fun w =>
    let outcome := client env (List.length (llm_calls w)) req in
    let w' := with_llm_calls (fun l => (l ++ [(kind, req, outcome)])%list) w in
    match outcome with
    | Returned r => (Ok r, w')
    | Raised e => (Raise e, w')
    end.

(** [json.loads(text)] inside the monad. *)
Definition loads (text : string) : M JSON :=
  match json_loads env text with
  | inl v => ret v
  | inr e => raise e
  end.

(** *** Usage ledger *)

(** An [int] token count as a double.  For 0 <= n <= 2^53 the
    conversion is exact, so that Python's [n / 1_000_000], the correctly
    rounded quotient of the two integers, is the quotient of the two
    doubles.  Counts outside that range are not covered: what is stated of
    a cost assumes the range. *)
Definition float_of_tokens (n : Z) : float := of_uint63 (Uint63.of_Z n).

(** The token counts for which [float_of_tokens] is exact. *)
Definition token_count (n : Z) : Prop := (0 <= n <= 2 ^ 53)%Z.

(** Step 3 of [_log_token_usage]. *)
Definition total_cost (input_tokens output_tokens : Z) : float :=
  let cost_input :=
    (float_of_tokens input_tokens / 1000000
     * input_token_cost_per_million (settings env))%float in
  let cost_output :=
    (float_of_tokens output_tokens / 1000000
     * output_token_cost_per_million (settings env))%float in
  (cost_input + cost_output)%float.

Definition _log_token_usage (usage : Usage) (candidate_id : ObjectId)
    (interaction_type : InteractionType) : M unit :=
  candidate <- find_candidate candidate_id ;;
  match candidate with
  | None => ret tt
  | Some candidate =>
      let org_id' := cand_organization_id candidate in
      let input_tokens := prompt_tokens usage in
      let output_tokens := completion_tokens usage in
      let total_cost := total_cost input_tokens output_tokens in
      now <- utcnow ;;
      let log_entry :=
        {| log_organization_id := org_id';
           log_candidate_id := candidate_id;
           interaction_type := interaction_type_str interaction_type;
           log_model := model;
           input_tokens := input_tokens;
           output_tokens := output_tokens;
           cost := total_cost;
           timestamp := now |} in
      modify (with_token_usage_logs (fun l => (l ++ [log_entry])%list)) ;;;
      modify (with_candidates
                (update_one (fun c => Nat.eqb (cand_id c) candidate_id)
                   (inc_candidate_doc input_tokens output_tokens total_cost))) ;;;
      modify (with_organizations
                (update_one (fun o => Nat.eqb (org_id o) org_id')
                   (inc_organization_doc input_tokens output_tokens total_cost)))
  end.

(** [if response.usage: await self._log_token_usage(...)] *)
Definition log_usage_if_present (response : ChatCompletion)
    (candidate_id : ObjectId) (interaction_type : InteractionType) : M unit :=
  match usage response with
  | Some u => _log_token_usage u candidate_id interaction_type
  | None => ret tt
  end.

(** *** System prompt *)

(** One entry of [questions_data] in [get_system_prompt]. *)
Definition question_entry (q : Question) : string :=
  let entry := q_text q in
  match follow_up q with
  | Some f_up =>
      if String.eqb (fu_text f_up) "" then entry
      else
        let cond := fu_condition f_up in
        let f_text := fu_text f_up in
        if String.eqb cond "ai_judgment"
        then entry ++ nl ++ "   [FOLLOW-UP] If the answer is vague or interesting, ask: "
                   ++ dq ++ f_text ++ dq
        else entry ++ nl ++ "   [FOLLOW-UP] If answer is " ++ dq ++ cond ++ dq
                   ++ " (or similar), ask: " ++ dq ++ f_text ++ dq
  | None => entry
  end.

Definition default_questions : list string :=
  ["Describe your background."; "Why do you want this job?"].

(** The placeholder substitution at the end of [get_system_prompt]. *)
Definition fill_template (prompt_template : string) (questions_data : list string)
  : string :=
  let total_questions := List.length questions_data in
  let last_question_text :=
    match questions_data with
    | [] => ""
    | _ => first_line (List.last questions_data "")
    end in
  let penultimate_question :=
    if (1 <? total_questions)%nat then total_questions - 1 else 1 in
  let questions_list_str :=
    join nl (map (fun iq => str_of_nat (fst iq + 1) ++ ". " ++ snd iq)
               (enumerate questions_data)) in
  let final_prompt :=
    Py.replace "{{TOTAL_QUESTIONS}}" (str_of_nat total_questions) prompt_template in
  let final_prompt := Py.replace "{{QUESTIONS_LIST}}" questions_list_str final_prompt in
  let final_prompt := Py.replace "{{LAST_QUESTION_TEXT}}" last_question_text final_prompt in
  Py.replace "{{PENULTIMATE_QUESTION}}" (str_of_nat penultimate_question) final_prompt.

Definition get_system_prompt (pipeline_id : ObjectId) : M string :=
  pipeline <- find_pipeline pipeline_id ;;
  match pipeline with
  | None => ret "You are a helpful interviewer. Please ask questions."
  | Some pipeline =>
      match interview_agent pipeline with
      | Some agent_config =>
          if enabled agent_config then
            let prompt_template := agent_prompt agent_config in
            let questions_data :=
              flat_map (fun stage => map question_entry (questions stage))
                (stages pipeline) in
            let questions_data :=
              match questions_data with
              | [] => default_questions
              | _ => questions_data
              end in
            ret (fill_template prompt_template questions_data)
          else ret "You are a helpful interviewer. Please ask questions in English."
      | None => ret "You are a helpful interviewer. Please ask questions in English."
      end
  end.

(** *** Loading a stored session: the pydantic model built from the document *)

(** [scores: List[Dict]] *)
Definition scores_valid (v : JSON) : bool :=
  match v with
  | JArray l => forallb (fun x => match x with JObject _ => true | _ => false end) l
  | _ => false
  end.

(** [status: Literal["active", "completed"]] *)
Definition status_literal (st : string) : bool :=
  String.eqb st "active" || String.eqb st "completed".

Definition InterviewSession_of_doc (doc : InterviewSession) : M InterviewSession :=
  if status_literal (status doc) && scores_valid (scores doc)
     && pydantic_int env (total_score doc)
  then ret doc
  else raise (mk_exc ValidationError "validation error for InterviewSession").

(** *** Opening message *)

Definition not_subscriptable : Exc :=
  mk_exc TypeError "'NoneType' object is not subscriptable".

Definition assistant_message (text : string) : Message := plain_message "assistant" text.

(** 0.7 as the nearest double *)
Definition temperature_chat : float := 0x1.6666666666666p-1%float.

Definition _generate_initial_greeting (session : InterviewSession) : M unit :=
  try_except
    (system_prompt <- get_system_prompt (pipeline_id session) ;;
     let messages := [plain_message "system" system_prompt;
                      plain_message "user" "Ready"] in
     response <- chat_completions_create Greeting
                   {| req_model := model; req_messages := messages;
                      req_tools := None; req_tool_choice := None;
                      req_response_format := None;
                      req_temperature := Some temperature_chat |} ;;
     log_usage_if_present response (candidate_id session) Greeting ;;;
     match ai_content response with
     | None => raise not_subscriptable          (* ai_message.content[:50] *)
     | Some text =>
         if String.eqb text "" then ret tt
         else push_message (session_id session) (assistant_message text)
     end)
    (fun e =>
       push_message (session_id session)
         (assistant_message
            ("I apologize, I'm having trouble starting the interview. Error details: "
             ++ exc_str e))).

(** *** Scoring engine *)

Definition str_or_None (o : option string) : string :=
  match o with Some s => s | None => "None" end.

(** The transcript lines of [evaluate_interview] and [complete_interview]. *)
Definition transcript (msgs : list Message) : list string :=
  flat_map
    (fun msg =>
       if String.eqb (role msg) "system" then []
       else [(if String.eqb (role msg) "assistant" then "AI" else "Candidate")
             ++ ": " ++ str_or_None (content msg)])
    msgs.

Definition question_rubric (q : Question) : JSON :=
  JObject [("id", JString (question_id q)); ("text", JString (q_text q));
           ("rubric", JString (scoring_rubric q)); ("max_score", JInt (max_score q))].

Definition scoring_prompt (questions_json transcript_text : string) : string :=
  join nl
    [""; 
     "        You are an expert HR evaluator. Analyze the following interview transcript and score the candidate's answers based on the provided questions and rubrics.";
     "        ";
     "        ### QUESTIONS & RUBRICS";
     "        " ++ questions_json;
     "        ";
     "        ### TRANSCRIPT";
     "        " ++ transcript_text;
     "        ";
     "        ### INSTRUCTIONS";
     "        - Retrieve the candidate's answer for each question from the transcript.";
     "        - Evaluate the answer against the rubric.";
     "        - Assign a score (0 to max_score).";
     "        - Provide a brief reasoning.";
     "        - If a question was NOT asked or NOT answered, score it 0 and mark as "
       ++ dq ++ "not_answered" ++ dq ++ ".";
     "        ";
     "        ### OUTPUT FORMAT (JSON)";
     "        {";
     "            " ++ dq ++ "scores" ++ dq ++ ": [";
     "                {";
     "                    " ++ dq ++ "question_id" ++ dq ++ ": " ++ dq ++ "q1" ++ dq ++ ",";
     "                    " ++ dq ++ "score" ++ dq ++ ": 8,";
     "                    " ++ dq ++ "reasoning" ++ dq ++ ": " ++ dq
       ++ "Candidate explained..." ++ dq;
     "                }";
     "            ],";
     "            " ++ dq ++ "total_score" ++ dq ++ ": 50,";
     "            " ++ dq ++ "summary_notes" ++ dq ++ ": " ++ dq
       ++ "Candidate showed strong..." ++ dq;
     "        }";
     "        "].

Definition scoring_failed : JSON :=
  JObject [("scores", JArray []); ("total_score", JInt 0);
           ("summary_notes", JString "Scoring failed.")].

Definition no_attribute_get (type : string) : Exc :=
  mk_exc AttributeError ("'" ++ type ++ "' object has no attribute 'get'").

(** The request of the scoring call. *)
Definition scoring_request (pipeline : Pipeline) (session : InterviewSession)
  : ChatRequest :=
  let questions_data :=
    flat_map (fun stage => map question_rubric (questions stage)) (stages pipeline) in
  let transcript_text := join nl (transcript (messages session)) in
  let prompt := scoring_prompt (json_dumps env (JArray questions_data)) transcript_text in
  {| req_model := model; req_messages := [plain_message "user" prompt];
     req_tools := None; req_tool_choice := None;
     req_response_format := Some "json_object";
     req_temperature := Some 0%float |}.

(** The second definition of [evaluate_interview] in the class; it
    replaces the stub above it. *)
Definition evaluate_interview (session : InterviewSession) : M JSON :=
  pipeline <- find_pipeline (pipeline_id session) ;;
  match pipeline with
  | None => raise (no_attribute_get "NoneType")       (* pipeline.get("stages") *)
  | Some pipeline =>
      try_except
        (response <- chat_completions_create Scoring (scoring_request pipeline session) ;;
         log_usage_if_present response (candidate_id session) Scoring ;;;
         match ai_content response with
         | None => raise not_subscriptable             (* content[:100] *)
         | Some text => loads text
         end)
        (fun e => ret scoring_failed)
  end.

Definition get_or (key : string) (default : JSON) (kv : list (string * JSON)) : JSON :=
  match lookup key kv with
  | Some v => v
  | None => default
  end.

(** Python truthiness of an optional string. *)
Definition truthy (o : option string) : bool :=
  match o with
  | Some s => negb (String.eqb s "")
  | None => false
  end.

(** Step 4 of [complete_interview]: the CRM note, pushed when the
    candidate, organization and pipeline carry the Airtable settings (an
    absent or null [airtable_config] sends nothing either way).  The PATCH
    is entered in the Airtable call log; whatever it raises is swallowed
    by the caller. *)
Definition airtable_sync (session : InterviewSession) (total_score summary : JSON)
  : M unit :=
  candidate <- find_candidate (candidate_id session) ;;
  match candidate with
  | None => ret tt
  | Some candidate =>
      if negb (truthy (airtable_record_id candidate)) then ret tt
      else
        org <- find_organization (cand_organization_id candidate) ;;
        match org with
        | None => raise (no_attribute_get "NoneType")
        | Some org =>
            let api_key' := match airtable_config org with
                            | Some c => api_key c | None => None end in
            let base_id' := match airtable_config org with
                            | Some c => base_id c | None => None end in
            pipeline <- find_pipeline (cand_pipeline_id candidate) ;;
            match pipeline with
            | None => raise (no_attribute_get "NoneType")
            | Some pipeline =>
                let table_id := airtable_table_id pipeline in
                if negb (truthy api_key' && truthy base_id' && truthy table_id)
                then ret tt
                else
                  let transcript_text :=
                    join (nl ++ nl) (transcript (messages session)) in
                  let notes :=
                    "SCORE: " ++ py_str env total_score ++ nl ++ nl
                    ++ "SUMMARY: " ++ py_str env summary ++ nl ++ nl
                    ++ "TRANSCRIPT:" ++ nl ++ take 5000 transcript_text in
                  modify (with_airtable_calls
                            (fun l =>
                               (l ++ [{| at_api_key := str_or_None api_key';
                                         at_base_id := str_or_None base_id';
                                         at_table_id := str_or_None table_id;
                                         at_record_id :=
                                           str_or_None (airtable_record_id candidate);
                                         at_status := "Interview Completed";
                                         at_notes := notes |}])%list))
            end
        end
  end.

Definition complete_interview (session : InterviewSession) : M unit :=
  scoring_result <- evaluate_interview session ;;
  match scoring_result with
  | JObject kv =>
      let scores := get_or "scores" (JArray []) kv in
      let total_score := get_or "total_score" (JInt 0) kv in
      let summary := get_or "summary_notes" (JString "") kv in
      now <- utcnow ;;
      modify (with_interview_sessions
                (update_one (fun s => Nat.eqb (session_id s) (session_id session))
                   (complete_doc scores total_score now))) ;;;
      now <- utcnow ;;
      modify (with_candidates
                (update_one (fun c => Nat.eqb (cand_id c) (candidate_id session))
                   (set_candidate_status_doc "interview_completed" now))) ;;;
      try_except (airtable_sync session total_score summary) (fun e => ret tt)
  | other => raise (no_attribute_get (type_name other))   (* scoring_result.get *)
  end.

(** *** Turn processor *)

Definition no_parameters_tool (name description : string) : Tool :=
  {| tool_type := "function"; fn_name := name; fn_description := description;
     fn_properties := []; fn_required := [] |}.

(** The [tools] list of [process_message]. *)
Definition tools : list Tool :=
  [ no_parameters_tool "end_interview"
      "Call this function when the interview is complete (all questions answered).";
    no_parameters_tool "Retrieve_messages1"
      "Retrieve conversation context and history.";
    {| tool_type := "function"; fn_name := "User_Info1";
       fn_description := "Save candidate details extracted from answers.";
       fn_properties :=
         [{| prop_name := "data"; prop_type := "object";
             prop_description :=
               "Key-value pairs of extracted info (e.g. {'name': 'John', 'age': 30})" |}];
       fn_required := ["data"] |} ].

(** [ai_message.model_dump()]: the assistant's tool-call message. *)
Definition model_dump (response : ChatCompletion) : Message :=
  {| role := "assistant"; content := ai_content response;
     tool_calls := ai_tool_calls response; tool_call_id := None; msg_name := None |}.

Definition tool_message (tool_call : ToolCall) (tool_output : string) : Message :=
  {| role := "tool"; content := Some tool_output; tool_calls := [];
     tool_call_id := Some (tc_id tool_call); msg_name := Some (tc_name tool_call) |}.

(** The [for tool_call in ai_message.tool_calls] loop.  [inl reply] is the
    early [return] of the [end_interview] branch, [inr messages] the
    working history once every tool call has been answered. *)
Fixpoint run_tool_calls (session : InterviewSession) (calls : list ToolCall)
    (messages : list Message) : M (string + list Message) :=
  match calls with
  | [] => ret (inr messages)
  | tool_call :: calls' =>
      let function_name := tc_name tool_call in
      args <- loads (tc_arguments tool_call) ;;
      if String.eqb function_name "end_interview" then
        complete_interview session ;;;
        ret (inl "Interview Completed. Thank you!")
      else
        tool_output <-
          (if String.eqb function_name "Retrieve_messages1" then
             ret "Context retrieved successfully. Proceed with analysis."
           else if String.eqb function_name "User_Info1" then
             match args with
             | JObject _ => ret "User info saved."
             | other => raise (no_attribute_get (type_name other))  (* args.get *)
             end
           else ret "Success") ;;
        run_tool_calls session calls' (messages ++ [tool_message tool_call tool_output])
  end.

Definition chat_request (messages : list Message) : ChatRequest :=
  {| req_model := model; req_messages := messages; req_tools := Some tools;
     req_tool_choice := Some "auto"; req_response_format := None;
     req_temperature := Some temperature_chat |}.

Definition tool_response_request (messages : list Message) : ChatRequest :=
  {| req_model := model; req_messages := messages; req_tools := Some tools;
     req_tool_choice := None; req_response_format := None;
     req_temperature := None |}.

(** The body of the [try] block of [process_message]. *)
Definition turn (session_id : ObjectId) (session : InterviewSession)
    (messages : list Message) : M string :=
  response <- chat_completions_create Chat (chat_request messages) ;;
  log_usage_if_present response (candidate_id session) Chat ;;;
  match ai_tool_calls response with
  | _ :: _ =>
      let messages := (messages ++ [model_dump response])%list in
      outcome <- run_tool_calls session (ai_tool_calls response) messages ;;
      match outcome with
      | inl reply => ret reply
      | inr messages =>
          response2 <- chat_completions_create ChatToolResponse
                         (tool_response_request messages) ;;
          log_usage_if_present response2 (candidate_id session) ChatToolResponse ;;;
          match ai_content response2 with
          | Some final_content =>
              if String.eqb final_content "" then ret "I understand. Please continue..."
              else
                push_message session_id (assistant_message final_content) ;;;
                ret final_content
          | None => ret "I understand. Please continue..."
          end
      end
  | [] =>
      match ai_content response with
      | None => raise not_subscriptable           (* ai_message.content[:50] *)
      | Some text =>
          if String.eqb text "" then ret "..."
          else
            push_message session_id (assistant_message text) ;;;
            ret text
      end
  end.

Definition process_message (session_id : ObjectId) (user_text : string) : M string :=
  session_data <- find_session session_id ;;
  match session_data with
  | None => raise (mk_exc ValueError "Session not found")
  | Some session_data =>
      session <- InterviewSession_of_doc session_data ;;
      if String.eqb (status session) "completed"
      then ret "This interview has already been completed. Thank you!"
      else
        system_prompt <- get_system_prompt (pipeline_id session) ;;
        let new_user_msg := plain_message "user" user_text in
        let messages :=
          (plain_message "system" system_prompt :: messages session
           ++ [new_user_msg])%list in
        push_message session_id new_user_msg ;;;
        try_except (turn session_id session messages)
          (fun e => ret ("Error: " ++ exc_str e))
  end.

(** *** Session manager *)

(** The document [create_session] inserts: the model's defaults with the
    given candidate, pipeline, platform and chat handle. *)
Definition new_session (oid candidate pipeline : ObjectId) (platform : Platform)
    (chat_id : option string) (created updated : datetime) : InterviewSession :=
  {| session_id := oid; candidate_id := candidate; pipeline_id := pipeline;
     platform := platform; telegram_chat_id := chat_id; messages := [];
     status := "active"; current_question_index := 0;
     scores := JArray []; total_score := JInt 0;
     created_at := created; updated_at := updated |}.

Definition insert_session (candidate pipeline : ObjectId) (platform : Platform)
    (chat_id : option string) : M InterviewSession :=
  created <- utcnow ;;
  updated <- utcnow ;;
  oid <- new_object_id ;;
  let session := new_session oid candidate pipeline platform chat_id created updated in
  modify (with_interview_sessions (fun l => (l ++ [session])%list)) ;;;
  ret session.

(** Re-reading a session by id and loading it into the model. *)
Definition fetch_session (sid : ObjectId) : M InterviewSession :=
  doc <- find_session sid ;;
  match doc with
  | Some doc => InterviewSession_of_doc doc
  | None => raise (mk_exc TypeError
                     "app.models.interview.InterviewSession() argument after ** must be a mapping, not NoneType")
  end.

Definition create_session (candidate_id : ObjectId) (platform : Platform)
    (chat_id : option string) : M InterviewSession :=
  candidate <- find_candidate candidate_id ;;
  match candidate with
  | None => raise (mk_exc ValueError "Candidate not found")
  | Some candidate =>
      pipeline <- find_pipeline (cand_pipeline_id candidate) ;;
      match pipeline with
      | None => raise (mk_exc ValueError "Pipeline not found")
      | Some _ =>
          existing <- find_active_session candidate_id ;;
          match existing with
          | Some existing =>
              match messages existing with
              | [] =>
                  session_obj <- InterviewSession_of_doc existing ;;
                  _generate_initial_greeting session_obj ;;;
                  fetch_session (session_id existing)
              | _ :: _ => InterviewSession_of_doc existing
              end
          | None =>
              session <- insert_session candidate_id (cand_pipeline_id candidate)
                           platform chat_id ;;
              _generate_initial_greeting session ;;;
              fetch_session (session_id session)
          end
      end
  end.

(** *** Overlapping requests

    Every [await] of [create_session] hands control back to the event
    loop, which may run another request before this one goes on; no lock
    is taken and the collection has no unique index.  The function is cut
    below at one such point, the [await] of the [find_one] that looks for
    an active session: [create_session_check] is the code up to and
    including that read, [create_session_resume] the code after it. *)

Definition create_session_check (candidate_id : ObjectId)
  : M (Candidate * option InterviewSession) :=
  candidate <- find_candidate candidate_id ;;
  match candidate with
  | None => raise (mk_exc ValueError "Candidate not found")
  | Some candidate =>
      pipeline <- find_pipeline (cand_pipeline_id candidate) ;;
      match pipeline with
      | None => raise (mk_exc ValueError "Pipeline not found")
      | Some _ =>
          existing <- find_active_session candidate_id ;;
          ret (candidate, existing)
      end
  end.

Definition create_session_resume (candidate_id : ObjectId) (platform : Platform)
    (chat_id : option string) (found : Candidate * option InterviewSession)
  : M InterviewSession :=
  let candidate := fst found in
  match snd found with
  | Some existing =>
      match messages existing with
      | [] =>
          session_obj <- InterviewSession_of_doc existing ;;
          _generate_initial_greeting session_obj ;;;
          fetch_session (session_id existing)
      | _ :: _ => InterviewSession_of_doc existing
      end
  | None =>
      session <- insert_session candidate_id (cand_pipeline_id candidate)
                   platform chat_id ;;
      _generate_initial_greeting session ;;;
      fetch_session (session_id session)
  end.

(** Two [create_session] calls in flight at once, for candidates [a] and
    [b]: the first runs up to its check, the second runs up to its check
    while the first waits, then the first runs to its end and the second
    after it. *)
Definition overlapping_create_session (a b : ObjectId) (platform : Platform)
    (chat_id : option string) : M (InterviewSession * InterviewSession) :=
  found_a <- create_session_check a ;;
  found_b <- create_session_check b ;;
  session_a <- create_session_resume a platform chat_id found_a ;;
  session_b <- create_session_resume b platform chat_id found_b ;;
  ret (session_a, session_b).

End InterviewService.

(* ================================================================== *)
(** ** [TelegramService] ([app/services/telegram_service.py]) *)

Section TelegramService.

Variable env : Env.

Definition admin_email : string := "05bca054@gmail.com".

(** [context.bot.send_message], [query.edit_message_text] and
    [update.message.reply_text]: the text is entered in the outbox. *)
Definition send_message (chat_id text : string) : M unit :=
  modify (with_telegram_outbox (fun l => (l ++ [(chat_id, text)])%list)).

Definition get_target_org_id : M (option ObjectId) :=
  admin <- gets (fun w => find (fun u => String.eqb (user_email u) admin_email) (users w)) ;;
  match admin with
  | Some admin => ret (Some (user_organization_id admin))
  | None =>
      org <- gets (fun w => hd_error (organizations w)) ;;
      ret (option_map org_id org)
  end.

Definition new_candidate (oid org pipeline : ObjectId) (first last chat_id : string)
    (created updated : datetime) : Candidate :=
  {| cand_id := oid; cand_organization_id := org; cand_pipeline_id := pipeline;
     first_name := first; last_name := last;
     email := "telegram_" ++ chat_id ++ "@example.com"; phone := None;
     cand_status := "active"; airtable_record_id := None;
     cand_telegram_chat_id := None;
     cand_total_input_tokens := 0; cand_total_output_tokens := 0;
     cand_total_ai_cost := 0%float;
     cand_created_at := created; cand_updated_at := updated |}.

Definition set_candidate_chat_doc (chat_id : string) (c : Candidate) : Candidate :=
  {| cand_id := cand_id c; cand_organization_id := cand_organization_id c;
     cand_pipeline_id := cand_pipeline_id c; first_name := first_name c;
     last_name := last_name c; email := email c; phone := phone c;
     cand_status := cand_status c; airtable_record_id := airtable_record_id c;
     cand_telegram_chat_id := Some chat_id;
     cand_total_input_tokens := cand_total_input_tokens c;
     cand_total_output_tokens := cand_total_output_tokens c;
     cand_total_ai_cost := cand_total_ai_cost c;
     cand_created_at := cand_created_at c; cand_updated_at := cand_updated_at c |}.

Definition or_default (o : option string) (default : string) : string :=
  match o with
  | Some s => if String.eqb s "" then default else s
  | None => default
  end.

(** Step 1 of [button_click]: find or create the candidate. *)
Definition find_or_create_candidate (pipeline_id : ObjectId) (chat_id : string)
    (first last : option string) : M ObjectId :=
  candidate <- gets (fun w =>
                 find (fun c =>
                         match cand_telegram_chat_id c with
                         | Some t => String.eqb t chat_id
                         | None => false
                         end && Nat.eqb (cand_pipeline_id c) pipeline_id)
                   (candidates w)) ;;
  match candidate with
  | Some candidate => ret (cand_id candidate)
  | None =>
      org <- get_target_org_id ;;
      match org with
      | None => raise (mk_exc ValidationError "validation error for CandidateModel")
      | Some org =>
          created <- utcnow ;;
          updated <- utcnow ;;
          oid <- new_object_id ;;
          modify (with_candidates
                    (fun l => (l ++ [new_candidate oid org pipeline_id
                                       (or_default first "Telegram")
                                       (or_default last "User")
                                       chat_id created updated])%list)) ;;;
          modify (with_candidates
                    (update_one (fun c => Nat.eqb (cand_id c) oid)
                       (set_candidate_chat_doc chat_id))) ;;;
          ret oid
      end
  end.

Definition last_role_is_assistant (session : InterviewSession) : bool :=
  match List.last (map Some (messages session)) None with
  | Some m => String.eqb (role m) "assistant"
  | None => false
  end.

(** [session.messages and session.messages[-1]["role"] != "assistant"] *)
Definition stuck (session : InterviewSession) : bool :=
  match messages session with
  | [] => false
  | _ => negb (last_role_is_assistant session)
  end.

Definition went_wrong : string :=
  "Something went wrong initiating the interview. Please try /start again.".

(** Step 2 of [button_click], the body of its [try] block. *)
Definition open_interview (candidate_id : ObjectId) (chat_id : string) : M unit :=
  session <- create_session env candidate_id telegram (Some chat_id) ;;
  session <-
    (if stuck session then
       modify (with_interview_sessions
                 (update_one (fun s => Nat.eqb (session_id s) (session_id session))
                    (set_status_doc "abandoned"))) ;;;
       create_session env candidate_id telegram (Some chat_id)
     else ret session) ;;
  match List.last (map Some (messages session)) None with
  | Some last_msg =>
      if String.eqb (role last_msg) "assistant"
      then send_message chat_id (str_or_None (content last_msg))
      else send_message chat_id went_wrong
  | None => send_message chat_id went_wrong
  end.

(** [button_click] for callback data [apply_<pipeline_id>]; other data
    is ignored by the handler. *)
Definition button_click (pipeline_id : ObjectId) (chat_id : string)
    (first last : option string) : M unit :=
  candidate_id <- find_or_create_candidate pipeline_id chat_id first last ;;
  send_message chat_id "Great! Starting your interview for the role... 🚀" ;;;
  try_except (open_interview candidate_id chat_id)
    (fun e => send_message chat_id ("Error starting interview: " ++ exc_str e)).

(** [find_one({"telegram_chat_id": chat_id, "status": "active"},
             sort=[("created_at", -1)])] *)
Definition latest (best : option InterviewSession) (s : InterviewSession)
  : option InterviewSession :=
  match best with
  | Some b => if (created_at b <? created_at s)%nat then Some s else Some b
  | None => Some s
  end.

Definition find_active_chat (chat_id : string) : M (option InterviewSession) :=
  gets (fun w =>
          fold_left latest
            (filter (fun s =>
                       match telegram_chat_id s with
                       | Some t => String.eqb t chat_id
                       | None => false
                       end && String.eqb (status s) "active")
               (interview_sessions w))
            None).

Definition handle_message (chat_id user_text : string) : M unit :=
  session_data <- find_active_chat chat_id ;;
  match session_data with
  | None => send_message chat_id "You don't have an active interview. Type /start to apply."
  | Some session_data =>
      try_except
        (response_text <- process_message env (session_id session_data) user_text ;;
         send_message chat_id response_text)
        (fun e => send_message chat_id "Sorry, I encountered an error. Please try again.")
  end.

End TelegramService.

(** [start], the /start command: the greeting, then the open positions
    of the target organization as one button per pipeline.  The result is
    the keyboard sent with the last reply, a label and the callback data
    per button; it is empty when no keyboard is sent. *)
Definition start (chat_id first_name : string) : M (list (string * string)) :=
  send_message chat_id
    ("Hi " ++ first_name ++ "! 👋" ++ nl
     ++ "I'm the AI Recruiter. I can help you apply for open positions."
     ++ nl ++ nl ++ "Let me check what's available...") ;;;
  org_id <- get_target_org_id ;;
  match org_id with
  | None => send_message chat_id "Error: Organization not found." ;;; ret []
  | Some org_id =>
      pipelines <-
        gets (fun w =>
                firstn 10
                  (filter (fun p => Nat.eqb (pl_organization_id p) org_id
                                    && String.eqb (pl_status p) "active")
                     (pipelines w))) ;;
      match pipelines with
      | [] => send_message chat_id "Sorry, there are no open positions right now." ;;;
              ret []
      | _ =>
          send_message chat_id "Please choose a role to apply for:" ;;;
          ret (map (fun p => (pl_name p, "apply_" ++ bson.str (pl_id p))) pipelines)
      end
  end.

(** What [button_click] reads off the callback data: nothing unless the
    data starts with "apply_", else [data.split("_")[1]], the text it
    hands to [ObjectId(...)]. *)
Definition callback_pipeline_id (data : string) : option string :=
  if String.prefix "apply_" data then nth_error (Py.split "_" data) 1 else None.

(* ================================================================== *)
(** ** Prompt generator ([app/utils/prompt_generator.py]) *)

Module prompt_generator.

(** The branching instructions of one follow-up. *)
Definition logic_for (question_num : string) (condition : string) : list string :=
  let sub_id := question_num ++ "a" in
  if String.eqb (lower condition) "yes" then
    ["- If the user answers 'Yes' to question " ++ question_num
       ++ ", ask sub-question " ++ sub_id ++ ".";
     "- If the user answers 'No' to question " ++ question_num
       ++ ", SKIP sub-question " ++ sub_id ++ " and move to the next numbered question."]
  else if String.eqb (lower condition) "no" then
    ["- If the user answers 'No' to question " ++ question_num
       ++ ", ask sub-question " ++ sub_id ++ ".";
     "- If the user answers 'Yes' to question " ++ question_num
       ++ ", SKIP sub-question " ++ sub_id ++ " and move to the next numbered question."]
  else if String.eqb (lower condition) "ai_judgment" then
    ["- Analyze the candidate's answer to question " ++ question_num ++ ".";
     "- If the answer requires clarification or if the follow-up question " ++ sub_id
       ++ " is relevant based on the context of the answer, ask it.";
     "- Otherwise, if the answer is complete and the follow-up is not needed, SKIP sub-question "
       ++ sub_id ++ "."]
  else
    ["- If the answer to question " ++ question_num ++ " is '" ++ condition
       ++ "', ask sub-question " ++ sub_id ++ ".";
     "- Otherwise, SKIP sub-question " ++ sub_id ++ "."].

(** What one question adds to [question_list_text]. *)
Definition question_lines (iq : nat * Question) : string :=
  let question_num := str_of_nat (fst iq + 1) in
  let q := snd iq in
  question_num ++ ". " ++ q_text q ++ nl
  ++ match follow_up q with
     | Some f => "    - " ++ question_num ++ "a. 🔁 " ++ fu_text f ++ nl
     | None => ""
     end.

Definition question_logic (iq : nat * Question) : list string :=
  match follow_up (snd iq) with
  | Some f => logic_for (str_of_nat (fst iq + 1)) (fu_condition f)
  | None => []
  end.

Definition prompt (total_main logic_block question_list_text : string) : string :=
  join nl
    ["## Role";
     "You are **Laura**, a friendly and professional human HR agent. You are conducting a job interview. Your goal is to complete ALL " ++ total_main ++ " numbered questions (1-" ++ total_main ++ ") before ending the interview.";
     "";
     "## Language & Tone";
     "- **Language:** Spanish (Español).";
     "- **Tone:** Professional, personalized, and very friendly.";
     "- **Style:**";
     "  - Always use friendly emojis (🙂, ✨, 😊, 🥳, 🤩, 🤞).";
     "  - Briefly acknowledge each answer (1 sentence max), then ask the next question.";
     "  - Do NOT list or repeat previous answers.";
     "  - **Constraint:** Do not answer user questions about the company or role. If they ask, politely tell them to finish the interview first.";
     "";
     "## Interview Workflow";
     "1. **The Greeting:** (Only after user says " ++ dq ++ "Ready" ++ dq ++ "): Greet them warmly and ask Question 1.";
     "";
     "2. **The Loop:**";
     "   - When you receive an answer, acknowledge it briefly.";
     "   - Determine which question comes NEXT based on the conversation history.";
     "   - Ask questions **one by one** in numerical order (1→2→3...→" ++ total_main ++ ").";
     "   - **Never repeat a question that has already been answered.**";
     "   ";
     "   **Branching Logic:**";
     "   " ++ logic_block;
     "";
     "   - **CRITICAL:** After question " ++ total_main ++ ", you MUST end the interview.";
     "";
     "3. **The End:**";
     "   - After Question " ++ total_main ++ " is answered, call the End_interview tool.";
     "   - Respond with ONLY this exact message:";
     "   ";
     "   Con esto, hemos terminado todas las preguntas de la entrevista 🎉  ";
     "";
     "¡Felicidades! 🥳 ¡Has completado la entrevista con éxito!  ";
     "Si tienes alguna pregunta o hay algo más en lo que te pueda apoyar, ¡no dudes en decirme! 😊";
     "";
     "## Tool Usage Rules";
     "1. **Retrive_messages1**: MUST be called at the start of every turn (except the first " ++ dq ++ "Ready" ++ dq ++ ").";
     "2. **User Info1**: Call this to save details extracted from answers.";
     "3. **End_interview**: Call ONLY when Question " ++ total_main ++ " has been answered.";
     "";
     "## Question Progress Tracking";
     "**CRITICAL:** Before asking any question, check the conversation history to see:";
     "- What was the last question number asked?";
     "- Did the user answer it?";
     "- What is the NEXT question number?";
     "";
     "## Interview Questions List";
     question_list_text;
     ""].

Definition generate_system_prompt (questions : list Question) : string :=
  let sorted_questions := Py.sorted order questions in
  let numbered := enumerate sorted_questions in
  let question_list_text := String.concat "" (map question_lines numbered) in
  let logic_instructions := flat_map question_logic numbered in
  let total_main := str_of_nat (List.length sorted_questions) in
  let logic_block := join (nl ++ "   ") logic_instructions in
  prompt total_main logic_block question_list_text.

End prompt_generator.

(* ================================================================== *)
(** ** HTTP endpoints ([app/routers/interviews.py], [app/routers/questions.py]) *)

Module routers.

Definition HTTP (status_code : nat) (detail : string) : Exc :=
  mk_exc (HTTPException status_code) detail.

(** [except ValueError -> 404; except Exception -> 500] *)
Definition to_http {A : Type} (e : Exc) : M A :=
  if is_ValueError e then raise (HTTP 404 (exc_str e))
  else raise (HTTP 500 (exc_str e)).

(** [POST /api/v1/interviews/start] *)
Definition start_interview (env : Env) (candidate_id : ObjectId) (platform : Platform)
    (chat_id : option string) : M InterviewSession :=
  try_except (create_session env candidate_id platform chat_id) to_http.

(** [POST /api/v1/interviews/chat]; the reply text of the response. *)
Definition chat (env : Env) (session_id : ObjectId) (message : string) : M string :=
  try_except (process_message env session_id message) to_http.

Definition default_agent (system_prompt : string) : InterviewAgent :=
  {| enabled := true; agent_name := "Laura"; agent_prompt := system_prompt;
     llm_provider := "openai"; llm_model := "gpt-4";
     temperature := temperature_chat; language := "es"; agent_api_key := None |}.

Definition with_prompt (system_prompt : string) (a : InterviewAgent) : InterviewAgent :=
  {| enabled := true; agent_name := agent_name a; agent_prompt := system_prompt;
     llm_provider := llm_provider a; llm_model := llm_model a;
     temperature := temperature a; language := language a;
     agent_api_key := agent_api_key a |}.

Definition set_agent_doc (a : InterviewAgent) (p : Pipeline) : Pipeline :=
  {| pl_id := pl_id p; pl_organization_id := pl_organization_id p;
     pl_name := pl_name p; pl_status := pl_status p; stages := stages p;
     interview_agent := Some a; airtable_table_id := airtable_table_id p |}.

(** Step 1 of [auto_configure_interview_agent]: the questions of the
    target stage, or of the first stage that has any. *)
Definition gather_questions (pipeline : Pipeline) (target_stage_id : option string)
  : list Question :=
  match target_stage_id with
  | Some target =>
      if String.eqb target "" then
        match find (fun stage => negb (Nat.eqb (List.length (questions stage)) 0))
                (stages pipeline) with
        | Some stage => questions stage
        | None => []
        end
      else
        match find (fun stage => String.eqb (stage_id stage) target) (stages pipeline) with
        | Some stage => questions stage
        | None => []
        end
  | None =>
      match find (fun stage => negb (Nat.eqb (List.length (questions stage)) 0))
              (stages pipeline) with
      | Some stage => questions stage
      | None => []
      end
  end.

(** [POST /{pipeline_id}/interview-agent/auto-configure] for a user of
    organization [current_org]. *)
Definition auto_configure_interview_agent (pipeline_id : ObjectId)
    (target_stage_id : option string) (current_org : ObjectId) : M InterviewAgent :=
  pipeline <- gets (fun w =>
                find (fun p => Nat.eqb (pl_id p) pipeline_id
                               && Nat.eqb (pl_organization_id p) current_org)
                  (pipelines w)) ;;
  match pipeline with
  | None => raise (HTTP 404 "Pipeline not found")
  | Some pipeline =>
      match gather_questions pipeline target_stage_id with
      | [] => raise (HTTP 400 "No questions found in pipeline stages to generate prompt.")
      | questions =>
          let system_prompt := prompt_generator.generate_system_prompt questions in
          let agent_data :=
            match interview_agent pipeline with
            | Some a => with_prompt system_prompt a
            | None => default_agent system_prompt
            end in
          modify (with_pipelines
                    (update_one (fun p => Nat.eqb (pl_id p) pipeline_id)
                       (set_agent_doc agent_data))) ;;;
          ret agent_data
      end
  end.

(** *** The other interview endpoints ([app/routers/interviews.py]) *)

(** [GET /api/v1/interviews/{session_id}]; the loaded session the
    response is built from. *)
Definition get_session (env : Env) (session_id : ObjectId) : M InterviewSession :=
  data <- find_session session_id ;;
  match data with
  | None => raise (HTTP 404 "Session not found")
  | Some data => InterviewSession_of_doc env data
  end.

(** [.sort("created_at", -1)]: newest first, equal dates in store order. *)
Definition newest_first (l : list InterviewSession) : list InterviewSession :=
  Py.sorted (fun s => (- Z.of_nat (created_at s))%Z) l.

(** What [InterviewSessionResponse] accepts of a stored document:
    [scores: Optional[List[Dict]]] and [total_score: Optional[float]]. *)
Definition response_valid (pydantic_float : JSON -> bool) (s : InterviewSession) : bool :=
  match scores s with JNull => true | v => scores_valid v end
  && match total_score s with JNull => true | v => pydantic_float v end.

(** [{"candidate_id": cid}] as a filter. *)
Definition of_candidate (cid : ObjectId) (s : InterviewSession) : bool :=
  Nat.eqb (candidate_id s) cid.

(** [GET /api/v1/interviews/candidate/{candidate_id}]; the stored
    documents the responses are built from, without going through the
    [InterviewSession] model.  [pydantic_float] is pydantic's lax [float]
    check. *)
Definition get_candidate_sessions (pydantic_float : JSON -> bool)
    (candidate_id : ObjectId) : M (list InterviewSession) :=
  sessions <-
    gets (fun w =>
            firstn 100
              (newest_first
                 (filter (of_candidate candidate_id) (interview_sessions w)))) ;;
  if forallb (response_valid pydantic_float) sessions then ret sessions
  else raise (mk_exc ValidationError "validation error for InterviewSessionResponse").

(** *** Question management ([app/routers/questions.py]) *)

(** [AddQuestionRequest], on the fields the [Question] record holds. *)
Record AddQuestionRequest : Type := {
  add_text : string;
  add_type : string;
  add_max_score : Z;
  add_required : bool;
  add_follow_up : option FollowUpQuestion;
  add_scoring_rubric : string;
  add_order : Z
}.

(** [Question(question_id=question_id, text=request.text, ...)] *)
Definition new_question (question_id : string) (request : AddQuestionRequest) : Question :=
  {| question_id := question_id; q_text := add_text request;
     q_type := add_type request; max_score := add_max_score request;
     required := add_required request; follow_up := add_follow_up request;
     scoring_rubric := add_scoring_rubric request; order := add_order request |}.

(** [find_one({"_id": pipeline_id,
               "organization_id": current_user.organization_id})] *)
Definition find_own_pipeline (pipeline_id current_org : ObjectId) : M (option Pipeline) :=
  gets (fun w =>
          find (fun p => Nat.eqb (pl_id p) pipeline_id
                         && Nat.eqb (pl_organization_id p) current_org)
            (pipelines w)).

(** [stage["stage_id"] == sid] and [question["question_id"] == qid] *)
Definition is_stage (sid : string) (stage : PipelineStage) : bool :=
  String.eqb (stage_id stage) sid.

Definition is_question (qid : string) (question : Question) : bool :=
  String.eqb (question_id question) qid.

Definition set_questions (qs : list Question) (stage : PipelineStage) : PipelineStage :=
  {| stage_id := stage_id stage; stage_name := stage_name stage; questions := qs |}.

(** [{"$set": {"stages": stages}}] on a pipeline. *)
Definition set_stages_doc (sts : list PipelineStage) (p : Pipeline) : Pipeline :=
  {| pl_id := pl_id p; pl_organization_id := pl_organization_id p;
     pl_name := pl_name p; pl_status := pl_status p; stages := sts;
     interview_agent := interview_agent p; airtable_table_id := airtable_table_id p |}.

(** [update_one({"_id": pipeline_id}, {"$set": {"stages": stages}})] *)
Definition store_stages (pipeline_id : ObjectId) (sts : list PipelineStage) : M unit :=
  modify (with_pipelines
            (update_one (fun p => Nat.eqb (pl_id p) pipeline_id) (set_stages_doc sts))).

(** [POST /{pipeline_id}/stages/{stage_id}/questions] for a user of
    organization [current_org]; [uuid4] is the identifier drawn for the
    question.  The loop appends to the first stage of that id. *)
Definition add_question (pipeline_id : ObjectId) (stage_id : string)
    (request : AddQuestionRequest) (current_org : ObjectId) (uuid4 : string)
  : M Question :=
  pipeline <- find_own_pipeline pipeline_id current_org ;;
  match pipeline with
  | None => raise (HTTP 404 "Pipeline not found")
  | Some pipeline =>
      if existsb (is_stage stage_id) (stages pipeline) then
        let question := new_question uuid4 request in
        store_stages pipeline_id
          (update_one (is_stage stage_id)
             (fun stage => set_questions (questions stage ++ [question]) stage)
             (stages pipeline)) ;;;
        ret question
      else raise (HTTP 404 "Stage not found")
  end.

(** [questions.pop(i)] at the first [i] that matches. *)
Fixpoint pop_first {A : Type} (p : A -> bool) (l : list A) : list A :=
  match l with
  | [] => []
  | x :: l' => if p x then l' else x :: pop_first p l'
  end.

(** [DELETE /{pipeline_id}/stages/{stage_id}/questions/{question_id}]:
    only the first stage of that id is searched. *)
Definition delete_question (pipeline_id : ObjectId) (stage_id question_id : string)
    (current_org : ObjectId) : M string :=
  pipeline <- find_own_pipeline pipeline_id current_org ;;
  match pipeline with
  | None => raise (HTTP 404 "Pipeline not found")
  | Some pipeline =>
      let question_found :=
        match find (is_stage stage_id) (stages pipeline) with
        | Some stage => existsb (is_question question_id) (questions stage)
        | None => false
        end in
      if question_found then
        store_stages pipeline_id
          (update_one (is_stage stage_id)
             (fun stage =>
                set_questions (pop_first (is_question question_id) (questions stage)) stage)
             (stages pipeline)) ;;;
        ret "Question deleted successfully"
      else raise (HTTP 404 "Question not found")
  end.

(** [GET /{pipeline_id}/stages/{stage_id}/questions] *)
Definition list_questions (pipeline_id : ObjectId) (stage_id : string)
    (current_org : ObjectId) : M (list Question) :=
  pipeline <- find_own_pipeline pipeline_id current_org ;;
  match pipeline with
  | None => raise (HTTP 404 "Pipeline not found")
  | Some pipeline =>
      match find (is_stage stage_id) (stages pipeline) with
      | Some stage => ret (questions stage)
      | None => raise (HTTP 404 "Stage not found")
      end
  end.

(** [InterviewAgentResponse] ([app/schemas/question.py]): the agent
    without its API key. *)
Record InterviewAgentResponse : Type := {
  resp_enabled : bool;
  resp_agent_name : string;
  resp_agent_prompt : string;
  resp_llm_provider : string;
  resp_llm_model : string;
  resp_temperature : float;
  resp_language : string
}.

(** The [InterviewAgentResponse] built from the agent's fields. *)
Definition agent_response (a : InterviewAgent) : InterviewAgentResponse :=
  {| resp_enabled := enabled a; resp_agent_name := agent_name a;
     resp_agent_prompt := agent_prompt a; resp_llm_provider := llm_provider a;
     resp_llm_model := llm_model a; resp_temperature := temperature a;
     resp_language := language a |}.

(** [POST /{pipeline_id}/interview-agent]; [request] is the dumped
    [ConfigureInterviewAgentRequest]. *)
Definition configure_interview_agent (pipeline_id : ObjectId) (request : InterviewAgent)
    (current_org : ObjectId) : M InterviewAgentResponse :=
  pipeline <- find_own_pipeline pipeline_id current_org ;;
  match pipeline with
  | None => raise (HTTP 404 "Pipeline not found")
  | Some _ =>
      modify (with_pipelines
                (update_one (fun p => Nat.eqb (pl_id p) pipeline_id)
                   (set_agent_doc request))) ;;;
      ret (agent_response request)
  end.

(** [GET /{pipeline_id}/interview-agent] *)
Definition get_interview_agent (pipeline_id current_org : ObjectId)
  : M InterviewAgentResponse :=
  pipeline <- find_own_pipeline pipeline_id current_org ;;
  match pipeline with
  | None => raise (HTTP 404 "Pipeline not found")
  | Some pipeline =>
      match interview_agent pipeline with
      | Some agent => ret (agent_response agent)
      | None => raise (HTTP 404 "Interview agent not configured")
      end
  end.

End routers.

(* ================================================================== *)
(** ** Operations and the properties of their steps *)

(** The entry points that reach the engine: the two interview endpoints,
    the two bot handlers and the auto-configure endpoint. *)
Inductive Op : Type :=
| StartInterview (candidate_id : ObjectId) (platform : Platform) (chat_id : option string)
| PostChat (session_id : ObjectId) (message : string)
| ButtonClick (pipeline_id : ObjectId) (chat_id : string) (first last : option string)
| HandleMessage (chat_id : string) (user_text : string)
| AutoConfigure (pipeline_id : ObjectId) (target_stage_id : option string)
    (current_org : ObjectId).

(** The world an operation leaves behind, whether it returns or raises. *)
Definition run (env : Env) (op : Op) (w : World) : World :=
  match op with
  | StartInterview c p ch => snd (routers.start_interview env c p ch w)
  | PostChat sid msg => snd (routers.chat env sid msg w)
  | ButtonClick pid ch f l => snd (button_click env pid ch f l w)
  | HandleMessage ch txt => snd (handle_message env ch txt w)
  | AutoConfigure pid st org => snd (routers.auto_configure_interview_agent pid st org w)
  end.

(** Writes outside the engine (candidate, pipeline, organization and user
    administration) replace those collections and leave the sessions alone. *)
Definition administer (cs : list Candidate) (ps : list Pipeline)
    (os : list Organization) (us : list User) (w : World) : World :=
  {| candidates := cs; pipelines := ps; organizations := os; users := us;
     interview_sessions := interview_sessions w;
     session_history := session_history w;
     token_usage_logs := token_usage_logs w; next_oid := next_oid w;
     clock := clock w; llm_calls := llm_calls w;
     airtable_calls := airtable_calls w; telegram_outbox := telegram_outbox w |}.

Inductive reachable (env : Env) : World -> Prop :=
| reach_empty : reachable env empty_world
| reach_admin cs ps os us w :
    reachable env w -> reachable env (administer cs ps os us w)
| reach_run op w :
    reachable env w -> reachable env (run env op w).

(** [rel R m]: whatever [m] does to the world is an [R]-step. *)
Definition rel {A : Type} (R : World -> World -> Prop) (m : M A) : Prop :=
  forall w, R w (snd (m w)).

(** What may be stored in a session's message log: a role and a text,
    the role being user or assistant.  A message that carries tool calls,
    answers a tool call or has another role is not of this kind. *)
Definition durable (m : Message) : Prop :=
  exists r text, m = plain_message r text /\ (r = "user" \/ r = "assistant").

Definition valid_status (st : string) : Prop :=
  st = "active" \/ st = "completed" \/ st = "abandoned".

(** The transitions of the session life cycle. *)
Definition status_step (a b : string) : Prop :=
  b = a \/ (a = "active" /\ (b = "completed" \/ b = "abandoned")).

(** [s'] is session [s] later on: same identity, a legal status step, a
    log extended with durable messages. *)
Definition evolves (s s' : InterviewSession) : Prop :=
  session_id s' = session_id s /\ candidate_id s' = candidate_id s
  /\ status_step (status s) (status s')
  /\ exists added, messages s' = (messages s ++ added)%list /\ Forall durable added.

(** As [evolves], with the status untouched. *)
Definition keeps (s s' : InterviewSession) : Prop :=
  session_id s' = session_id s /\ candidate_id s' = candidate_id s
  /\ status s' = status s
  /\ exists added, messages s' = (messages s ++ added)%list /\ Forall durable added.

(** A session created along the way. *)
Definition born (s : InterviewSession) : Prop :=
  valid_status (status s) /\ Forall durable (messages s).

Definition active_count (cid : ObjectId) (l : list InterviewSession) : nat :=
  List.length (filter (is_active_for cid) l).

(** The active-session invariant, of a collection and of a world. *)
Definition one_active_in (l : list InterviewSession) : Prop :=
  forall cid, active_count cid l <= 1.

Definition one_active (w : World) : Prop := one_active_in (interview_sessions w).

(** The collections written between [w] and [w']. *)
Definition new_snapshots (w w' : World) : list (list InterviewSession) :=
  skipn (List.length (session_history w)) (session_history w').

(** [chain R l0 hs]: each collection of [hs] is an [R]-step from the one
    before it, starting from [l0]. *)
Fixpoint chain (R : list InterviewSession -> list InterviewSession -> Prop)
    (l0 : list InterviewSession) (hs : list (list InterviewSession)) : Prop :=
  match hs with
  | [] => True
  | h :: hs' => R l0 h /\ chain R h hs'
  end.

(** The writes to the sessions collection between [w] and [w'] are
    [R]-steps, and the last of them left the collection of [w']. *)
Definition traced (R : list InterviewSession -> list InterviewSession -> Prop)
    (w w' : World) : Prop :=
  exists hs, session_history w' = (session_history w ++ hs)%list
             /\ chain R (interview_sessions w) hs
             /\ interview_sessions w' = List.last hs (interview_sessions w).

Definition statuses_valid (w : World) : Prop :=
  Forall (fun s => valid_status (status s)) (interview_sessions w).

(** MongoDB's guarantee on [_id]: unique, and below the id counter. *)
Definition ids_wf (w : World) : Prop :=
  NoDup (map session_id (interview_sessions w))
  /\ Forall (fun s => session_id s < next_oid w) (interview_sessions w).

Definition call_kind (c : InteractionType * ChatRequest * ChatOutcome) : InteractionType :=
  fst (fst c).
Definition call_request (c : InteractionType * ChatRequest * ChatOutcome) : ChatRequest :=
  snd (fst c).
Definition call_outcome (c : InteractionType * ChatRequest * ChatOutcome) : ChatOutcome :=
  snd c.

Definition conversational (k : InteractionType) : Prop :=
  k = Chat \/ k = ChatToolResponse.

(** The call log grows by calls that [allowed] admits. *)
Definition log_grows (allowed : InteractionType -> ChatRequest -> Prop) (w w' : World)
  : Prop :=
  exists new, llm_calls w' = (llm_calls w ++ new)%list
              /\ Forall (fun c => allowed (call_kind c) (call_request c)) new.

(** Conversational calls carry the fixed tool schema. *)
Definition with_tools (k : InteractionType) (req : ChatRequest) : Prop :=
  conversational k -> req_tools req = Some tools.

(** A step that keeps every session's status, at each of its writes. *)
Definition quiet (w w' : World) : Prop :=
  Forall2 keeps (interview_sessions w) (interview_sessions w')
  /\ next_oid w <= next_oid w'
  /\ log_grows with_tools w w'
  /\ traced (Forall2 keeps) w w'.

Definition sessions_ext (l l' : list InterviewSession) : Prop :=
  exists l1 new, l' = (l1 ++ new)%list /\ Forall2 evolves l l1 /\ Forall born new.

(** One write to the sessions collection: sessions evolve or are born,
    and no candidate gains a second active session. *)
Definition store_step (l l' : list InterviewSession) : Prop :=
  sessions_ext l l'
  /\ forall cid, active_count cid l' <= Nat.max (active_count cid l) 1.

(** A step of the engine: sessions evolve or are born, no candidate gains
    a second active session, ids stay well-formed, the call log grows by
    disciplined calls, and each write on the way is a [store_step]. *)
Definition ext (w w' : World) : Prop :=
  sessions_ext (interview_sessions w) (interview_sessions w')
  /\ (forall cid, active_count cid (interview_sessions w')
                  <= Nat.max (active_count cid (interview_sessions w)) 1)
  /\ (ids_wf w -> ids_wf w')
  /\ log_grows with_tools w w'
  /\ traced store_step w w'.

(** The stored log only ever grows by durable messages. *)
Definition log_extended (s s' : InterviewSession) : Prop :=
  session_id s' = session_id s
  /\ exists added, messages s' = (messages s ++ added)%list /\ Forall durable added.

Definition logs_durable (w w' : World) : Prop :=
  exists l1 new, interview_sessions w' = (l1 ++ new)%list
                 /\ Forall2 log_extended (interview_sessions w) l1
                 /\ Forall (fun s => Forall durable (messages s)) new.

(** What the side blocks (billing, CRM sync) leave untouched. *)
Definition side_step (w w' : World) : Prop :=
  interview_sessions w' = interview_sessions w
  /\ pipelines w' = pipelines w
  /\ llm_calls w' = llm_calls w
  /\ map cand_id (candidates w') = map cand_id (candidates w)
  /\ map cand_status (candidates w') = map cand_status (candidates w).

(* ================================================================== *)
(** ** Notions used by the statements below *)

(** Calls that the turn processor does not make itself. *)
Definition scoring_only (k : InteractionType) (req : ChatRequest) : Prop :=
  k = Scoring.

Definition same_log (w w' : World) : Prop := llm_calls w' = llm_calls w.

Definition same_core (f : InterviewSession -> InterviewSession) : Prop :=
  forall s, session_id (f s) = session_id s /\ candidate_id (f s) = candidate_id s
            /\ messages (f s) = messages s.

Definition by_id (sid : ObjectId) (s : InterviewSession) : bool :=
  Nat.eqb (session_id s) sid.

(** Session [sid] is stored and active. *)
Definition active_at (sid : ObjectId) (w : World) : Prop :=
  exists d, find (by_id sid) (interview_sessions w) = Some d /\ status d = "active".

(** The session an operation hands back is stored under its id and active. *)
Definition returned_active (r : Result InterviewSession) (w : World) : Prop :=
  forall s, r = Ok s ->
            find (by_id (session_id s)) (interview_sessions w) = Some s
            /\ status s = "active".

(* ================================================================== *)
(** ** A concrete environment and store *)

Module Demo.

(** A decoder that agrees with [json.loads] on the three texts the
examples use: the empty object, the empty array and the empty string. *)
Definition decode (text : string) : JSON + Exc :=
  if String.eqb text "{}" then inl (JObject [])
  else if String.eqb text "[]" then inl (JArray [])
  else inr (mk_exc JSONDecodeError "Expecting value: line 1 column 1 (char 0)").

Definition upstream_down : Exc := mk_exc UpstreamError "Connection error.".

(** An LLM client that answers the n-th call with the n-th scripted
outcome and fails once the script is exhausted. *)
Definition scripted (script : list ChatOutcome) (n : nat) (req : ChatRequest)
  : ChatOutcome :=
  nth n script (Raised upstream_down).

Definition is_int (v : JSON) : bool :=
  match v with JInt _ => true | _ => false end.

Definition env (script : list ChatOutcome) : Env :=
  {| client := scripted script; json_loads := decode;
     json_dumps := fun _ => "[]"; py_str := fun _ => "0";
     pydantic_int := is_int; settings := default_settings |}.

Definition says (text : string) : ChatOutcome :=
  Returned {| ai_content := Some text; ai_tool_calls := [];
              usage := Some {| prompt_tokens := 100; completion_tokens := 50 |} |}.

Definition calls (tcs : list ToolCall) : ChatOutcome :=
  Returned {| ai_content := None; ai_tool_calls := tcs; usage := None |}.

Definition template : string :=
  "Ask {{TOTAL_QUESTIONS}} questions:" ++ nl ++ "{{QUESTIONS_LIST}}" ++ nl
  ++ "Warn at {{PENULTIMATE_QUESTION}}; end after: {{LAST_QUESTION_TEXT}}".

Definition agent : InterviewAgent :=
  {| enabled := true; agent_name := "Laura"; agent_prompt := template;
     llm_provider := "openai"; llm_model := "gpt-4";
     temperature := temperature_chat; language := "es"; agent_api_key := None |}.

(** A pipeline whose only stage has no questions. *)
Definition pipeline : Pipeline :=
  {| pl_id := 2; pl_organization_id := 1; pl_name := "Operator";
     pl_status := "active";
     stages := [{| stage_id := "s1"; stage_name := "Screen"; questions := [] |}];
     interview_agent := Some agent; airtable_table_id := None |}.

Definition organization : Organization :=
  {| org_id := 1; airtable_config := None; org_total_input_tokens := 0;
     org_total_output_tokens := 0; org_total_ai_cost := 0%float |}.

Definition candidate : Candidate :=
  {| cand_id := 3; cand_organization_id := 1; cand_pipeline_id := 2;
     first_name := "Ana"; last_name := "Diaz"; email := "ana@example.com";
     phone := None; cand_status := "active"; airtable_record_id := None;
     cand_telegram_chat_id := Some "77";
     cand_total_input_tokens := 0; cand_total_output_tokens := 0;
     cand_total_ai_cost := 0%float; cand_created_at := 0; cand_updated_at := 0 |}.

Definition session : InterviewSession :=
  {| session_id := 4; candidate_id := 3; pipeline_id := 2; platform := telegram;
     telegram_chat_id := Some "77";
     messages := [plain_message "assistant" "Hello, shall we start?"];
     status := "active"; current_question_index := 0;
     scores := JArray []; total_score := JInt 0;
     created_at := 1; updated_at := 2 |}.

(** The store before any interview. *)
Definition fresh : World :=
  {| candidates := [candidate]; pipelines := [pipeline];
     organizations := [organization]; users := [];
     interview_sessions := []; session_history := [];
     token_usage_logs := []; next_oid := 4;
     clock := 1; llm_calls := []; airtable_calls := []; telegram_outbox := [] |}.

(** The store with the candidate's interview under way. *)
Definition world : World :=
  {| candidates := [candidate]; pipelines := [pipeline];
     organizations := [organization]; users := [];
     interview_sessions := [session]; session_history := [[session]];
     token_usage_logs := []; next_oid := 5;
     clock := 3; llm_calls := []; airtable_calls := []; telegram_outbox := [] |}.

Definition end_call (arguments : string) : ToolCall :=
  {| tc_id := "call_1"; tc_name := "end_interview"; tc_arguments := arguments |}.

End Demo.

(** The interview of [Demo.world] with an unanswered candidate message. *)
Definition stuck_world : World :=
  with_interview_sessions
    (update_one (by_id 4) (push_message_doc (plain_message "user" "hello?") 3))
    Demo.world.

Definition usage_100_50 : Usage := {| prompt_tokens := 100; completion_tokens := 50 |}.

(** The calls logged between [w] and [w']. *)
Definition new_calls (w w' : World) : list (InteractionType * ChatRequest * ChatOutcome) :=
  skipn (List.length (llm_calls w)) (llm_calls w').

(** A block surfaces upstream failures: when one of its conversational
    calls raised, the block itself raised that exception. *)
Definition surfaces {A : Type} (m : M A) : Prop :=
  forall w, exists new,
    llm_calls (snd (m w)) = (llm_calls w ++ new)%list
    /\ forall k req e,
         In (k, req, Raised e) new -> conversational k -> fst (m w) = Raise e.

(** The scoring call answered with an exception, with no content, or with
    text that [json.loads] rejects. *)
Definition scoring_fails (env : Env) (out : ChatOutcome) : Prop :=
  match out with
  | Raised _ => True
  | Returned r =>
      match ai_content r with
      | Some text => exists e, json_loads env text = inr e
      | None => True
      end
  end.

(** The scoring result: the parsed object, or the failure record. *)
Definition scoring_result (env : Env) (out : ChatOutcome) : JSON :=
  match out with
  | Raised _ => scoring_failed
  | Returned r =>
      match ai_content r with
      | Some text =>
          match json_loads env text with
          | inl v => v
          | inr _ => scoring_failed
          end
      | None => scoring_failed
      end
  end.

(** The system prompt a turn compiles in world [w]. *)
Definition system_prompt_in (w : World) (pid : ObjectId) : string :=
  match fst (get_system_prompt pid w) with
  | Ok prompt => prompt
  | Raise _ => ""
  end.

(** The working history of the first call of a turn. *)
Definition turn_history (w : World) (d : InterviewSession) (text : string) : list Message :=
  (plain_message "system" (system_prompt_in w (pipeline_id d))
   :: messages d ++ [plain_message "user" text])%list.

(** A tool call ahead of [end_interview] that the loop answers: not
    [end_interview] itself, with arguments that parse, to an object when
    the tool is [User_Info1]. *)
Definition answered (env : Env) (c : ToolCall) : Prop :=
  String.eqb (tc_name c) "end_interview" = false
  /\ exists a, json_loads env (tc_arguments c) = inl a
               /\ (String.eqb (tc_name c) "User_Info1" = true -> exists kv, a = JObject kv).

(* ================================================================== *)
(** ** Stores and notions for the further properties *)

(** [Demo.world] once the interview is over, and once the session has
    been abandoned. *)
Definition completed_world : World :=
  with_interview_sessions
    (update_one (by_id 4) (complete_doc (JArray []) (JInt 0) 3)) Demo.world.

Definition abandoned_world : World :=
  with_interview_sessions (update_one (by_id 4) (set_status_doc "abandoned")) Demo.world.

(** Session by session, the same id and the same message log. *)
Definition same_logs (w w' : World) : Prop :=
  Forall2 (fun s s' => session_id s' = session_id s /\ messages s' = messages s)
    (interview_sessions w) (interview_sessions w').

(** What a block adds to the stored log of session [sid]: nothing, or
    the one assistant message whose text it returns. *)
Definition adds_reply (sid : ObjectId) (m : M string) (w : World) : Prop :=
  forall d,
    find (by_id sid) (interview_sessions w) = Some d ->
    exists d',
      find (by_id sid) (interview_sessions (snd (m w))) = Some d'
      /\ (messages d' = messages d
          \/ exists reply,
               fst (m w) = Ok reply
               /\ messages d' = (messages d ++ [assistant_message reply])%list).

(** The request of the opening call, and what the model answers to it in
    world [w] for a session of pipeline [pid]. *)
Definition greeting_request (system_prompt : string) : ChatRequest :=
  {| req_model := model;
     req_messages := [plain_message "system" system_prompt;
                      plain_message "user" "Ready"];
     req_tools := None; req_tool_choice := None; req_response_format := None;
     req_temperature := Some temperature_chat |}.

Definition greeting_outcome (env : Env) (w : World) (pid : ObjectId) : ChatOutcome :=
  client env (List.length (llm_calls w)) (greeting_request (system_prompt_in w pid)).

(** The message stored when the opening call fails. *)
Definition apology (e : Exc) : Message :=
  plain_message "assistant"
    ("I apologize, I'm having trouble starting the interview. Error details: "
     ++ exc_str e).

(** The opening block returns and stores [m] in the session's log. *)
Definition greeting_pushes (env : Env) (s : InterviewSession) (w : World) (m : Message)
  : Prop :=
  exists w' now,
    _generate_initial_greeting env s w = (Ok tt, w')
    /\ interview_sessions w'
       = update_one (by_id (session_id s)) (push_message_doc m now) (interview_sessions w).

(** [Demo.world] with the session's log still empty: the opening turn
    never completed. *)
Definition unopened_session : InterviewSession :=
  new_session 4 3 2 telegram (Some "77") 1 2.

Definition unopened_world : World :=
  {| candidates := [Demo.candidate]; pipelines := [Demo.pipeline];
     organizations := [Demo.organization]; users := [];
     interview_sessions := [unopened_session]; session_history := [[unopened_session]];
     token_usage_logs := []; next_oid := 5;
     clock := 3; llm_calls := []; airtable_calls := []; telegram_outbox := [] |}.

(** [l'] is [l] with entries added at the end. *)
Definition extends {A : Type} (l l' : list A) : Prop :=
  exists new, l' = (l ++ new)%list.

(** The trails of the engine: the usage ledger, the call log, the CRM
    updates and the bot's outbox are only added to; the clock and the id
    counter only move forward. *)
Definition trails_grow (w w' : World) : Prop :=
  extends (token_usage_logs w) (token_usage_logs w')
  /\ extends (llm_calls w) (llm_calls w')
  /\ extends (airtable_calls w) (airtable_calls w')
  /\ extends (telegram_outbox w) (telegram_outbox w')
  /\ clock w <= clock w' /\ next_oid w <= next_oid w'.

(** What identifies a candidate and places it. *)
Definition candidate_identity (c : Candidate)
  : ObjectId * ObjectId * ObjectId * string * option string :=
  (cand_id c, cand_organization_id c, cand_pipeline_id c, email c, airtable_record_id c).

(** The configuration is kept: pipelines and users are untouched, the
    organizations keep their ids and CRM settings, and candidates are
    only added, the stored ones keeping their identity. *)
Definition config_kept (w w' : World) : Prop :=
  pipelines w' = pipelines w
  /\ users w' = users w
  /\ map (fun o => (org_id o, airtable_config o)) (organizations w')
     = map (fun o => (org_id o, airtable_config o)) (organizations w)
  /\ extends (map candidate_identity (candidates w)) (map candidate_identity (candidates w')).

(** The operations of the interview engine proper. *)
Definition engine_op (op : Op) : Prop :=
  match op with
  | AutoConfigure _ _ _ => False
  | _ => True
  end.

Definition same_outbox (w w' : World) : Prop := telegram_outbox w' = telegram_outbox w.

(** The filter of [handle_message]: an active session of the chat. *)
Definition active_in_chat (chat_id : string) (s : InterviewSession) : Prop :=
  telegram_chat_id s = Some chat_id /\ status s = "active".

(** The filter of [button_click]: the candidate of a chat for a pipeline. *)
Definition applied_from (chat_id : string) (pipeline_id : ObjectId) (c : Candidate) : bool :=
  match cand_telegram_chat_id c with
  | Some t => String.eqb t chat_id
  | None => false
  end && Nat.eqb (cand_pipeline_id c) pipeline_id.

(** [c in s] *)
Fixpoint has_char (c : ascii) (s : string) : bool :=
  match s with
  | EmptyString => false
  | String x s' => Ascii.eqb x c || has_char c s'
  end.

(** The filter of [start]: an open position of organization [org]. *)
Definition open_position (org : ObjectId) (p : Pipeline) : bool :=
  Nat.eqb (pl_organization_id p) org && String.eqb (pl_status p) "active".

(** [Demo.world] with the CRM settings in place: the candidate's record,
    the organization's key and base, the pipeline's table. *)
Definition crm_world : World :=
  {| candidates :=
       [{| cand_id := 3; cand_organization_id := 1; cand_pipeline_id := 2;
           first_name := "Ana"; last_name := "Diaz"; email := "ana@example.com";
           phone := None; cand_status := "active"; airtable_record_id := Some "rec1";
           cand_telegram_chat_id := Some "77";
           cand_total_input_tokens := 0; cand_total_output_tokens := 0;
           cand_total_ai_cost := 0%float; cand_created_at := 0; cand_updated_at := 0 |}];
     pipelines :=
       [{| pl_id := 2; pl_organization_id := 1; pl_name := "Operator";
           pl_status := "active"; stages := []; interview_agent := None;
           airtable_table_id := Some "tbl1" |}];
     organizations :=
       [{| org_id := 1;
           airtable_config := Some {| api_key := Some "key1"; base_id := Some "app1" |};
           org_total_input_tokens := 0; org_total_output_tokens := 0;
           org_total_ai_cost := 0%float |}];
     users := [];
     interview_sessions := [Demo.session]; session_history := [[Demo.session]];
     token_usage_logs := []; next_oid := 5;
     clock := 3; llm_calls := []; airtable_calls := []; telegram_outbox := [] |}.

(** The question list a session of pipeline [p] is prompted with. *)
Definition prompt_questions (p : Pipeline) : list string :=
  match flat_map (fun stage => map question_entry (questions stage)) (stages p) with
  | [] => default_questions
  | entries => entries
  end.

(** A pipeline with one stage of one question, and its store. *)
Definition screening_question : Question :=
  {| question_id := "q1"; q_text := "Have you worked at a fuel station?";
     q_type := "yes_no"; max_score := 20; required := true;
     follow_up := Some {| fu_text := "For how long?"; fu_condition := "yes";
                          fu_scoring_rubric := ""; fu_max_score := 5 |};
     scoring_rubric := "Full points for relevant experience"; order := 1 |}.

Definition screening_pipeline : Pipeline :=
  {| pl_id := 2; pl_organization_id := 1; pl_name := "Operator";
     pl_status := "active";
     stages := [{| stage_id := "s1"; stage_name := "Screen";
                   questions := [screening_question] |}];
     interview_agent := None; airtable_table_id := None |}.

Definition screening_world : World :=
  {| candidates := [Demo.candidate]; pipelines := [screening_pipeline];
     organizations := [Demo.organization]; users := [];
     interview_sessions := []; session_history := [];
     token_usage_logs := []; next_oid := 4;
     clock := 1; llm_calls := []; airtable_calls := []; telegram_outbox := [] |}.

Definition salary_request : routers.AddQuestionRequest :=
  {| routers.add_text := "What salary do you expect?"; routers.add_type := "text";
     routers.add_max_score := 10; routers.add_required := true;
     routers.add_follow_up := None; routers.add_scoring_rubric := "";
     routers.add_order := 2 |}.

(** No text of the question holds a brace. *)
Definition brace_free (q : Question) : Prop :=
  has_char "{" (q_text q) = false
  /\ match follow_up q with
     | Some f => has_char "{" (fu_text f) = false /\ has_char "{" (fu_condition f) = false
     | None => True
     end.

(** An agent whose prompt has no placeholder, and a store that runs it. *)
Definition plain_agent : InterviewAgent :=
  {| enabled := true; agent_name := "Laura";
     agent_prompt := "Ask the candidate about their last job, then end the interview.";
     llm_provider := "openai"; llm_model := "gpt-4";
     temperature := temperature_chat; language := "en"; agent_api_key := None |}.

Definition plain_world : World :=
  with_pipelines (update_one (fun d => Nat.eqb (pl_id d) 2) (routers.set_agent_doc plain_agent))
    screening_world.

(** A second question, ordered before [screening_question]. *)
Definition opening_question : Question :=
  {| question_id := "q0"; q_text := "What is your name?";
     q_type := "text"; max_score := 0; required := true; follow_up := None;
     scoring_rubric := ""; order := 0 |}.

(** [s.count(c)], the first and the last character of a text, and a text
    without white space at either end. *)
Fixpoint count_char (c : ascii) (s : string) : nat :=
  match s with
  | EmptyString => 0
  | String x s' => (if Ascii.eqb x c then 1 else 0) + count_char c s'
  end.

Definition first_char (s : string) : option ascii :=
  match s with
  | EmptyString => None
  | String c _ => Some c
  end.

Fixpoint last_char (s : string) : option ascii :=
  match s with
  | EmptyString => None
  | String c s' => match last_char s' with Some x => Some x | None => Some c end
  end.

Definition trimmed (s : string) : Prop :=
  (forall c, first_char s = Some c -> is_space c = false)
  /\ (forall c, last_char s = Some c -> is_space c = false).

(** [Demo.world] after the pipeline of the interview has been removed. *)
Definition orphaned_world : World :=
  {| candidates := [Demo.candidate]; pipelines := [];
     organizations := [Demo.organization]; users := [];
     interview_sessions := [Demo.session]; session_history := [[Demo.session]];
     token_usage_logs := []; next_oid := 5;
     clock := 3; llm_calls := []; airtable_calls := []; telegram_outbox := [] |}.

(** A chat with three stored sessions: the interview of [Demo.world], a
    newer active one and a completed one that is newer still. *)
Definition newer_session : InterviewSession :=
  {| session_id := 6; candidate_id := 8; pipeline_id := 2; platform := telegram;
     telegram_chat_id := Some "77";
     messages := [plain_message "assistant" "Welcome, shall we start?"];
     status := "active"; current_question_index := 0;
     scores := JArray []; total_score := JInt 0;
     created_at := 5; updated_at := 5 |}.

Definition closed_session : InterviewSession :=
  {| session_id := 7; candidate_id := 9; pipeline_id := 2; platform := telegram;
     telegram_chat_id := Some "77";
     messages := [plain_message "assistant" "Thank you."];
     status := "completed"; current_question_index := 0;
     scores := JArray []; total_score := JInt 0;
     created_at := 9; updated_at := 9 |}.

Definition busy_chat_world : World :=
  {| candidates := [Demo.candidate]; pipelines := [Demo.pipeline];
     organizations := [Demo.organization]; users := [];
     interview_sessions := [Demo.session; newer_session; closed_session];
     session_history := [[Demo.session; newer_session; closed_session]];
     token_usage_logs := []; next_oid := 10;
     clock := 10; llm_calls := []; airtable_calls := []; telegram_outbox := [] |}.


(* ================================================================== *)
(** ** The Python helpers on examples *)

Example replace_example :
  Py.replace "{{N}}" "12" "a {{N}} b {{N}}{{N}" = "a 12 b 12{{N}".
Proof. reflexivity. Qed.

Example replace_empty_example : Py.replace "" "-" "abc" = "-a-b-c-".
Proof. reflexivity. Qed.

Example first_line_example :
  Py.first_line ("one" ++ Py.nl ++ "two") = "one".
Proof. reflexivity. Qed.

(** Slicing counts characters, not bytes: the two-byte and the three-byte
    character below are kept whole. *)
Example take_example :
  Py.take 2 "é€abc" = "é€" /\ String.length (Py.take 2 "é€abc") = 5
  /\ Py.take 0 "é€abc" = "" /\ Py.take 9 "é€abc" = "é€abc".
Proof. repeat split. Qed.

Example sorted_stable_example :
  Py.sorted fst [(2, "a"); (1, "b"); (2, "c"); (1, "d")]%Z
  = [(1, "b"); (1, "d"); (2, "a"); (2, "c")]%Z.
Proof. reflexivity. Qed.


(* ================================================================== *)
(** ** Framing: steps of a relation closed under the primitive writes *)

Create HintDb svc.

#[local] Hint Unfold find_candidate find_pipeline find_organization find_session
  find_active_session find_active_chat send_message loads
  InterviewSession_of_doc fetch_session get_target_org_id : svc.

Section Frame.

Variable env : Env.
Variable R : World -> World -> Prop.
Variable allowed : InteractionType -> ChatRequest -> Prop.

Hypothesis R_refl : forall w, R w w.
Hypothesis R_trans : forall a b c, R a b -> R b c -> R a c.

Hypothesis R_clock : forall w, R w (with_clock S w).
Hypothesis R_oid : forall w, R w (with_next_oid S w).
Hypothesis R_usage_log :
  forall w e, R w (with_token_usage_logs (fun l => (l ++ [e])%list) w).
Hypothesis R_inc_candidate :
  forall w cid i o c,
    R w (with_candidates
           (update_one (fun d => Nat.eqb (cand_id d) cid) (inc_candidate_doc i o c)) w).
Hypothesis R_inc_organization :
  forall w oid i o c,
    R w (with_organizations
           (update_one (fun d => Nat.eqb (org_id d) oid) (inc_organization_doc i o c)) w).
Hypothesis R_candidate_status :
  forall w cid st now,
    R w (with_candidates
           (update_one (fun d => Nat.eqb (cand_id d) cid)
              (set_candidate_status_doc st now)) w).
Hypothesis R_candidate_insert :
  forall w c, R w (with_candidates (fun l => (l ++ [c])%list) w).
Hypothesis R_candidate_chat :
  forall w cid ch,
    R w (with_candidates
           (update_one (fun d => Nat.eqb (cand_id d) cid) (set_candidate_chat_doc ch)) w).
Hypothesis R_airtable :
  forall w u, R w (with_airtable_calls (fun l => (l ++ [u])%list) w).
Hypothesis R_outbox :
  forall w x, R w (with_telegram_outbox (fun l => (l ++ [x])%list) w).
Hypothesis R_agent :
  forall w pid a,
    R w (with_pipelines
           (update_one (fun p => Nat.eqb (pl_id p) pid) (routers.set_agent_doc a)) w).
Hypothesis R_push :
  forall w sid msg now,
    durable msg ->
    R w (with_interview_sessions
           (update_one (fun s => Nat.eqb (session_id s) sid) (push_message_doc msg now)) w).
Hypothesis R_llm :
  forall w k req out,
    allowed k req -> R w (with_llm_calls (fun l => (l ++ [(k, req, out)])%list) w).
Hypothesis allow_greeting : forall req, allowed Greeting req.
Hypothesis allow_scoring : forall req, allowed Scoring req.
Hypothesis allow_chat : forall msgs, allowed Chat (chat_request msgs).
Hypothesis allow_tool_response :
  forall msgs, allowed ChatToolResponse (tool_response_request msgs).
(** The writes that change a status or add a session. *)
Hypothesis R_complete :
  forall w sid sc total now,
    R w (with_interview_sessions
           (update_one (fun s => Nat.eqb (session_id s) sid) (complete_doc sc total now)) w).
Hypothesis R_abandon :
  forall w sid,
    R w (with_interview_sessions
           (update_one (fun s => Nat.eqb (session_id s) sid)
              (set_status_doc "abandoned")) w).
Hypothesis R_insert :
  forall w oid c p pf ch cr up,
    R w (with_interview_sessions
           (fun l => (l ++ [new_session oid c p pf ch cr up])%list) w).

Lemma rel_ret {A : Type} (a : A) : rel R (ret a).
Proof. intro w; apply R_refl. Qed.

Lemma rel_raise {A : Type} (e : Exc) : rel R (@raise A e).
Proof. intro w; apply R_refl. Qed.

Lemma rel_gets {A : Type} (f : World -> A) : rel R (gets f).
Proof. intro w; apply R_refl. Qed.

Lemma rel_bind {A B : Type} (m : M A) (f : A -> M B) :
  rel R m -> (forall a, rel R (f a)) -> rel R (bind m f).
Proof.
  intros Hm Hf w. unfold bind.
  specialize (Hm w). destruct (m w) as [[a | e] w1]; simpl in *.
  - eapply R_trans; [exact Hm | apply Hf].
  - exact Hm.
Qed.

Lemma rel_try {A : Type} (m : M A) (h : Exc -> M A) :
  rel R m -> (forall e, rel R (h e)) -> rel R (try_except m h).
Proof.
  intros Hm Hh w. unfold try_except.
  specialize (Hm w). destruct (m w) as [[a | e] w1]; simpl in *.
  - exact Hm.
  - eapply R_trans; [exact Hm | apply Hh].
Qed.

Lemma rel_modify (f : World -> World) :
  (forall w, R w (f w)) -> rel R (modify f).
Proof. intros H w; apply H. Qed.

Lemma rel_utcnow : rel R utcnow.
Proof. intro w; apply R_clock. Qed.

Lemma rel_new_object_id : rel R new_object_id.
Proof. intro w; apply R_oid. Qed.

Lemma rel_chat_completions_create k req :
  allowed k req -> rel R (chat_completions_create env k req).
Proof.
  intros Hk w. unfold chat_completions_create.
  destruct (client env _ req); simpl; apply R_llm; exact Hk.
Qed.

(** One step of a proof that a block is an [R]-step: peel the head
    construct of the block. *)
Ltac rel_step :=
  lazymatch goal with
  | |- rel _ (bind _ _) => apply rel_bind; [ | intro ]
  | |- rel _ (try_except _ _) => apply rel_try; [ | intro ]
  | |- rel _ (ret _) => apply rel_ret
  | |- rel _ (raise _) => apply rel_raise
  | |- rel _ (gets _) => apply rel_gets
  | |- rel _ utcnow => apply rel_utcnow
  | |- rel _ new_object_id => apply rel_new_object_id
  | |- rel _ (match ?x with _ => _ end) => destruct x
  | |- rel _ _ => progress autounfold with svc
  end.

Lemma rel_push_message sid msg :
  durable msg -> rel R (push_message sid msg).
Proof.
  intro Hd. unfold push_message. repeat rel_step.
  apply rel_modify. intro w. apply R_push. exact Hd.
Qed.

Lemma durable_user text : durable (plain_message "user" text).
Proof. exists "user", text. split; [ reflexivity | left; reflexivity ]. Qed.

Lemma durable_assistant text : durable (assistant_message text).
Proof. exists "assistant", text. split; [ reflexivity | right; reflexivity ]. Qed.

Lemma rel_log_token_usage u cid k : rel R (_log_token_usage env u cid k).
Proof.
  unfold _log_token_usage. repeat rel_step; apply rel_modify; intro w.
  - apply R_usage_log.
  - apply R_inc_candidate.
  - apply R_inc_organization.
Qed.

Lemma rel_log_usage_if_present r cid k : rel R (log_usage_if_present env r cid k).
Proof.
  unfold log_usage_if_present. destruct (usage r).
  - apply rel_log_token_usage.
  - apply rel_ret.
Qed.

Lemma rel_get_system_prompt pid : rel R (get_system_prompt pid).
Proof. unfold get_system_prompt. repeat rel_step. Qed.

Lemma rel_session_of_doc doc : rel R (InterviewSession_of_doc env doc).
Proof. repeat rel_step. Qed.

Lemma rel_fetch_session sid : rel R (fetch_session env sid).
Proof. repeat rel_step. Qed.

Lemma rel_loads text : rel R (loads env text).
Proof. repeat rel_step. Qed.

Lemma rel_generate_initial_greeting s : rel R (_generate_initial_greeting env s).
Proof.
  unfold _generate_initial_greeting.
  apply rel_try; [ | intro; apply rel_push_message, durable_assistant ].
  apply rel_bind; [ apply rel_get_system_prompt | intro ].
  apply rel_bind; [ apply rel_chat_completions_create, allow_greeting | intro ].
  apply rel_bind; [ apply rel_log_usage_if_present | intro ].
  repeat rel_step. apply rel_push_message, durable_assistant.
Qed.

Lemma rel_evaluate_interview s : rel R (evaluate_interview env s).
Proof.
  unfold evaluate_interview. repeat rel_step.
  - apply rel_chat_completions_create, allow_scoring.
  - apply rel_log_usage_if_present.
Qed.

Lemma rel_airtable_sync s total summary : rel R (airtable_sync env s total summary).
Proof.
  unfold airtable_sync. repeat rel_step.
  apply rel_modify; intro w; apply R_airtable.
Qed.

Lemma rel_complete_interview s : rel R (complete_interview env s).
Proof.
  unfold complete_interview.
  apply rel_bind; [ apply rel_evaluate_interview | intro v ].
  destruct v; try apply rel_raise.
  repeat rel_step.
  - apply rel_modify; intro w; apply R_complete.
  - apply rel_modify; intro w; apply R_candidate_status.
  - apply rel_airtable_sync.
Qed.

Lemma rel_run_tool_calls s calls :
  forall msgs, rel R (run_tool_calls env s calls msgs).
Proof.
  induction calls as [| tc calls IH]; intro msgs; simpl.
  - apply rel_ret.
  - apply rel_bind; [ apply rel_loads | intro args ].
    destruct (String.eqb (tc_name tc) "end_interview").
    + apply rel_bind; [ apply rel_complete_interview | intro; apply rel_ret ].
    + apply rel_bind; [ | intro; apply IH ].
      repeat rel_step.
Qed.

Lemma rel_turn sid s msgs : rel R (turn env sid s msgs).
Proof.
  unfold turn.
  apply rel_bind; [ apply rel_chat_completions_create, allow_chat | intro r ].
  apply rel_bind; [ apply rel_log_usage_if_present | intro ].
  destruct (ai_tool_calls r).
  - repeat rel_step. apply rel_push_message, durable_assistant.
  - apply rel_bind; [ apply rel_run_tool_calls | intro out ].
    destruct out; [ apply rel_ret | ].
    apply rel_bind;
      [ apply rel_chat_completions_create, allow_tool_response | intro r2 ].
    apply rel_bind; [ apply rel_log_usage_if_present | intro ].
    repeat rel_step. apply rel_push_message, durable_assistant.
Qed.

Lemma rel_process_message sid text : rel R (process_message env sid text).
Proof.
  unfold process_message.
  apply rel_bind; [ apply rel_gets | intro doc ].
  destruct doc; [ | apply rel_raise ].
  apply rel_bind; [ apply rel_session_of_doc | intro s ].
  destruct (String.eqb (status s) "completed"); [ apply rel_ret | ].
  apply rel_bind; [ apply rel_get_system_prompt | intro ].
  apply rel_bind; [ apply rel_push_message, durable_user | intro ].
  apply rel_try; [ apply rel_turn | intro; apply rel_ret ].
Qed.

Lemma rel_insert_session c p pf ch : rel R (insert_session c p pf ch).
Proof.
  unfold insert_session. repeat rel_step.
  apply rel_modify; intro w; apply R_insert.
Qed.

Lemma rel_create_session cid pf ch : rel R (create_session env cid pf ch).
Proof.
  unfold create_session.
  apply rel_bind; [ apply rel_gets | intro c ].
  destruct c; [ | apply rel_raise ].
  apply rel_bind; [ apply rel_gets | intro p ].
  destruct p; [ | apply rel_raise ].
  apply rel_bind; [ apply rel_gets | intro ex ].
  destruct ex as [ex | ].
  - destruct (messages ex).
    + apply rel_bind; [ apply rel_session_of_doc | intro ].
      apply rel_bind; [ apply rel_generate_initial_greeting | intro ].
      apply rel_fetch_session.
    + apply rel_session_of_doc.
  - apply rel_bind; [ apply rel_insert_session | intro ].
    apply rel_bind; [ apply rel_generate_initial_greeting | intro ].
    apply rel_fetch_session.
Qed.

Lemma rel_send_message ch text : rel R (send_message ch text).
Proof. apply rel_modify; intro w; apply R_outbox. Qed.

Lemma rel_find_or_create_candidate pid ch f l :
  rel R (find_or_create_candidate pid ch f l).
Proof.
  unfold find_or_create_candidate. repeat rel_step; apply rel_modify; intro w.
  - apply R_candidate_insert.
  - apply R_candidate_chat.
Qed.

Lemma rel_open_interview cid ch : rel R (open_interview env cid ch).
Proof.
  unfold open_interview.
  apply rel_bind; [ apply rel_create_session | intro s ].
  apply rel_bind.
  - destruct (stuck s); [ | apply rel_ret ].
    apply rel_bind; [ apply rel_modify; intro w; apply R_abandon | intro ].
    apply rel_create_session.
  - intro s'. repeat rel_step; apply rel_send_message.
Qed.

Lemma rel_button_click pid ch f l : rel R (button_click env pid ch f l).
Proof.
  unfold button_click.
  apply rel_bind; [ apply rel_find_or_create_candidate | intro ].
  apply rel_bind; [ apply rel_send_message | intro ].
  apply rel_try; [ apply rel_open_interview | intro; apply rel_send_message ].
Qed.

Lemma rel_handle_message ch text : rel R (handle_message env ch text).
Proof.
  unfold handle_message.
  apply rel_bind; [ apply rel_gets | intro d ].
  destruct d; [ | apply rel_send_message ].
  apply rel_try; [ | intro; apply rel_send_message ].
  apply rel_bind; [ apply rel_process_message | intro; apply rel_send_message ].
Qed.

Lemma rel_to_http {A : Type} e : rel R (@routers.to_http A e).
Proof. unfold routers.to_http. destruct (is_ValueError e); apply rel_raise. Qed.

Lemma rel_auto_configure pid st org :
  rel R (routers.auto_configure_interview_agent pid st org).
Proof.
  unfold routers.auto_configure_interview_agent. repeat rel_step.
  apply rel_modify; intro w; apply R_agent.
Qed.

(** Every operation is an [R]-step. *)
Lemma rel_run op : forall w, R w (run env op w).
Proof.
  destruct op; intro w; simpl.
  - apply (rel_try _ _ (rel_create_session _ _ _) rel_to_http).
  - apply (rel_try _ _ (rel_process_message _ _) rel_to_http).
  - apply rel_button_click.
  - apply rel_handle_message.
  - apply rel_auto_configure.
Qed.

End Frame.

(* ================================================================== *)
(** ** Lists of documents under [update_one] *)

Section Documents.

Context {A : Type}.

Lemma Forall2_diag (P : A -> A -> Prop) (l : list A) :
  (forall x, P x x) -> Forall2 P l l.
Proof. intro H; induction l; constructor; auto. Qed.

Lemma Forall2_update_one (P : A -> A -> Prop) (p : A -> bool) (f : A -> A) (l : list A) :
  (forall x, P x x) -> (forall x, p x = true -> P x (f x)) ->
  Forall2 P l (update_one p f l).
Proof.
  intros Hrefl Hf. induction l as [| x l IH]; simpl; [ constructor | ].
  destruct (p x) eqn:E.
  - constructor; [ apply Hf, E | apply Forall2_diag, Hrefl ].
  - constructor; [ apply Hrefl | exact IH ].
Qed.

Lemma Forall2_compose (P Q T : A -> A -> Prop) (l1 l2 l3 : list A) :
  (forall x y z, P x y -> Q y z -> T x z) ->
  Forall2 P l1 l2 -> Forall2 Q l2 l3 -> Forall2 T l1 l3.
Proof.
  intros H H12. revert l3.
  induction H12; intros l3 H23; inversion H23; subst; constructor; eauto.
Qed.

Lemma Forall2_Forall_r (P : A -> A -> Prop) (Q : A -> Prop) (l1 l2 : list A) :
  (forall x y, Q x -> P x y -> Q y) ->
  Forall2 P l1 l2 -> Forall Q l1 -> Forall Q l2.
Proof.
  intros H H12. induction H12; intro HQ; inversion HQ; subst; constructor; eauto.
Qed.

Lemma map_update_one {B : Type} (g : A -> B) (p : A -> bool) (f : A -> A) (l : list A) :
  (forall x, g (f x) = g x) -> map g (update_one p f l) = map g l.
Proof.
  intro H. induction l as [| x l IH]; simpl; [ reflexivity | ].
  destruct (p x); simpl; [ rewrite H; reflexivity | rewrite IH; reflexivity ].
Qed.

(** After [update_one], [find] on a filter the update respects returns
    the updated document. *)
Lemma find_update_one (p : A -> bool) (f : A -> A) (l : list A) (x : A) :
  (forall y, p (f y) = p y) ->
  find p l = Some x -> find p (update_one p f l) = Some (f x).
Proof.
  intros Hp. induction l as [| y l IH]; simpl; [ discriminate | ].
  destruct (p y) eqn:E.
  - intro H; inversion H; subst. simpl. rewrite Hp, E. reflexivity.
  - intro H. simpl. rewrite E. apply IH, H.
Qed.

Lemma find_none_filter (p : A -> bool) (l : list A) :
  find p l = None -> filter p l = [].
Proof.
  induction l as [| y l IH]; simpl; [ reflexivity | ].
  destruct (p y); [ discriminate | exact IH ].
Qed.

End Documents.

(* ================================================================== *)
(** ** The stored log only grows by durable messages *)

Lemma log_extended_refl s : log_extended s s.
Proof.
  split; [ reflexivity | ].
  exists []. split; [ symmetry; apply app_nil_r | constructor ].
Qed.

Lemma log_extended_same_log s s' :
  session_id s' = session_id s -> messages s' = messages s -> log_extended s s'.
Proof.
  intros Hid Hm. split; [ exact Hid | ].
  exists []. split; [ rewrite Hm; symmetry; apply app_nil_r | constructor ].
Qed.

Lemma log_extended_trans a b c :
  log_extended a b -> log_extended b c -> log_extended a c.
Proof.
  intros [Hid1 [x [Hx Dx]]] [Hid2 [y [Hy Dy]]].
  split; [ congruence | ].
  exists (x ++ y)%list. split.
  - rewrite Hy, Hx, app_assoc. reflexivity.
  - apply Forall_app; auto.
Qed.

Lemma log_extended_durable a b :
  Forall durable (messages a) -> log_extended a b -> Forall durable (messages b).
Proof.
  intros Ha [_ [x [Hx Dx]]]. rewrite Hx. apply Forall_app; auto.
Qed.

Lemma logs_durable_refl w : logs_durable w w.
Proof.
  exists (interview_sessions w), [].
  split; [ symmetry; apply app_nil_r | ].
  split; [ apply Forall2_diag, log_extended_refl | constructor ].
Qed.

Lemma logs_durable_trans a b c :
  logs_durable a b -> logs_durable b c -> logs_durable a c.
Proof.
  intros [l1 [n1 [E1 [F1 D1]]]] [l2 [n2 [E2 [F2 D2]]]].
  rewrite E1 in F2. apply Forall2_app_inv_l in F2.
  destruct F2 as [l2a [l2b [Fa [Fb E]]]]. subst l2.
  exists l2a, (l2b ++ n2)%list.
  split; [ rewrite E2, app_assoc; reflexivity | ].
  split.
  - eapply Forall2_compose; [ apply log_extended_trans | exact F1 | exact Fa ].
  - apply Forall_app; split; [ | exact D2 ].
    eapply Forall2_Forall_r; [ | exact Fb | exact D1 ].
    intros x y Hx Hxy. eapply log_extended_durable; eauto.
Qed.

(** A write that rewrites one session and keeps its log growing. *)
Lemma logs_durable_update w p f :
  (forall s, log_extended s (f s)) ->
  logs_durable w (with_interview_sessions (update_one p f) w).
Proof.
  intro H. exists (update_one p f (interview_sessions w)), [].
  split; [ symmetry; apply app_nil_r | ].
  split; [ | constructor ].
  apply Forall2_update_one; [ apply log_extended_refl | intros; apply H ].
Qed.

Lemma logs_durable_sessions_eq w w' :
  interview_sessions w' = interview_sessions w -> logs_durable w w'.
Proof.
  intro E. unfold logs_durable. rewrite E.
  exact (logs_durable_refl w).
Qed.

(** Every operation leaves the stored logs extended by durable messages. *)
Lemma run_logs_durable env op w : logs_durable w (run env op w).
Proof.
  apply (rel_run env logs_durable (fun _ _ => True));
    try (intros; apply logs_durable_sessions_eq; reflexivity);
    try exact logs_durable_refl; try exact logs_durable_trans; auto.
  - intros w0 sid msg now Hd. apply logs_durable_update.
    intro s. split; [ reflexivity | ].
    exists [msg]. split; [ reflexivity | constructor; [ exact Hd | constructor ] ].
  - intros. apply logs_durable_update. intro s.
    apply log_extended_same_log; reflexivity.
  - intros. apply logs_durable_update. intro s.
    apply log_extended_same_log; reflexivity.
  - intros w0 oid c p pf ch cr up.
    exists (interview_sessions w0), [new_session oid c p pf ch cr up].
    split; [ reflexivity | ].
    split; [ apply Forall2_diag, log_extended_refl | ].
    constructor; [ constructor | constructor ].
Qed.

(* ================================================================== *)
(** ** The call log *)

Section CallLog.

Variable allowed : InteractionType -> ChatRequest -> Prop.

Lemma log_grows_refl w : log_grows allowed w w.
Proof. exists []. split; [ symmetry; apply app_nil_r | constructor ]. Qed.

Lemma log_grows_trans a b c :
  log_grows allowed a b -> log_grows allowed b c -> log_grows allowed a c.
Proof.
  intros [x [Hx Px]] [y [Hy Py]]. exists (x ++ y)%list. split.
  - rewrite Hy, Hx, app_assoc. reflexivity.
  - apply Forall_app; auto.
Qed.

Lemma log_grows_same w w' : llm_calls w' = llm_calls w -> log_grows allowed w w'.
Proof. intro E. exists []. split; [ rewrite E, app_nil_r; reflexivity | constructor ]. Qed.

Lemma log_grows_call w k req out :
  allowed k req ->
  log_grows allowed w (with_llm_calls (fun l => (l ++ [(k, req, out)])%list) w).
Proof.
  intro H. exists [(k, req, out)]. split; [ reflexivity | ].
  constructor; [ exact H | constructor ].
Qed.

End CallLog.

(** Discharges the framing conditions of a call-log relation. *)
Ltac log_frame :=
  first [ exact (log_grows_refl _)
        | exact (log_grows_trans _)
        | intros; apply log_grows_same; reflexivity
        | intros; apply log_grows_call; assumption ].

Lemma with_tools_chat msgs : with_tools Chat (chat_request msgs).
Proof. intro; reflexivity. Qed.

Lemma with_tools_tool_response msgs :
  with_tools ChatToolResponse (tool_response_request msgs).
Proof. intro; reflexivity. Qed.

Lemma with_tools_greeting req : with_tools Greeting req.
Proof. intros [H | H]; discriminate. Qed.

Lemma with_tools_scoring req : with_tools Scoring req.
Proof. intros [H | H]; discriminate. Qed.

(** Every conversational call of a turn carries the tool schema. *)
Lemma process_message_log_tools env sid text :
  rel (log_grows with_tools) (process_message env sid text).
Proof.
  apply (rel_process_message env (log_grows with_tools) with_tools);
    try log_frame.
  - exact with_tools_scoring.
  - exact with_tools_chat.
  - exact with_tools_tool_response.
Qed.

Lemma run_log_tools env op w : log_grows with_tools w (run env op w).
Proof.
  apply (rel_run env (log_grows with_tools) with_tools); try log_frame.
  - exact with_tools_greeting.
  - exact with_tools_scoring.
  - exact with_tools_chat.
  - exact with_tools_tool_response.
Qed.

Lemma run_tool_calls_log env s calls msgs :
  rel (log_grows scoring_only) (run_tool_calls env s calls msgs).
Proof.
  apply (rel_run_tool_calls env (log_grows scoring_only) scoring_only);
    try log_frame.
  intro; reflexivity.
Qed.

Lemma same_log_trans a b c : same_log a b -> same_log b c -> same_log a c.
Proof. unfold same_log; congruence. Qed.

Lemma log_usage_same_log env r cid k :
  rel same_log (log_usage_if_present env r cid k).
Proof.
  apply (rel_log_usage_if_present env same_log);
    first [ exact same_log_trans | intros; reflexivity ].
Qed.

Lemma push_message_same_log sid msg :
  durable msg -> rel same_log (push_message sid msg).
Proof.
  apply (rel_push_message same_log);
    first [ exact same_log_trans | intros; reflexivity ].
Qed.

(* ================================================================== *)
(** ** Quiet steps and engine steps *)

Lemma keeps_refl s : keeps s s.
Proof.
  repeat split. exists []. split; [ symmetry; apply app_nil_r | constructor ].
Qed.

Lemma keeps_trans a b c : keeps a b -> keeps b c -> keeps a c.
Proof.
  intros [I1 [C1 [S1 [x [Hx Dx]]]]] [I2 [C2 [S2 [y [Hy Dy]]]]].
  repeat split; try congruence.
  exists (x ++ y)%list. split.
  - rewrite Hy, Hx, app_assoc. reflexivity.
  - apply Forall_app; auto.
Qed.

Lemma keeps_evolves a b : keeps a b -> evolves a b.
Proof.
  intros [I [C [S X]]]. repeat split; auto. left; exact S.
Qed.

Lemma status_step_trans a b c : status_step a b -> status_step b c -> status_step a c.
Proof.
  intros [H1 | [H1 H1']] [H2 | [H2 H2']]; subst.
  - left; reflexivity.
  - right; auto.
  - right; auto.
  - destruct H1'; subst; discriminate.
Qed.

Lemma evolves_refl s : evolves s s.
Proof. apply keeps_evolves, keeps_refl. Qed.

Lemma evolves_trans a b c : evolves a b -> evolves b c -> evolves a c.
Proof.
  intros [I1 [C1 [S1 [x [Hx Dx]]]]] [I2 [C2 [S2 [y [Hy Dy]]]]].
  repeat split; try congruence.
  - eapply status_step_trans; eauto.
  - exists (x ++ y)%list. split.
    + rewrite Hy, Hx, app_assoc. reflexivity.
    + apply Forall_app; auto.
Qed.

Lemma status_step_valid a b : valid_status a -> status_step a b -> valid_status b.
Proof.
  intros Ha [H | [_ [H | H]]]; subst; auto; unfold valid_status; auto.
Qed.

Lemma evolves_born a b : born a -> evolves a b -> born b.
Proof.
  intros [Va Da] [_ [_ [S [x [Hx Dx]]]]]. split.
  - eapply status_step_valid; eauto.
  - rewrite Hx. apply Forall_app; auto.
Qed.

(** An evolved session is active for a candidate only if it was before. *)
Lemma evolves_active cid a b :
  evolves a b -> is_active_for cid b = true -> is_active_for cid a = true.
Proof.
  intros [_ [C [S _]]]. unfold is_active_for. rewrite C.
  intro H. apply andb_true_iff in H. destruct H as [Hc Hs].
  apply andb_true_iff. split; [ exact Hc | ].
  apply String.eqb_eq in Hs. apply String.eqb_eq.
  destruct S as [S | [S _]]; congruence.
Qed.

Lemma active_count_evolves cid l l' :
  Forall2 evolves l l' -> active_count cid l' <= active_count cid l.
Proof.
  unfold active_count. induction 1 as [| a b l l' Hab _ IH]; simpl; [ lia | ].
  destruct (is_active_for cid b) eqn:Eb.
  - rewrite (evolves_active cid a b Hab Eb). simpl. lia.
  - destruct (is_active_for cid a); simpl; lia.
Qed.

Lemma active_count_app cid l l' :
  active_count cid (l ++ l') = active_count cid l + active_count cid l'.
Proof. unfold active_count. rewrite filter_app, length_app. reflexivity. Qed.

Lemma ids_keeps l l' : Forall2 keeps l l' -> map session_id l' = map session_id l.
Proof.
  induction 1 as [| a b l l' Hab _ IH]; simpl; [ reflexivity | ].
  destruct Hab as [I _]. rewrite I, IH. reflexivity.
Qed.

Lemma ids_evolves l l' : Forall2 evolves l l' -> map session_id l' = map session_id l.
Proof.
  induction 1 as [| a b l l' Hab _ IH]; simpl; [ reflexivity | ].
  destruct Hab as [I _]. rewrite I, IH. reflexivity.
Qed.

Lemma Forall_ids_bound (n : nat) (l : list InterviewSession) :
  Forall (fun s => session_id s < n) l <-> Forall (fun i => i < n) (map session_id l).
Proof. rewrite Forall_map. reflexivity. Qed.

(** Well-formed ids depend on the ids and the counter only. *)
Lemma ids_wf_same_ids w w' :
  map session_id (interview_sessions w') = map session_id (interview_sessions w) ->
  next_oid w <= next_oid w' -> ids_wf w -> ids_wf w'.
Proof.
  intros E Hn [Hd Hb]. split.
  - rewrite E. exact Hd.
  - apply Forall_ids_bound. rewrite E.
    apply Forall_ids_bound in Hb.
    eapply Forall_impl; [ | exact Hb ]. simpl. intros; lia.
Qed.

(** *** Traces of writes *)

Section Traces.

Variable R : list InterviewSession -> list InterviewSession -> Prop.

Lemma last_cons (x a b : list InterviewSession) hs :
  List.last (x :: hs) a = List.last (x :: hs) b.
Proof.
  revert x. induction hs as [| y hs IH]; intro x; [ reflexivity | ].
  change (List.last (x :: y :: hs) a) with (List.last (y :: hs) a).
  change (List.last (x :: y :: hs) b) with (List.last (y :: hs) b).
  apply IH.
Qed.

Lemma last_step (x a : list InterviewSession) hs :
  List.last (x :: hs) a = List.last hs x.
Proof.
  destruct hs as [| y hs]; [ reflexivity | ].
  change (List.last (x :: y :: hs) a) with (List.last (y :: hs) a).
  apply last_cons.
Qed.

Lemma chain_app a h1 h2 :
  chain R a h1 -> chain R (List.last h1 a) h2 -> chain R a (h1 ++ h2).
Proof.
  revert a. induction h1 as [| h h1 IH]; intros a Hc H2; [ exact H2 | ].
  change (R a h /\ chain R h h1) in Hc. destruct Hc as [Hh Hc].
  rewrite last_step in H2.
  change (R a h /\ chain R h (h1 ++ h2)).
  split; [ exact Hh | apply IH; assumption ].
Qed.

Lemma last_app_last (a : list InterviewSession) h1 h2 :
  List.last (h1 ++ h2) a = List.last h2 (List.last h1 a).
Proof.
  revert a. induction h1 as [| h h1 IH]; intros a; [ reflexivity | ].
  change ((h :: h1) ++ h2)%list with (h :: (h1 ++ h2))%list.
  rewrite !last_step. apply IH.
Qed.

Lemma traced_refl w : traced R w w.
Proof.
  exists []. split; [ symmetry; apply app_nil_r | ]. split; [ exact I | reflexivity ].
Qed.

Lemma traced_trans a b c : traced R a b -> traced R b c -> traced R a c.
Proof.
  intros [h1 [E1 [C1 L1]]] [h2 [E2 [C2 L2]]].
  exists (h1 ++ h2)%list. split; [ rewrite E2, E1, app_assoc; reflexivity | ].
  split.
  - apply chain_app; [ exact C1 | rewrite <- L1; exact C2 ].
  - rewrite last_app_last, <- L1. exact L2.
Qed.

Lemma traced_same w w' :
  session_history w' = session_history w ->
  interview_sessions w' = interview_sessions w -> traced R w w'.
Proof.
  intros Eh Es. exists []. split; [ rewrite Eh, app_nil_r; reflexivity | ].
  split; [ exact I | exact Es ].
Qed.

(** One write, possibly after steps that left the sessions alone. *)
Lemma traced_write w w1 f :
  session_history w1 = session_history w ->
  interview_sessions w1 = interview_sessions w ->
  R (interview_sessions w) (f (interview_sessions w)) ->
  traced R w (with_interview_sessions f w1).
Proof.
  intros Eh Es Hr. exists [f (interview_sessions w)]. simpl. rewrite Eh, Es.
  split; [ reflexivity | ]. split; [ split; [ exact Hr | exact I ] | reflexivity ].
Qed.

End Traces.

Lemma chain_impl (R R' : list InterviewSession -> list InterviewSession -> Prop) a hs :
  (forall x y, R x y -> R' x y) -> chain R a hs -> chain R' a hs.
Proof.
  intro H. revert a. induction hs as [| h hs IH]; intros a; simpl; [ auto | ].
  intros [Hh Hc]. split; [ apply H, Hh | apply IH, Hc ].
Qed.

Lemma traced_impl (R R' : list InterviewSession -> list InterviewSession -> Prop) w w' :
  (forall x y, R x y -> R' x y) -> traced R w w' -> traced R' w w'.
Proof.
  intros H [hs [E [C L]]]. exists hs. split; [ exact E | ].
  split; [ eapply chain_impl; eauto | exact L ].
Qed.

Lemma keeps_all_trans a b c :
  Forall2 keeps a b -> Forall2 keeps b c -> Forall2 keeps a c.
Proof. apply Forall2_compose, keeps_trans. Qed.

Lemma quiet_refl w : quiet w w.
Proof.
  split; [ apply Forall2_diag, keeps_refl | ].
  split; [ lia | ]. split; [ apply log_grows_refl | apply traced_refl ].
Qed.

Lemma quiet_trans a b c : quiet a b -> quiet b c -> quiet a c.
Proof.
  intros [F1 [N1 [L1 T1]]] [F2 [N2 [L2 T2]]].
  split; [ eapply keeps_all_trans; eauto | ].
  split; [ lia | ].
  split; [ eapply log_grows_trans; eauto | eapply traced_trans; eauto ].
Qed.

Lemma quiet_same w w' :
  interview_sessions w' = interview_sessions w -> next_oid w <= next_oid w' ->
  llm_calls w' = llm_calls w -> session_history w' = session_history w ->
  quiet w w'.
Proof.
  intros Es Hn El Eh. split; [ rewrite Es; apply Forall2_diag, keeps_refl | ].
  split; [ exact Hn | ].
  split; [ apply log_grows_same, El | apply traced_same; assumption ].
Qed.

Lemma quiet_push w sid msg now :
  durable msg ->
  quiet w (with_interview_sessions
             (update_one (fun s => Nat.eqb (session_id s) sid) (push_message_doc msg now)) w).
Proof.
  intro Hd.
  assert (F : Forall2 keeps (interview_sessions w)
                (update_one (fun s => Nat.eqb (session_id s) sid)
                   (push_message_doc msg now) (interview_sessions w))).
  { apply Forall2_update_one; [ apply keeps_refl | ].
    intros s _. repeat split.
    exists [msg]. split; [ reflexivity | constructor; [ exact Hd | constructor ] ]. }
  split; [ exact F | ].
  split; [ simpl; lia | ].
  split; [ apply log_grows_same; reflexivity | ].
  apply traced_write; [ reflexivity | reflexivity | exact F ].
Qed.

Lemma quiet_call w k req out :
  with_tools k req ->
  quiet w (with_llm_calls (fun l => (l ++ [(k, req, out)])%list) w).
Proof.
  intro H. split; [ apply Forall2_diag, keeps_refl | ].
  split; [ simpl; lia | ].
  split; [ apply log_grows_call, H | apply traced_same; reflexivity ].
Qed.

(** Discharges the framing conditions of [quiet]. *)
Ltac quiet_frame :=
  first [ exact quiet_refl
        | exact quiet_trans
        | exact quiet_push
        | exact quiet_call
        | exact with_tools_greeting
        | exact with_tools_scoring
        | exact with_tools_chat
        | exact with_tools_tool_response
        | intros; apply quiet_same; simpl; first [ reflexivity | lia ] ].

Lemma sessions_ext_refl l : sessions_ext l l.
Proof.
  exists l, []. split; [ symmetry; apply app_nil_r | ].
  split; [ apply Forall2_diag, evolves_refl | constructor ].
Qed.

Lemma sessions_ext_trans a b c :
  sessions_ext a b -> sessions_ext b c -> sessions_ext a c.
Proof.
  intros [l1 [n1 [E1 [F1 D1]]]] [l2 [n2 [E2 [F2 D2]]]].
  rewrite E1 in F2. apply Forall2_app_inv_l in F2.
  destruct F2 as [l2a [l2b [Fa [Fb E]]]]. subst l2.
  exists l2a, (l2b ++ n2)%list.
  split; [ rewrite E2, app_assoc; reflexivity | ].
  split.
  - eapply Forall2_compose; [ apply evolves_trans | exact F1 | exact Fa ].
  - apply Forall_app; split; [ | exact D2 ].
    eapply Forall2_Forall_r; [ | exact Fb | exact D1 ].
    intros x y Hx Hxy. eapply evolves_born; eauto.
Qed.

Lemma keeps_store_step l l' : Forall2 keeps l l' -> store_step l l'.
Proof.
  intro F.
  assert (Fe : Forall2 evolves l l').
  { eapply Forall2_impl; [ | exact F ]. apply keeps_evolves. }
  split.
  - exists l', []. split; [ symmetry; apply app_nil_r | ].
    split; [ exact Fe | constructor ].
  - intro cid. pose proof (active_count_evolves cid _ _ Fe). lia.
Qed.

Lemma ext_refl w : ext w w.
Proof.
  split; [ apply sessions_ext_refl | ].
  split; [ intro; lia | ].
  split; [ auto | ]. split; [ apply log_grows_refl | apply traced_refl ].
Qed.

Lemma ext_trans a b c : ext a b -> ext b c -> ext a c.
Proof.
  intros [S1 [K1 [W1 [L1 T1]]]] [S2 [K2 [W2 [L2 T2]]]].
  split; [ eapply sessions_ext_trans; eauto | ].
  split; [ intro cid; specialize (K1 cid); specialize (K2 cid); lia | ].
  split; [ auto | ].
  split; [ eapply log_grows_trans; eauto | eapply traced_trans; eauto ].
Qed.

Lemma quiet_ext w w' : quiet w w' -> ext w w'.
Proof.
  intros [F [N [L T]]].
  destruct (keeps_store_step _ _ F) as [Hs Hk].
  split; [ exact Hs | ]. split; [ exact Hk | ]. split; [ | split ].
  - apply ids_wf_same_ids; [ apply ids_keeps, F | exact N ].
  - exact L.
  - eapply traced_impl; [ apply keeps_store_step | exact T ].
Qed.

(** The first match of [update_one] is the document [find] returns. *)
Lemma Forall2_update_found {A : Type} (P : A -> A -> Prop) (p : A -> bool) (f : A -> A)
    (l : list A) (d : A) :
  (forall x, P x x) -> find p l = Some d -> P d (f d) ->
  Forall2 P l (update_one p f l).
Proof.
  intros Hrefl Hfind Hd. induction l as [| x l IH]; simpl in *; [ discriminate | ].
  destruct (p x).
  - inversion Hfind; subst. constructor; [ exact Hd | apply Forall2_diag, Hrefl ].
  - constructor; [ apply Hrefl | apply IH, Hfind ].
Qed.

(** Closing the active session [sid] (completing or abandoning it) is an
    engine step. *)
Lemma ext_close w sid f d :
  same_core f ->
  (forall s, status (f s) = "completed" \/ status (f s) = "abandoned") ->
  find (fun s => Nat.eqb (session_id s) sid) (interview_sessions w) = Some d ->
  status d = "active" ->
  ext w (with_interview_sessions (update_one (fun s => Nat.eqb (session_id s) sid) f) w).
Proof.
  intros Hcore Hst Hfind Hact.
  assert (Fe : Forall2 evolves (interview_sessions w)
                 (update_one (fun s => Nat.eqb (session_id s) sid) f (interview_sessions w))).
  { eapply Forall2_update_found; [ apply evolves_refl | exact Hfind | ].
    destruct (Hcore d) as [I [C Ms]]. repeat split; auto.
    - right. split; [ exact Hact | apply Hst ].
    - exists []. split; [ rewrite Ms; symmetry; apply app_nil_r | constructor ]. }
  assert (Hstep : store_step (interview_sessions w)
                    (update_one (fun s => Nat.eqb (session_id s) sid) f
                       (interview_sessions w))).
  { split.
    - eexists _, []. split; [ symmetry; apply app_nil_r | ].
      split; [ exact Fe | constructor ].
    - intro cid. pose proof (active_count_evolves cid _ _ Fe). lia. }
  destruct Hstep as [Hs Hk].
  split; [ exact Hs | ]. split; [ exact Hk | ]. split; [ | split ].
  - apply ids_wf_same_ids; [ apply ids_evolves, Fe | simpl; lia ].
  - apply log_grows_same; reflexivity.
  - apply traced_write; [ reflexivity | reflexivity | split; assumption ].
Qed.

Lemma same_core_complete sc total now : same_core (complete_doc sc total now).
Proof. intro s; repeat split. Qed.

Lemma same_core_abandon : same_core (set_status_doc "abandoned").
Proof. intro s; repeat split. Qed.

Lemma find_active_count_zero cid l :
  find (is_active_for cid) l = None -> active_count cid l = 0.
Proof. intro H. unfold active_count. rewrite (find_none_filter _ _ H). reflexivity. Qed.

Lemma is_active_for_candidate cid s :
  is_active_for cid s = true -> candidate_id s = cid /\ status s = "active".
Proof.
  unfold is_active_for. intro H. apply andb_true_iff in H. destruct H as [Hc Hs].
  split; [ apply Nat.eqb_eq, Hc | apply String.eqb_eq, Hs ].
Qed.

Lemma NoDup_snoc {A : Type} (l : list A) (x : A) :
  NoDup l -> ~ In x l -> NoDup (l ++ [x]).
Proof.
  induction l as [| y l IH]; simpl; intros Hd Hx.
  - constructor; [ intros [] | constructor ].
  - inversion Hd; subst. constructor.
    + rewrite in_app_iff. intros [H | [H | []]]; [ contradiction | ].
      apply Hx. left. symmetry. exact H.
    + apply IH; [ assumption | ]. intro H. apply Hx. right. exact H.
Qed.

(** Adding a fresh active session for a candidate that has none. *)
Lemma ext_insert w oid c p pf ch cr up w1 :
  find (is_active_for c) (interview_sessions w) = None ->
  interview_sessions w1 = interview_sessions w ->
  session_history w1 = session_history w ->
  llm_calls w1 = llm_calls w ->
  oid = next_oid w -> next_oid w1 = S oid ->
  ext w (with_interview_sessions
           (fun l => (l ++ [new_session oid c p pf ch cr up])%list) w1).
Proof.
  intros Hnone Es Eh El Hoid Hn.
  assert (Hstep : store_step (interview_sessions w)
                    (interview_sessions w ++ [new_session oid c p pf ch cr up])).
  { split.
    - exists (interview_sessions w), [new_session oid c p pf ch cr up].
      split; [ reflexivity | ].
      split; [ apply Forall2_diag, evolves_refl | ].
      constructor; [ | constructor ].
      split; [ left; reflexivity | constructor ].
    - intro cid. rewrite active_count_app.
      unfold active_count at 2. simpl.
      destruct (is_active_for cid (new_session oid c p pf ch cr up)) eqn:E; simpl;
        [ | lia ].
      apply is_active_for_candidate in E. destruct E as [E _]. simpl in E. subst cid.
      rewrite (find_active_count_zero _ _ Hnone). lia. }
  split; [ | split; [ | split; [ | split ] ] ].
  - simpl. rewrite Es. apply Hstep.
  - simpl. rewrite Es. apply Hstep.
  - intros [Hd Hb]. split; simpl; rewrite Es.
    + rewrite map_app. simpl. apply NoDup_snoc; [ exact Hd | ].
      intro Hin. apply in_map_iff in Hin. destruct Hin as [s [Hs Hin]].
      rewrite Forall_forall in Hb. specialize (Hb s Hin). lia.
    + apply Forall_app. split.
      * eapply Forall_impl; [ | exact Hb ]. simpl. intros; lia.
      * constructor; [ simpl; lia | constructor ].
  - apply log_grows_same. exact El.
  - apply traced_write; [ exact Eh | exact Es | exact Hstep ].
Qed.

(* ================================================================== *)
(** ** The service blocks as quiet steps *)

Lemma quiet_bind {A B : Type} (m : M A) (f : A -> M B) :
  rel quiet m -> (forall a, rel quiet (f a)) -> rel quiet (bind m f).
Proof. apply rel_bind, quiet_trans. Qed.

Lemma quiet_try {A : Type} (m : M A) (h : Exc -> M A) :
  rel quiet m -> (forall e, rel quiet (h e)) -> rel quiet (try_except m h).
Proof. apply rel_try, quiet_trans. Qed.

Lemma quiet_ret {A : Type} (a : A) : rel quiet (ret a).
Proof. intro w; apply quiet_refl. Qed.

Lemma quiet_utcnow : rel quiet utcnow.
Proof. intro w. apply quiet_same; simpl; first [ reflexivity | lia ]. Qed.

Lemma quiet_push_message sid msg : durable msg -> rel quiet (push_message sid msg).
Proof. apply (rel_push_message quiet); quiet_frame. Qed.

Lemma quiet_log_usage env r cid k : rel quiet (log_usage_if_present env r cid k).
Proof. apply (rel_log_usage_if_present env quiet); quiet_frame. Qed.

Lemma quiet_get_system_prompt pid : rel quiet (get_system_prompt pid).
Proof. apply (rel_get_system_prompt quiet); quiet_frame. Qed.

Lemma quiet_greeting env s : rel quiet (_generate_initial_greeting env s).
Proof. apply (rel_generate_initial_greeting env quiet with_tools); quiet_frame. Qed.

Lemma quiet_evaluate env s : rel quiet (evaluate_interview env s).
Proof. apply (rel_evaluate_interview env quiet with_tools); quiet_frame. Qed.

Lemma quiet_airtable_sync env s total summary :
  rel quiet (airtable_sync env s total summary).
Proof. apply (rel_airtable_sync env quiet); quiet_frame. Qed.

Lemma quiet_send_message ch text : rel quiet (send_message ch text).
Proof. apply (rel_send_message quiet); quiet_frame. Qed.

Lemma quiet_find_or_create_candidate pid ch f l :
  rel quiet (find_or_create_candidate pid ch f l).
Proof. apply (rel_find_or_create_candidate quiet); quiet_frame. Qed.

Lemma quiet_auto_configure pid st org :
  rel quiet (routers.auto_configure_interview_agent pid st org).
Proof. apply (rel_auto_configure quiet); quiet_frame. Qed.

Lemma quiet_chat_call env msgs :
  rel quiet (chat_completions_create env Chat (chat_request msgs)).
Proof.
  apply (rel_chat_completions_create env quiet with_tools); try quiet_frame.
  apply with_tools_chat.
Qed.

Lemma quiet_tool_response_call env msgs :
  rel quiet (chat_completions_create env ChatToolResponse (tool_response_request msgs)).
Proof.
  apply (rel_chat_completions_create env quiet with_tools); try quiet_frame.
  apply with_tools_tool_response.
Qed.

(** *** Sessions found by id across quiet steps *)

Lemma find_keeps sid l l' d :
  Forall2 keeps l l' -> find (by_id sid) l = Some d ->
  exists d', find (by_id sid) l' = Some d' /\ keeps d d'.
Proof.
  induction 1 as [| a b l l' Hab _ IH]; simpl; [ discriminate | ].
  unfold by_id in *. destruct Hab as [I Hab]. rewrite I.
  destruct (Nat.eqb (session_id a) sid).
  - intro E; inversion E; subst. exists b. split; [ reflexivity | ].
    split; assumption.
  - exact IH.
Qed.

Lemma quiet_active sid w w' : quiet w w' -> active_at sid w -> active_at sid w'.
Proof.
  intros [F _] [d [Hd Ha]].
  destruct (find_keeps sid _ _ d F Hd) as [d' [Hd' [_ [_ [S _]]]]].
  exists d'. split; [ exact Hd' | congruence ].
Qed.

(** With unique ids, a stored session is the one its id finds. *)
Lemma find_by_id_unique (l : list InterviewSession) (x : InterviewSession) :
  NoDup (map session_id l) -> In x l -> find (by_id (session_id x)) l = Some x.
Proof.
  induction l as [| y l IH]; simpl; [ intros _ [] | ].
  intros Hd Hin. inversion Hd as [| ? ? Hny Hd']; subst.
  unfold by_id at 1. destruct (Nat.eqb (session_id y) (session_id x)) eqn:E.
  - destruct Hin as [-> | Hin]; [ reflexivity | ].
    apply Nat.eqb_eq in E. exfalso. apply Hny. rewrite E.
    apply in_map, Hin.
  - destruct Hin as [-> | Hin]; [ rewrite Nat.eqb_refl in E; discriminate | ].
    apply IH; assumption.
Qed.

(** *** Composition of steps that depend on the world in between *)

Lemma ext_after_quiet {A B : Type} (m : M A) (f : A -> M B) w :
  quiet w (snd (m w)) ->
  (forall a w1, m w = (Ok a, w1) -> quiet w w1 -> ext w1 (snd (f a w1))) ->
  ext w (snd (bind m f w)).
Proof.
  intros Hm Hf. unfold bind. destruct (m w) as [[a | e] w1] eqn:E; simpl in *.
  - eapply ext_trans; [ apply quiet_ext, Hm | apply (Hf a w1 eq_refl Hm) ].
  - apply quiet_ext, Hm.
Qed.

Lemma ext_after_ext {A B : Type} (m : M A) (f : A -> M B) w :
  ext w (snd (m w)) ->
  (forall a w1, m w = (Ok a, w1) -> ext w1 (snd (f a w1))) ->
  ext w (snd (bind m f w)).
Proof.
  intros Hm Hf. unfold bind. destruct (m w) as [[a | e] w1] eqn:E; simpl in *.
  - eapply ext_trans; [ exact Hm | apply (Hf a w1 eq_refl) ].
  - exact Hm.
Qed.

Lemma ext_try {A : Type} (m : M A) (h : Exc -> M A) w :
  ext w (snd (m w)) -> (forall e, rel quiet (h e)) -> ext w (snd (try_except m h w)).
Proof.
  intros Hm Hh. unfold try_except. destruct (m w) as [[a | e] w1]; simpl in *.
  - exact Hm.
  - eapply ext_trans; [ exact Hm | apply quiet_ext, Hh ].
Qed.

(* ================================================================== *)
(** ** The turn processor and the session manager as engine steps *)

Lemma complete_interview_ext env s w :
  active_at (session_id s) w -> ext w (snd (complete_interview env s w)).
Proof.
  intro Ha. unfold complete_interview.
  apply ext_after_quiet; [ apply quiet_evaluate | ].
  intros v w1 _ Hq1. pose proof (quiet_active _ _ _ Hq1 Ha) as Ha1.
  destruct v; try apply ext_refl.
  apply ext_after_quiet; [ apply quiet_utcnow | ].
  intros now w2 _ Hq2. destruct (quiet_active _ _ _ Hq2 Ha1) as [d [Hd Hs]].
  apply ext_after_ext.
  - apply (ext_close w2 (session_id s) _ d);
      [ apply same_core_complete | intro; left; reflexivity | exact Hd | exact Hs ].
  - intros _ w3 _. apply quiet_ext.
    apply quiet_bind; [ apply quiet_utcnow | intro ].
    apply quiet_bind; [ intro w4; apply quiet_same; reflexivity | intro ].
    apply quiet_try; [ apply quiet_airtable_sync | intro; apply quiet_ret ].
Qed.

Lemma loads_world env text w : snd (loads env text w) = w.
Proof. unfold loads. destruct (json_loads env text); reflexivity. Qed.

Lemma run_tool_calls_ext env s calls :
  forall msgs w,
    active_at (session_id s) w -> ext w (snd (run_tool_calls env s calls msgs w)).
Proof.
  induction calls as [| tc calls IH]; intros msgs w Ha; simpl.
  - apply ext_refl.
  - unfold bind at 1. pose proof (loads_world env (tc_arguments tc) w) as Hl.
    destruct (loads env (tc_arguments tc) w) as [[args | e] w1]; simpl in Hl; subst w1;
      [ | apply ext_refl ].
    destruct (String.eqb (tc_name tc) "end_interview").
    + apply ext_after_ext; [ apply complete_interview_ext, Ha | ].
      intros; apply ext_refl.
    + destruct (String.eqb (tc_name tc) "Retrieve_messages1");
        [ apply (IH _ w Ha) | ].
      destruct (String.eqb (tc_name tc) "User_Info1"); [ | apply (IH _ w Ha) ].
      destruct args; first [ apply (IH _ w Ha) | apply ext_refl ].
Qed.

(** What is left of a turn once the model has answered, on either branch. *)
Lemma quiet_reply sid (text : option string) (fallback : string) (e : Exc) :
  rel quiet
    (match text with
     | Some t =>
         if String.eqb t "" then ret fallback
         else push_message sid (assistant_message t) ;;; ret t
     | None => raise e
     end).
Proof.
  destruct text as [t | ]; [ | intro w; apply quiet_refl ].
  destruct (String.eqb t ""); [ apply quiet_ret | ].
  apply quiet_bind; [ apply quiet_push_message, durable_assistant | intro ].
  apply quiet_ret.
Qed.

Lemma turn_ext env sid s msgs w :
  active_at (session_id s) w -> ext w (snd (turn env sid s msgs w)).
Proof.
  intro Ha. unfold turn.
  apply ext_after_quiet; [ apply quiet_chat_call | ].
  intros r w1 _ Hq1. pose proof (quiet_active _ _ _ Hq1 Ha) as Ha1.
  apply ext_after_quiet; [ apply quiet_log_usage | ].
  intros _ w2 _ Hq2. pose proof (quiet_active _ _ _ Hq2 Ha1) as Ha2.
  destruct (ai_tool_calls r) as [| tc tcs].
  - apply quiet_ext. apply quiet_reply.
  - apply ext_after_ext; [ apply run_tool_calls_ext, Ha2 | ].
    intros out w3 _. destruct out as [reply | msgs']; [ apply ext_refl | ].
    apply quiet_ext.
    apply quiet_bind; [ apply quiet_tool_response_call | intro r2 ].
    apply quiet_bind; [ apply quiet_log_usage | intro ].
    destruct (ai_content r2) as [t | ]; [ | apply quiet_ret ].
    destruct (String.eqb t ""); [ apply quiet_ret | ].
    apply quiet_bind; [ apply quiet_push_message, durable_assistant | intro ].
    apply quiet_ret.
Qed.

Lemma find_by_id_id sid l d :
  find (by_id sid) l = Some d -> session_id d = sid.
Proof.
  intro H. apply find_some in H. destruct H as [_ H]. apply Nat.eqb_eq, H.
Qed.

(** A loaded session that is not completed is active. *)
Lemma loaded_active st :
  status_literal st = true -> String.eqb st "completed" = false -> st = "active".
Proof.
  unfold status_literal. intros H Hc. rewrite Hc, orb_false_r in H.
  apply String.eqb_eq, H.
Qed.

Lemma process_message_ext env sid text w :
  ext w (snd (process_message env sid text w)).
Proof.
  unfold process_message, find_session.
  unfold bind at 1, gets at 1.
  destruct (find (fun s => Nat.eqb (session_id s) sid) (interview_sessions w))
    as [d | ] eqn:Hfind; [ | apply ext_refl ].
  unfold InterviewSession_of_doc.
  destruct (status_literal (status d) && scores_valid (scores d)
            && pydantic_int env (total_score d)) eqn:Hv; [ | apply ext_refl ].
  unfold bind at 1, ret at 1.
  destruct (String.eqb (status d) "completed") eqn:Hc; [ apply ext_refl | ].
  assert (Ha : active_at (session_id d) w).
  { exists d. rewrite (find_by_id_id sid _ _ Hfind). split; [ exact Hfind | ].
    apply loaded_active; [ | exact Hc ].
    apply andb_true_iff in Hv. destruct Hv as [Hv _].
    apply andb_true_iff in Hv. destruct Hv as [Hv _]. exact Hv. }
  apply ext_after_quiet; [ apply quiet_get_system_prompt | ].
  intros prompt w1 _ Hq1. pose proof (quiet_active _ _ _ Hq1 Ha) as Ha1.
  apply ext_after_quiet; [ apply quiet_push_message, durable_user | ].
  intros _ w2 _ Hq2. pose proof (quiet_active _ _ _ Hq2 Ha1) as Ha2.
  apply ext_try; [ apply turn_ext, Ha2 | intro; apply quiet_ret ].
Qed.

Lemma session_of_doc_cases env d w :
  InterviewSession_of_doc env d w = (Ok d, w)
  \/ exists e, InterviewSession_of_doc env d w = (Raise e, w).
Proof.
  unfold InterviewSession_of_doc.
  destruct (status_literal (status d) && scores_valid (scores d)
            && pydantic_int env (total_score d)).
  - left; reflexivity.
  - right; eexists; reflexivity.
Qed.

Lemma fetch_session_spec env sid w :
  snd (fetch_session env sid w) = w
  /\ forall s, fst (fetch_session env sid w) = Ok s ->
               find (by_id sid) (interview_sessions w) = Some s.
Proof.
  unfold fetch_session, find_session. unfold bind, gets. fold (by_id sid).
  destruct (find (by_id sid) (interview_sessions w)) as [d | ].
  - destruct (session_of_doc_cases env d w) as [E | [e E]]; rewrite E; simpl.
    + split; [ reflexivity | intros s H; inversion H; reflexivity ].
    + split; [ reflexivity | intros s H; discriminate ].
  - simpl. split; [ reflexivity | intros s H; discriminate ].
Qed.

Lemma quiet_fetch_session env sid : rel quiet (fetch_session env sid).
Proof. intro w. rewrite (proj1 (fetch_session_spec env sid w)). apply quiet_refl. Qed.

Lemma greet_and_fetch_quiet env s sid :
  rel quiet (_generate_initial_greeting env s ;;; fetch_session env sid).
Proof.
  apply quiet_bind; [ apply quiet_greeting | intro; apply quiet_fetch_session ].
Qed.

Lemma greet_and_fetch_active env s sid w :
  active_at sid w ->
  returned_active
    (fst ((_generate_initial_greeting env s ;;; fetch_session env sid) w))
    (snd ((_generate_initial_greeting env s ;;; fetch_session env sid) w)).
Proof.
  intro Ha. unfold bind.
  pose proof (quiet_greeting env s w) as Hq.
  destruct (_generate_initial_greeting env s w) as [[[] | e] w1]; simpl in Hq;
    [ | intros s' H; discriminate ].
  destruct (quiet_active _ _ _ Hq Ha) as [d [Hd Hs]].
  destruct (fetch_session_spec env sid w1) as [Hw Hr].
  destruct (fetch_session env sid w1) as [r w2]; simpl in *. subst w2.
  intros s' E. specialize (Hr s' E).
  rewrite Hr in Hd. inversion Hd; subst d.
  rewrite (find_by_id_id sid _ _ Hr). split; assumption.
Qed.

Lemma find_app {A : Type} (p : A -> bool) (l l' : list A) :
  find p (l ++ l') = match find p l with Some x => Some x | None => find p l' end.
Proof.
  induction l as [| x l IH]; simpl; [ reflexivity | ].
  destruct (p x); [ reflexivity | exact IH ].
Qed.

Lemma find_fresh_id (l : list InterviewSession) (n : nat) :
  Forall (fun s => session_id s < n) l -> find (by_id n) l = None.
Proof.
  induction 1 as [| x l Hx _ IH]; simpl; [ reflexivity | ].
  unfold by_id at 1. destruct (Nat.eqb (session_id x) n) eqn:E; [ | exact IH ].
  apply Nat.eqb_eq in E. lia.
Qed.

Lemma create_session_spec env cid pf ch w r w' :
  create_session env cid pf ch w = (r, w') ->
  ext w w' /\ (ids_wf w -> returned_active r w').
Proof.
  assert (Hraise : forall (e : Exc) w0,
             @raise InterviewSession e w0 = (r, w') ->
             ext w0 w' /\ (ids_wf w -> returned_active r w')).
  { intros e w0 H. inversion H; subst.
    split; [ apply ext_refl | intros _ s E; discriminate ]. }
  unfold create_session, find_candidate, find_pipeline, find_active_session.
  unfold bind at 1, gets at 1.
  destruct (find (fun c => Nat.eqb (cand_id c) cid) (candidates w)) as [c | ];
    [ | apply Hraise ].
  unfold bind at 1, gets at 1.
  destruct (find (fun p => Nat.eqb (pl_id p) (cand_pipeline_id c)) (pipelines w));
    [ | apply Hraise ].
  unfold bind at 1, gets at 1.
  destruct (find (is_active_for cid) (interview_sessions w)) as [ex | ] eqn:Hex.
  - (* an active session exists *)
    pose proof (find_some _ _ Hex) as [Hin Hact].
    apply is_active_for_candidate in Hact. destruct Hact as [_ Hact].
    destruct (messages ex) as [| m ms].
    + unfold bind at 1.
      destruct (session_of_doc_cases env ex w) as [E | [e E]]; rewrite E;
        [ | apply Hraise ].
      intro H.
      pose proof (greet_and_fetch_quiet env ex (session_id ex) w) as Hq.
      pose proof (greet_and_fetch_active env ex (session_id ex) w) as Hr.
      rewrite H in Hq, Hr. simpl in Hq, Hr.
      split; [ apply quiet_ext, Hq | ].
      intros [Hd _]. apply Hr.
      exists ex. split; [ apply find_by_id_unique; assumption | exact Hact ].
    + destruct (session_of_doc_cases env ex w) as [E | [e E]]; rewrite E;
        [ | apply Hraise ].
      intro H. inversion H; subst.
      split; [ apply ext_refl | ].
      intros [Hd _] s Hs. inversion Hs; subst s.
      split; [ apply find_by_id_unique; assumption | exact Hact ].
  - (* no active session: insert one *)
    unfold bind at 1.
    set (s := new_session (next_oid w) cid (cand_pipeline_id c) pf ch
                (clock w) (S (clock w))).
    set (w1 := with_interview_sessions (fun l => (l ++ [s])%list)
                 (with_next_oid S (with_clock S (with_clock S w)))).
    change (insert_session cid (cand_pipeline_id c) pf ch w) with (Ok s, w1).
    assert (Hext : ext w w1).
    { apply (ext_insert w (next_oid w) cid (cand_pipeline_id c) pf ch
               (clock w) (S (clock w)) (with_next_oid S (with_clock S (with_clock S w))));
        try reflexivity. exact Hex. }
    intro H.
    pose proof (greet_and_fetch_quiet env s (session_id s) w1) as Hq.
    pose proof (greet_and_fetch_active env s (session_id s) w1) as Hr.
    rewrite H in Hq, Hr. simpl in Hq, Hr.
    split; [ eapply ext_trans; [ exact Hext | apply quiet_ext, Hq ] | ].
    intros [_ Hb]. apply Hr.
    exists s. split; [ | reflexivity ].
    simpl. rewrite find_app, (find_fresh_id _ _ Hb). simpl.
    unfold by_id. simpl. rewrite Nat.eqb_refl. reflexivity.
Qed.

Lemma create_session_ext env cid pf ch w :
  ext w (snd (create_session env cid pf ch w)).
Proof.
  destruct (create_session env cid pf ch w) as [r w1] eqn:E.
  apply (create_session_spec _ _ _ _ _ _ _ E).
Qed.

Lemma ext_ids_wf w w' : ext w w' -> ids_wf w -> ids_wf w'.
Proof. intros [_ [_ [H _]]]. exact H. Qed.

Lemma quiet_show_last ch (s : InterviewSession) :
  rel quiet
    (match List.last (map Some (messages s)) None with
     | Some last_msg =>
         if String.eqb (role last_msg) "assistant"
         then send_message ch (str_or_None (content last_msg))
         else send_message ch went_wrong
     | None => send_message ch went_wrong
     end).
Proof.
  destruct (List.last (map Some (messages s)) None) as [m | ];
    [ destruct (String.eqb (role m) "assistant") | ]; apply quiet_send_message.
Qed.

Lemma open_interview_ext env cid ch w :
  ids_wf w -> ext w (snd (open_interview env cid ch w)).
Proof.
  intro Hwf. unfold open_interview.
  apply ext_after_ext; [ apply create_session_ext | ].
  intros s w1 E1. destruct (create_session_spec _ _ _ _ _ _ _ E1) as [_ Hret].
  destruct (Hret Hwf s eq_refl) as [Hfind Hact].
  apply ext_after_ext.
  - destruct (stuck s); [ | apply ext_refl ].
    apply ext_after_ext; [ | intros; apply create_session_ext ].
    apply (ext_close w1 (session_id s) _ s);
      [ apply same_core_abandon | intro; right; reflexivity | exact Hfind | exact Hact ].
  - intros s' w2 _. apply quiet_ext, quiet_show_last.
Qed.

Lemma button_click_ext env pid ch f l w :
  ids_wf w -> ext w (snd (button_click env pid ch f l w)).
Proof.
  intro Hwf. unfold button_click.
  apply ext_after_quiet; [ apply quiet_find_or_create_candidate | ].
  intros cid w1 _ Hq1.
  apply ext_after_quiet; [ apply quiet_send_message | ].
  intros _ w2 _ Hq2.
  apply ext_try; [ | intro; apply quiet_send_message ].
  apply open_interview_ext.
  apply (ext_ids_wf w1); [ apply quiet_ext, Hq2 | ].
  apply (ext_ids_wf w); [ apply quiet_ext, Hq1 | exact Hwf ].
Qed.

Lemma handle_message_ext env ch text w :
  ext w (snd (handle_message env ch text w)).
Proof.
  unfold handle_message, find_active_chat. unfold bind at 1, gets at 1.
  match goal with |- context [fold_left latest ?l None] =>
    destruct (fold_left latest l None) as [d | ] end;
    [ | apply quiet_ext, quiet_send_message ].
  apply ext_try; [ | intro; apply quiet_send_message ].
  apply ext_after_ext; [ apply process_message_ext | ].
  intros; apply quiet_ext, quiet_send_message.
Qed.

Lemma quiet_to_http {A : Type} (e : Exc) : rel quiet (@routers.to_http A e).
Proof.
  intro w. unfold routers.to_http.
  destruct (is_ValueError e); apply quiet_refl.
Qed.

(** Every operation is an engine step, on a store with well-formed ids. *)
Lemma run_ext env op w : ids_wf w -> ext w (run env op w).
Proof.
  intro Hwf. destruct op; simpl.
  - apply ext_try; [ apply create_session_ext | apply quiet_to_http ].
  - apply ext_try; [ apply process_message_ext | apply quiet_to_http ].
  - apply button_click_ext, Hwf.
  - apply handle_message_ext.
  - apply quiet_ext, quiet_auto_configure.
Qed.

Lemma administer_ids_wf cs ps os us w : ids_wf w -> ids_wf (administer cs ps os us w).
Proof. intro H; exact H. Qed.

Lemma reachable_ids_wf env w : reachable env w -> ids_wf w.
Proof.
  induction 1 as [| cs ps os us w _ IH | op w _ IH].
  - split; constructor.
  - apply administer_ids_wf, IH.
  - apply (ext_ids_wf w); [ apply run_ext, IH | exact IH ].
Qed.

(* ================================================================== *)
(** ** Session life cycle and the active-session invariant *)

Lemma Forall2_in_r {A : Type} (P : A -> A -> Prop) (l l' : list A) (y : A) :
  Forall2 P l l' -> In y l' -> exists x, In x l /\ P x y.
Proof.
  induction 1 as [| a b l l' Hab _ IH]; simpl; [ intros [] | ].
  intros [-> | Hin].
  - exists a. split; [ left; reflexivity | exact Hab ].
  - destruct (IH Hin) as [x [Hx Hp]]. exists x. split; [ right; exact Hx | exact Hp ].
Qed.

Lemma unique_by_id (l : list InterviewSession) (x y : InterviewSession) :
  NoDup (map session_id l) -> In x l -> In y l -> session_id x = session_id y -> x = y.
Proof.
  intros Hd Hx Hy E.
  pose proof (find_by_id_unique l x Hd Hx) as Fx.
  pose proof (find_by_id_unique l y Hd Hy) as Fy.
  rewrite E in Fx. congruence.
Qed.

Lemma NoDup_app_disjoint {A : Type} (l l' : list A) (x : A) :
  NoDup (l ++ l') -> In x l -> In x l' -> False.
Proof.
  induction l as [| y l IH]; simpl; [ intros _ [] | ].
  intros Hd [-> | Hin] Hin'; inversion Hd; subst.
  - match goal with H : ~ In _ _ |- _ => apply H end.
    apply in_or_app. right. exact Hin'.
  - eapply IH; eauto.
Qed.

(** Across an engine step, a stored session and a later session of the
    same id are related by [evolves]. *)
Lemma ext_same_id w w' s s' :
  ext w w' -> ids_wf w ->
  In s (interview_sessions w) -> In s' (interview_sessions w') ->
  session_id s' = session_id s -> evolves s s'.
Proof.
  intros Hext Hwf Hs Hs' Hid.
  pose proof (ext_ids_wf _ _ Hext Hwf) as [Hd' _].
  destruct Hwf as [Hd _].
  destruct Hext as [[l1 [new [E [F B]]]] _].
  rewrite E in Hs', Hd'. apply in_app_or in Hs'. destruct Hs' as [Hin | Hin].
  - destruct (Forall2_in_r _ _ _ _ F Hin) as [s0 [H0 Hev]].
    assert (s0 = s) as ->; [ | exact Hev ].
    apply (unique_by_id _ _ _ Hd H0 Hs).
    destruct Hev as [I _]. congruence.
  - exfalso. rewrite map_app in Hd'.
    apply (NoDup_app_disjoint _ _ (session_id s') Hd').
    + rewrite (ids_evolves _ _ F), Hid. apply in_map, Hs.
    + apply in_map, Hin.
Qed.

Lemma ext_statuses_valid w w' : ext w w' -> statuses_valid w -> statuses_valid w'.
Proof.
  intros [[l1 [new [E [F B]]]] _] Hv. unfold statuses_valid in *. rewrite E.
  apply Forall_app. split.
  - eapply Forall2_Forall_r; [ | exact F | exact Hv ].
    intros x y Hx [_ [_ [S _]]]. eapply status_step_valid; eauto.
  - eapply Forall_impl; [ | exact B ]. intros a [Ha _]. exact Ha.
Qed.

Lemma ext_one_active w w' : ext w w' -> one_active w -> one_active w'.
Proof.
  intros [_ [K _]] H cid. specialize (K cid). specialize (H cid). lia.
Qed.

Lemma chain_one_active l0 hs :
  chain store_step l0 hs -> one_active_in l0 -> Forall one_active_in hs.
Proof.
  revert l0. induction hs as [| h hs IH]; intros l0 Hc H0; [ constructor | ].
  change (store_step l0 h /\ chain store_step h hs) in Hc.
  destruct Hc as [[_ K] Hc].
  assert (Hh : one_active_in h).
  { intro cid. specialize (K cid). specialize (H0 cid). lia. }
  constructor; [ exact Hh | apply (IH h Hc Hh) ].
Qed.

Lemma new_snapshots_app w w' hs :
  session_history w' = (session_history w ++ hs)%list -> new_snapshots w w' = hs.
Proof.
  intro E. unfold new_snapshots. rewrite E, skipn_app, skipn_all, Nat.sub_diag.
  reflexivity.
Qed.

(** After each write of an engine step no candidate has two active
    sessions, if none had before. *)
Lemma ext_snapshots_one_active w w' :
  ext w w' -> one_active w -> Forall one_active_in (new_snapshots w w').
Proof.
  intros [_ [_ [_ [_ [hs [E [C _]]]]]]] H0.
  rewrite (new_snapshots_app _ _ _ E). apply (chain_one_active _ _ C H0).
Qed.

(** Each write of an engine step lets the stored sessions evolve and adds
    born ones. *)
Lemma ext_snapshots_evolve w w' :
  ext w w' -> chain sessions_ext (interview_sessions w) (new_snapshots w w').
Proof.
  intros [_ [_ [_ [_ [hs [E [C _]]]]]]].
  rewrite (new_snapshots_app _ _ _ E).
  eapply chain_impl; [ | exact C ]. intros x y [H _]. exact H.
Qed.

(** The invariants hold in every world the operations can reach. *)
Lemma reachable_invariants env w :
  reachable env w -> statuses_valid w /\ one_active w.
Proof.
  induction 1 as [| cs ps os us w _ IH | op w Hr IH].
  - split; [ apply Forall_nil | intro cid; unfold active_count; simpl; lia ].
  - exact IH.
  - pose proof (run_ext env op w (reachable_ids_wf env w Hr)) as Hext.
    destruct IH as [Hv Ho].
    split; [ eapply ext_statuses_valid; eauto | eapply ext_one_active; eauto ].
Qed.

(** C3.  On a store with unique session ids whose statuses are among
    active, completed and abandoned, every operation (start, chat, bot
    button, bot message, auto-configure) leaves every status among those
    three, and a session that was stored before keeps its status or goes
    from active to completed or from active to abandoned: nothing leaves
    completed or abandoned.  The same holds write by write: each write to
    the sessions collection lets every stored session keep its place and
    make such a step, and adds only sessions of a valid status. *)
Theorem session_status_lifecycle env op w :
  ids_wf w -> statuses_valid w ->
  statuses_valid (run env op w)
  /\ (forall s s',
         In s (interview_sessions w) -> In s' (interview_sessions (run env op w)) ->
         session_id s' = session_id s ->
         status s' = status s
         \/ (status s = "active"
             /\ (status s' = "completed" \/ status s' = "abandoned")))
  /\ chain sessions_ext (interview_sessions w) (new_snapshots w (run env op w)).
Proof.
  intros Hwf Hv. pose proof (run_ext env op w Hwf) as Hext.
  split; [ | split ].
  - eapply ext_statuses_valid; eauto.
  - intros s s' Hs Hs' Hid.
    destruct (ext_same_id _ _ _ _ Hext Hwf Hs Hs' Hid) as [_ [_ [S _]]].
    exact S.
  - apply ext_snapshots_evolve, Hext.
Qed.

(** The two pieces of [create_session], run without interruption, are
    [create_session]. *)
Lemma create_session_cut env cid pf ch w :
  create_session env cid pf ch w
  = (found <- create_session_check cid ;;
     create_session_resume env cid pf ch found) w.
Proof.
  unfold create_session, create_session_check, create_session_resume.
  unfold find_candidate, find_pipeline, find_active_session.
  unfold bind, gets, ret, raise. cbv beta.
  destruct (find _ (candidates w)) as [c | ]; [ | reflexivity ].
  destruct (find _ (pipelines w)) as [p | ]; [ | reflexivity ].
  destruct (find _ (interview_sessions w)) as [ex | ]; [ | reflexivity ].
  cbv beta iota. cbn [fst snd].
  destruct (messages ex); reflexivity.
Qed.

(** C4 as stated fails, for it includes concurrent attempts: two start
    requests for candidate 3 overlap on a store without sessions; each
    finds no active session before the other has inserted its own, and
    both insert, so that the candidate ends with the active sessions 4
    and 5. *)
Lemma overlapping_starts_counterexample :
  ids_wf Demo.fresh
  /\ one_active Demo.fresh
  /\ map (fun s => (session_id s, candidate_id s, status s))
       (interview_sessions
          (snd (overlapping_create_session
                  (Demo.env [Demo.says "Hello"; Demo.says "Hello"])
                  3 3 web_simulator None Demo.fresh)))
     = [(4, 3, "active"); (5, 3, "active")]
  /\ ~ one_active
        (snd (overlapping_create_session
                (Demo.env [Demo.says "Hello"; Demo.says "Hello"])
                3 3 web_simulator None Demo.fresh)).
Proof.
  split; [ split; constructor | ].
  split; [ intro cid; unfold active_count; simpl; lia | ].
  split; [ vm_compute; reflexivity | ].
  intro H. specialize (H 3). vm_compute in H. lia.
Qed.

(** C4 (amended), for requests that run one after another.  On a store
    with unique session ids in which no candidate has two active sessions,
    no operation (start, chat, bot button, bot message, auto-configure)
    leaves a candidate with two active sessions, neither when it ends nor
    after any single write it makes to the sessions collection on the
    way. *)
Theorem one_active_session_per_candidate env op w :
  ids_wf w -> one_active w ->
  one_active (run env op w)
  /\ Forall one_active_in (new_snapshots w (run env op w)).
Proof.
  intros Hwf Ho. pose proof (run_ext env op w Hwf) as Hext. split.
  - eapply ext_one_active; eauto.
  - apply ext_snapshots_one_active; assumption.
Qed.

(** C10.  Whatever an operation does, the sessions stored before keep
    their place and id, their message logs are extended only by messages
    that are a role and a text with role user or assistant, and the
    sessions the operation creates hold only such messages.  The messages
    that a turn keeps in its working history are not of this kind: neither
    the system prompt, nor the assistant's tool-call message (the dumped
    response that carries tool calls, whose role is assistant as well),
    nor a tool-result message; so none of them is ever stored. *)
Theorem stored_log_roles env op w :
  (exists kept created,
      interview_sessions (run env op w) = (kept ++ created)%list
      /\ Forall2
           (fun s s' =>
              session_id s' = session_id s
              /\ exists added,
                   messages s' = (messages s ++ added)%list
                   /\ Forall durable added)
           (interview_sessions w) kept
      /\ Forall (fun s => Forall durable (messages s)) created)
  /\ (forall m, durable m ->
                (role m = "user" \/ role m = "assistant")
                /\ tool_calls m = [] /\ tool_call_id m = None)
  /\ (forall system_prompt, ~ durable (plain_message "system" system_prompt))
  /\ (forall text tool_call others u,
         ~ durable (model_dump {| ai_content := text;
                                  ai_tool_calls := tool_call :: others;
                                  usage := u |}))
  /\ (forall tool_call tool_output, ~ durable (tool_message tool_call tool_output)).
Proof.
  split; [ exact (run_logs_durable env op w) | ].
  split; [ | split; [ | split ] ].
  - intros m [r [text [-> Hr]]]. repeat split. exact Hr.
  - intros p [r [text [E [Hr | Hr]]]]; inversion E; subst; discriminate.
  - intros text tc others u [r [t [E _]]]. inversion E.
  - intros tc out [r [t [E [Hr | Hr]]]]; inversion E; subst; discriminate.
Qed.

(** A tool-calling turn: the second request carries the system prompt,
    the assistant's tool-call message and the tool result, while the
    stored log gains the candidate's message and the final answer only. *)
Example working_history_of_a_tool_turn :
  let w' :=
    snd (process_message
           (Demo.env [Demo.calls [{| tc_id := "call_1"; tc_name := "Retrieve_messages1";
                                     tc_arguments := "{}" |}];
                      Demo.says "Next question"])
           4 "I am ready" Demo.world) in
  map (fun c => map role (req_messages (call_request c))) (llm_calls w')
  = [["system"; "assistant"; "user"];
     ["system"; "assistant"; "user"; "assistant"; "tool"]]
  /\ map (fun s => map role (messages s)) (interview_sessions w')
     = [["assistant"; "user"; "assistant"]].
Proof. split; vm_compute; reflexivity. Qed.

(** C2 (amended).  The tool schema has exactly three tools, named
    end_interview, Retrieve_messages1 and User_Info1; the first two take no
    arguments and the third takes the single required object argument
    data; every chat and chat_tool_response call of a turn is sent with
    this schema. *)
Theorem tool_schema_of_a_turn env sid text w :
  map fn_name tools = ["end_interview"; "Retrieve_messages1"; "User_Info1"]
  /\ map (fun t => map (fun p => (prop_name p, prop_type p)) (fn_properties t)) tools
     = [[]; []; [("data", "object")]]
  /\ map fn_required tools = [[]; []; ["data"]]
  /\ exists new,
       llm_calls (snd (process_message env sid text w)) = (llm_calls w ++ new)%list
       /\ Forall
            (fun c => conversational (call_kind c) ->
                      req_tools (call_request c) = Some tools)
            new.
Proof.
  repeat split. exact (process_message_log_tools env sid text w).
Qed.

(* ================================================================== *)
(** ** Pipelines without questions *)

Lemma find_by_id_and {A : Type} (p q : A -> bool) (l : list A) (x : A) :
  find p l = Some x -> q x = true -> find (fun y => p y && q y) l = Some x.
Proof.
  induction l as [| y l IH]; simpl; [ discriminate | ].
  destruct (p y) eqn:E.
  - intros H Hq. inversion H; subst. rewrite Hq. reflexivity.
  - intros H Hq. simpl. apply IH; assumption.
Qed.

Lemma no_questions_entries (f : Question -> string) (l : list PipelineStage) :
  (forall stage, In stage l -> questions stage = []) ->
  flat_map (fun stage => map f (questions stage)) l = [].
Proof.
  induction l as [| s l IH]; simpl; [ reflexivity | ].
  intro H. rewrite (H s (or_introl eq_refl)). simpl.
  apply IH. intros stage Hin. apply H. right. exact Hin.
Qed.

Lemma no_questions_gathered p target :
  (forall stage, In stage (stages p) -> questions stage = []) ->
  routers.gather_questions p target = [].
Proof.
  intro H.
  assert (Hfirst :
            match find (fun stage => negb (Nat.eqb (List.length (questions stage)) 0))
                    (stages p) with
            | Some stage => questions stage
            | None => []
            end = []).
  { destruct (find _ (stages p)) as [stage | ] eqn:E; [ | reflexivity ].
    apply find_some in E. apply H, E. }
  unfold routers.gather_questions. destruct target as [t | ]; [ | exact Hfirst ].
  destruct (String.eqb t ""); [ exact Hfirst | ]. clear Hfirst.
  destruct (find (fun stage => String.eqb (stage_id stage) t) (stages p))
    as [stage | ] eqn:E; [ | reflexivity ].
  apply find_some in E. apply H, E.
Qed.

(** C1 (amended).  For a stored pipeline with zero questions across all
    of its stages: auto-configuration by a user of the owning organization
    fails with HTTP 400 and writes nothing; prompt compilation for a
    session does not fail, it fills the agent's template with the two
    built-in default questions (or returns the fixed fallback prompt when
    the agent is absent or disabled). *)
Theorem zero_question_pipeline pid p w :
  find (fun q => Nat.eqb (pl_id q) pid) (pipelines w) = Some p ->
  (forall stage, In stage (stages p) -> questions stage = []) ->
  (forall target,
      routers.auto_configure_interview_agent pid target (pl_organization_id p) w
      = (Raise (routers.HTTP 400
                  "No questions found in pipeline stages to generate prompt."), w))
  /\ get_system_prompt pid w
     = (Ok match interview_agent p with
           | Some a =>
               if enabled a then fill_template (agent_prompt a) default_questions
               else "You are a helpful interviewer. Please ask questions in English."
           | None => "You are a helpful interviewer. Please ask questions in English."
           end, w).
Proof.
  intros Hfind Hnone. split.
  - intro target. unfold routers.auto_configure_interview_agent.
    unfold bind, gets.
    rewrite (find_by_id_and _ (fun q => Nat.eqb (pl_organization_id q) (pl_organization_id p))
               _ p Hfind (Nat.eqb_refl _)).
    rewrite (no_questions_gathered p target Hnone). reflexivity.
  - unfold get_system_prompt, find_pipeline. unfold bind, gets. rewrite Hfind.
    destruct (interview_agent p) as [a | ]; [ | reflexivity ].
    destruct (enabled a); [ | reflexivity ].
    rewrite (no_questions_entries question_entry _ Hnone). reflexivity.
Qed.

Lemma zero_question_pipeline_witness :
  (forall target,
      routers.auto_configure_interview_agent 2 target (pl_organization_id Demo.pipeline)
        Demo.fresh
      = (Raise (routers.HTTP 400
                  "No questions found in pipeline stages to generate prompt."),
         Demo.fresh))
  /\ get_system_prompt 2 Demo.fresh
     = (Ok match interview_agent Demo.pipeline with
           | Some a =>
               if enabled a then fill_template (agent_prompt a) default_questions
               else "You are a helpful interviewer. Please ask questions in English."
           | None => "You are a helpful interviewer. Please ask questions in English."
           end, Demo.fresh).
Proof.
  refine (zero_question_pipeline 2 Demo.pipeline Demo.fresh eq_refl _).
  intros stage [<- | []]. reflexivity.
Defined.

(** C1 as stated fails: with a pipeline that has no question at all, the
    compiled system prompt is the template over two default questions and
    [create_session] returns an active session holding the greeting. *)
Lemma zero_question_pipeline_counterexample :
  flat_map questions (stages Demo.pipeline) = []
  /\ fst (get_system_prompt 2 Demo.fresh)
     = Ok ("Ask 2 questions:" ++ nl
           ++ "1. Describe your background." ++ nl
           ++ "2. Why do you want this job?" ++ nl
           ++ "Warn at 1; end after: Why do you want this job?")
  /\ option_map (fun s => (status s, messages s))
       (match fst (create_session (Demo.env [Demo.says "Hi! Describe your background."])
                     3 web_simulator None Demo.fresh) with
        | Ok s => Some s
        | Raise _ => None
        end)
     = Some ("active", [plain_message "assistant" "Hi! Describe your background."]).
Proof. repeat split; vm_compute; reflexivity. Qed.

(* ================================================================== *)
(** ** The tool schema *)

(** C2 as stated fails: the schema sent with a turn names its tools
    end_interview, Retrieve_messages1 and User_Info1. *)
Lemma tool_names_counterexample :
  map (fun c => option_map (map fn_name) (req_tools (call_request c)))
    (llm_calls (snd (process_message (Demo.env [Demo.says "Next question"])
                       4 "I am ready" Demo.world)))
  = [Some ["end_interview"; "Retrieve_messages1"; "User_Info1"]]
  /\ ["end_interview"; "Retrieve_messages1"; "User_Info1"]
     <> ["end_interview"; "retrieve_context"; "save_candidate_info"].
Proof. split; [ vm_compute; reflexivity | discriminate ]. Qed.

(* ================================================================== *)
(** ** Witnesses of the life-cycle theorems *)

Lemma stuck_world_ids_wf : ids_wf stuck_world.
Proof.
  split; simpl.
  - constructor; [ intros [] | constructor ].
  - constructor; [ simpl; lia | constructor ].
Defined.

Lemma session_status_lifecycle_witness :
  statuses_valid (run (Demo.env []) (ButtonClick 2 "77" None None) stuck_world)
  /\ (forall s s',
         In s (interview_sessions stuck_world) ->
         In s' (interview_sessions
                  (run (Demo.env []) (ButtonClick 2 "77" None None) stuck_world)) ->
         session_id s' = session_id s ->
         status s' = status s
         \/ (status s = "active"
             /\ (status s' = "completed" \/ status s' = "abandoned")))
  /\ chain sessions_ext (interview_sessions stuck_world)
       (new_snapshots stuck_world
          (run (Demo.env []) (ButtonClick 2 "77" None None) stuck_world)).
Proof.
  apply (session_status_lifecycle (Demo.env []) (ButtonClick 2 "77" None None) stuck_world).
  - exact stuck_world_ids_wf.
  - constructor; [ left; reflexivity | constructor ].
Defined.

Lemma stuck_world_one_active : one_active stuck_world.
Proof.
  intro cid. unfold active_count. simpl.
  destruct (is_active_for cid _); simpl; lia.
Defined.

Lemma one_active_session_per_candidate_witness :
  one_active (run (Demo.env []) (ButtonClick 2 "77" None None) stuck_world)
  /\ Forall one_active_in
       (new_snapshots stuck_world
          (run (Demo.env []) (ButtonClick 2 "77" None None) stuck_world)).
Proof.
  exact (one_active_session_per_candidate (Demo.env []) (ButtonClick 2 "77" None None)
           stuck_world stuck_world_ids_wf stuck_world_one_active).
Defined.

Example button_click_abandons_and_restarts :
  map (map (fun s => (session_id s, status s)))
    (new_snapshots stuck_world
       (run (Demo.env []) (ButtonClick 2 "77" None None) stuck_world))
  = [ [(4, "abandoned")];
      [(4, "abandoned"); (5, "active")];
      [(4, "abandoned"); (5, "active")] ].
Proof. vm_compute. reflexivity. Qed.

(* ================================================================== *)
(** ** Usage ledger *)

(** C5.  When the candidate is stored and the reported token counts are
    between 0 and 2^53, [_log_token_usage] appends one log entry whose
    cost is (input_tokens / 1e6) * input_rate
    + (output_tokens / 1e6) * output_rate in double arithmetic, adds the
    token counts and that cost to the candidate's running totals and,
    when the owning organization is stored, to the organization's; with
    the default rates 1.00 and 2.50, 100 input and 50 output tokens cost
    the double written 0.000225. *)
Theorem usage_record_cost env u cid k w c :
  find (fun d => Nat.eqb (cand_id d) cid) (candidates w) = Some c ->
  token_count (prompt_tokens u) -> token_count (completion_tokens u) ->
  total_cost env (prompt_tokens u) (completion_tokens u)
  = (float_of_tokens (prompt_tokens u) / 1000000
     * input_token_cost_per_million (settings env)
     + float_of_tokens (completion_tokens u) / 1000000
       * output_token_cost_per_million (settings env))%float
  /\ token_usage_logs (snd (_log_token_usage env u cid k w))
     = (token_usage_logs w
        ++ [{| log_organization_id := cand_organization_id c;
               log_candidate_id := cid;
               interaction_type := interaction_type_str k;
               log_model := model;
               input_tokens := prompt_tokens u;
               output_tokens := completion_tokens u;
               cost := total_cost env (prompt_tokens u) (completion_tokens u);
               timestamp := clock w |}])%list
  /\ (exists c',
         find (fun d => Nat.eqb (cand_id d) cid)
           (candidates (snd (_log_token_usage env u cid k w))) = Some c'
         /\ cand_total_input_tokens c' = (cand_total_input_tokens c + prompt_tokens u)%Z
         /\ cand_total_output_tokens c'
            = (cand_total_output_tokens c + completion_tokens u)%Z
         /\ cand_total_ai_cost c'
            = (cand_total_ai_cost c
               + total_cost env (prompt_tokens u) (completion_tokens u))%float)
  /\ (forall o,
         find (fun d => Nat.eqb (org_id d) (cand_organization_id c)) (organizations w)
         = Some o ->
         exists o',
           find (fun d => Nat.eqb (org_id d) (cand_organization_id c))
             (organizations (snd (_log_token_usage env u cid k w))) = Some o'
           /\ org_total_input_tokens o' = (org_total_input_tokens o + prompt_tokens u)%Z
           /\ org_total_output_tokens o'
              = (org_total_output_tokens o + completion_tokens u)%Z
           /\ org_total_ai_cost o'
              = (org_total_ai_cost o
                 + total_cost env (prompt_tokens u) (completion_tokens u))%float)
  /\ (settings env = default_settings ->
      prompt_tokens u = 100%Z -> completion_tokens u = 50%Z ->
      total_cost env (prompt_tokens u) (completion_tokens u)
      = 0x1.d7dbf487fcb92p-13%float).
Proof.
  intros Hc _ _. split; [ reflexivity | ].
  unfold _log_token_usage, find_candidate. unfold bind, gets, utcnow, modify.
  rewrite Hc. simpl.
  split; [ reflexivity | ]. split; [ | split ].
  - eexists. split; [ apply find_update_one; [ reflexivity | exact Hc ] | ].
    repeat split.
  - intros o Ho. eexists.
    split; [ apply find_update_one; [ reflexivity | exact Ho ] | ].
    repeat split.
  - intros Hs Hi Ho. unfold total_cost. rewrite Hs, Hi, Ho. reflexivity.
Qed.

(** That double is the one nearest to 225 / 10^6. *)
Example cost_literal :
  PrimFloat.eqb 0x1.d7dbf487fcb92p-13 (225 / 1000000) = true.
Proof. reflexivity. Qed.

Lemma usage_record_cost_witness :
  total_cost (Demo.env []) 100 50 = 0x1.d7dbf487fcb92p-13%float
  /\ map cost (token_usage_logs
                 (snd (_log_token_usage (Demo.env []) usage_100_50 3 Chat Demo.world)))
     = [0x1.d7dbf487fcb92p-13%float].
Proof.
  assert (Hi : token_count (prompt_tokens usage_100_50))
    by (unfold token_count; simpl; lia).
  assert (Ho : token_count (completion_tokens usage_100_50))
    by (unfold token_count; simpl; lia).
  pose proof (usage_record_cost (Demo.env []) usage_100_50 3 Chat Demo.world
                Demo.candidate eq_refl Hi Ho) as [_ [Hlog [_ [_ Hcost]]]].
  split.
  - exact (Hcost eq_refl eq_refl eq_refl).
  - rewrite Hlog. reflexivity.
Defined.

(* ================================================================== *)
(** ** Resuming a session *)

(** C9.  When the candidate's active session has a non-empty message log,
    [create_session] writes nothing (so no opening message is appended),
    a second call returns what the first returned, a session it returns is
    that active session, and it does return it whenever the candidate and
    its pipeline are stored and the session document loads. *)
Theorem create_session_idempotent env cid pf ch w s :
  find (is_active_for cid) (interview_sessions w) = Some s ->
  messages s <> [] ->
  snd (create_session env cid pf ch w) = w
  /\ create_session env cid pf ch (snd (create_session env cid pf ch w))
     = create_session env cid pf ch w
  /\ (forall s1, fst (create_session env cid pf ch w) = Ok s1 -> s1 = s)
  /\ (forall c p,
         find (fun d => Nat.eqb (cand_id d) cid) (candidates w) = Some c ->
         find (fun d => Nat.eqb (pl_id d) (cand_pipeline_id c)) (pipelines w) = Some p ->
         status_literal (status s) && scores_valid (scores s)
         && pydantic_int env (total_score s) = true ->
         fst (create_session env cid pf ch w) = Ok s).
Proof.
  intros Hs Hm.
  assert (Hrun : (exists e, create_session env cid pf ch w = (Raise e, w))
                 \/ (create_session env cid pf ch w = (Ok s, w)
                     /\ status_literal (status s) && scores_valid (scores s)
                        && pydantic_int env (total_score s) = true)
                 ).
  { unfold create_session, find_candidate, find_pipeline, find_active_session.
    unfold bind, gets.
    destruct (find (fun c => Nat.eqb (cand_id c) cid) (candidates w)) as [c | ];
      [ | left; eexists; reflexivity ].
    destruct (find (fun p => Nat.eqb (pl_id p) (cand_pipeline_id c)) (pipelines w));
      [ | left; eexists; reflexivity ].
    rewrite Hs. destruct (messages s) as [| m ms]; [ contradiction | ].
    unfold InterviewSession_of_doc.
    destruct (status_literal (status s) && scores_valid (scores s)
              && pydantic_int env (total_score s)).
    - right. split; reflexivity.
    - left. eexists. reflexivity. }
  assert (Hw : snd (create_session env cid pf ch w) = w).
  { destruct Hrun as [[e E] | [E _]]; rewrite E; reflexivity. }
  split; [ exact Hw | ]. split; [ rewrite Hw; reflexivity | ]. split.
  - intros s1 H1. destruct Hrun as [[e E] | [E _]]; rewrite E in H1; simpl in H1.
    + discriminate.
    + inversion H1. reflexivity.
  - intros c p Hc Hp Hv.
    unfold create_session, find_candidate, find_pipeline, find_active_session.
    unfold bind, gets. rewrite Hc, Hp, Hs.
    destruct (messages s) as [| m ms]; [ contradiction | ].
    unfold InterviewSession_of_doc. rewrite Hv. reflexivity.
Qed.

Lemma create_session_idempotent_witness :
  snd (create_session (Demo.env []) 3 telegram (Some "77") Demo.world) = Demo.world
  /\ fst (create_session (Demo.env []) 3 telegram (Some "77") Demo.world)
     = Ok Demo.session.
Proof.
  pose proof (create_session_idempotent (Demo.env []) 3 telegram (Some "77")
                Demo.world Demo.session eq_refl) as H.
  destruct H as [Hw [_ [_ Hok]]]; [ discriminate | ].
  split; [ exact Hw | ].
  exact (Hok Demo.candidate Demo.pipeline eq_refl eq_refl eq_refl).
Defined.

(* ================================================================== *)
(** ** Upstream failures during a turn *)

Lemma new_calls_app w w' new :
  llm_calls w' = (llm_calls w ++ new)%list -> new_calls w w' = new.
Proof.
  intro E. unfold new_calls. rewrite E, skipn_app, skipn_all, Nat.sub_diag.
  reflexivity.
Qed.

Lemma new_calls_same w w' : llm_calls w' = llm_calls w -> new_calls w w' = [].
Proof.
  intro E. apply new_calls_app. rewrite E, app_nil_r. reflexivity.
Qed.

Lemma surfaces_bind {A B : Type} (m : M A) (f : A -> M B) :
  surfaces m -> (forall a, surfaces (f a)) -> surfaces (bind m f).
Proof.
  intros Hm Hf w. unfold bind.
  destruct (Hm w) as [new1 [E1 H1]].
  destruct (m w) as [[a | e1] w1]; simpl in *.
  - destruct (Hf a w1) as [new2 [E2 H2]].
    exists (new1 ++ new2)%list. split.
    + rewrite E2, E1, app_assoc. reflexivity.
    + intros k req e Hin Hk. apply in_app_or in Hin. destruct Hin as [Hin | Hin].
      * specialize (H1 k req e Hin Hk). discriminate.
      * apply (H2 k req e Hin Hk).
  - exists new1. split; [ exact E1 | ].
    intros k req e Hin Hk. specialize (H1 k req e Hin Hk).
    inversion H1. reflexivity.
Qed.

(** A block whose only calls are scoring calls surfaces vacuously. *)
Lemma surfaces_scoring_only {A : Type} (m : M A) :
  rel (log_grows scoring_only) m -> surfaces m.
Proof.
  intros Hm w. destruct (Hm w) as [new [E F]].
  exists new. split; [ exact E | ].
  intros k req e Hin [Hk | Hk]; rewrite Forall_forall in F;
    specialize (F _ Hin); unfold scoring_only, call_kind in F; simpl in F;
    congruence.
Qed.

Lemma surfaces_silent {A : Type} (m : M A) : rel same_log m -> surfaces m.
Proof.
  intro Hm. apply surfaces_scoring_only. intro w.
  apply log_grows_same. apply Hm.
Qed.

Lemma surfaces_ret {A : Type} (a : A) : surfaces (ret a).
Proof. apply surfaces_silent. intro w. reflexivity. Qed.

Lemma surfaces_raise {A : Type} (e : Exc) : surfaces (@raise A e).
Proof. apply surfaces_silent. intro w. reflexivity. Qed.

Lemma surfaces_call env k req : surfaces (chat_completions_create env k req).
Proof.
  intro w. unfold chat_completions_create.
  destruct (client env (List.length (llm_calls w)) req) as [r | e0] eqn:E; simpl.
  - exists [(k, req, Returned r)]. split; [ reflexivity | ].
    intros k' req' e [H | []] _. inversion H.
  - exists [(k, req, Raised e0)]. split; [ reflexivity | ].
    intros k' req' e [H | []] _. inversion H. reflexivity.
Qed.

Lemma surfaces_push_message sid msg : durable msg -> surfaces (push_message sid msg).
Proof. intro H. apply surfaces_silent, push_message_same_log, H. Qed.

Lemma surfaces_log_usage env r cid k : surfaces (log_usage_if_present env r cid k).
Proof. apply surfaces_silent, log_usage_same_log. Qed.

Lemma surfaces_turn env sid s msgs : surfaces (turn env sid s msgs).
Proof.
  unfold turn.
  apply surfaces_bind; [ apply surfaces_call | intro r ].
  apply surfaces_bind; [ apply surfaces_log_usage | intros _ ].
  destruct (ai_tool_calls r) as [| tc tcs].
  - destruct (ai_content r) as [t | ]; [ | apply surfaces_raise ].
    destruct (String.eqb t ""); [ apply surfaces_ret | ].
    apply surfaces_bind;
      [ apply surfaces_push_message, durable_assistant | intro; apply surfaces_ret ].
  - apply surfaces_bind;
      [ apply surfaces_scoring_only, run_tool_calls_log | intro out ].
    destruct out as [reply | msgs']; [ apply surfaces_ret | ].
    apply surfaces_bind; [ apply surfaces_call | intro r2 ].
    apply surfaces_bind; [ apply surfaces_log_usage | intros _ ].
    destruct (ai_content r2) as [t | ]; [ | apply surfaces_ret ].
    destruct (String.eqb t ""); [ apply surfaces_ret | ].
    apply surfaces_bind;
      [ apply surfaces_push_message, durable_assistant | intro; apply surfaces_ret ].
Qed.

Lemma get_system_prompt_world pid w : snd (get_system_prompt pid w) = w.
Proof.
  unfold get_system_prompt, find_pipeline. unfold bind, gets.
  destruct (find _ (pipelines w)) as [p | ]; [ | reflexivity ].
  destruct (interview_agent p) as [a | ]; [ | reflexivity ].
  destruct (enabled a); reflexivity.
Qed.

Lemma process_message_surfaces env sid text w r w' k req e :
  process_message env sid text w = (r, w') ->
  In (k, req, Raised e) (new_calls w w') ->
  conversational k ->
  r = Ok ("Error: " ++ exc_str e).
Proof.
  assert (Hquiet : forall (x : Result string),
             (x, w) = (r, w') -> In (k, req, Raised e) (new_calls w w') ->
             conversational k -> r = Ok ("Error: " ++ exc_str e)).
  { intros x H. inversion H; subst.
    rewrite new_calls_same by reflexivity. intros []. }
  unfold process_message, find_session. unfold bind at 1, gets at 1.
  destruct (find (fun s => Nat.eqb (session_id s) sid) (interview_sessions w))
    as [d | ]; [ | apply Hquiet ].
  unfold bind at 1.
  destruct (session_of_doc_cases env d w) as [E | [e0 E]]; rewrite E;
    [ | apply Hquiet ].
  destruct (String.eqb (status d) "completed"); [ apply Hquiet | ].
  unfold bind at 1.
  pose proof (get_system_prompt_world (pipeline_id d) w) as Hp.
  destruct (get_system_prompt (pipeline_id d) w) as [[prompt | e0] w1];
    simpl in Hp; subst w1; [ | apply Hquiet ].
  unfold bind at 1.
  pose proof (push_message_same_log sid (plain_message "user" text)
                (durable_user text) w) as Hu.
  destruct (push_message sid (plain_message "user" text) w) as [[[] | e0] w2];
    simpl in Hu;
    [ | intro H; inversion H; subst; rewrite new_calls_same by exact Hu; intros [] ].
  unfold try_except.
  match goal with |- context [turn env sid d ?msgs w2] =>
    destruct (surfaces_turn env sid d msgs w2) as [new [En Hn]];
    destruct (turn env sid d msgs w2) as [[reply | e0] w3] end;
    simpl in En, Hn; rewrite Hu in En; intro H; inversion H; subst;
    rewrite (new_calls_app _ _ _ En);
    intros Hin Hk; specialize (Hn k req e Hin Hk).
  - discriminate.
  - inversion Hn; subst. reflexivity.
Qed.

(** C7.  If a chat or chat_tool_response call made during a turn raised
    an exception, [process_message] does not raise: it returns the text
    "Error: " followed by the exception's message. *)
Theorem llm_failure_becomes_reply env sid text w k req e :
  In (k, req, Raised e) (new_calls w (snd (process_message env sid text w))) ->
  conversational k ->
  fst (process_message env sid text w) = Ok ("Error: " ++ exc_str e).
Proof.
  destruct (process_message env sid text w) as [r w'] eqn:E. simpl.
  apply (process_message_surfaces env sid text w r w' k req e E).
Qed.

Lemma llm_failure_becomes_reply_witness :
  fst (process_message (Demo.env []) 4 "I am ready" Demo.world)
  = Ok "Error: Connection error.".
Proof.
  apply (llm_failure_becomes_reply (Demo.env []) 4 "I am ready" Demo.world Chat
           (chat_request
              [plain_message "system" (fill_template Demo.template default_questions);
               plain_message "assistant" "Hello, shall we start?";
               plain_message "user" "I am ready"])
           Demo.upstream_down).
  - left. reflexivity.
  - left. reflexivity.
Defined.

(* ================================================================== *)
(** ** Billing and CRM sync as side steps *)

Lemma side_step_refl w : side_step w w.
Proof. repeat split. Qed.

Lemma side_step_trans a b c : side_step a b -> side_step b c -> side_step a c.
Proof.
  intros [S1 [P1 [L1 [I1 T1]]]] [S2 [P2 [L2 [I2 T2]]]].
  repeat split; congruence.
Qed.

Lemma side_step_inc_candidate w cid i o c :
  side_step w (with_candidates
                 (update_one (fun d => Nat.eqb (cand_id d) cid) (inc_candidate_doc i o c)) w).
Proof.
  repeat split; simpl; apply map_update_one; reflexivity.
Qed.

(** Discharges the framing conditions of [side_step]. *)
Ltac side_frame :=
  first [ exact side_step_refl
        | exact side_step_trans
        | exact side_step_inc_candidate
        | intros; repeat split ].

Lemma log_usage_side_step env r cid k : rel side_step (log_usage_if_present env r cid k).
Proof. apply (rel_log_usage_if_present env side_step); side_frame. Qed.

Lemma airtable_sync_side_step env s total summary :
  rel side_step (airtable_sync env s total summary).
Proof. apply (rel_airtable_sync env side_step); side_frame. Qed.

Lemma log_usage_returns env r cid k w : fst (log_usage_if_present env r cid k w) = Ok tt.
Proof.
  unfold log_usage_if_present. destruct (usage r) as [u | ]; [ | reflexivity ].
  unfold _log_token_usage, find_candidate. unfold bind, gets.
  destruct (find _ (candidates w)); reflexivity.
Qed.

(** Billing a call, as a run. *)
Lemma log_usage_run env r cid k w :
  exists w', log_usage_if_present env r cid k w = (Ok tt, w') /\ side_step w w'.
Proof.
  pose proof (log_usage_returns env r cid k w) as Hr.
  pose proof (log_usage_side_step env r cid k w) as Hs.
  destruct (log_usage_if_present env r cid k w) as [x w']; simpl in *. subst x.
  exists w'. split; [ reflexivity | exact Hs ].
Qed.

(** A candidate found by id is still found after steps that keep ids and
    statuses. *)
Lemma find_candidate_kept cid (l l' : list Candidate) c :
  map cand_id l' = map cand_id l -> map cand_status l' = map cand_status l ->
  find (fun d => Nat.eqb (cand_id d) cid) l = Some c ->
  exists c', find (fun d => Nat.eqb (cand_id d) cid) l' = Some c'
             /\ cand_status c' = cand_status c.
Proof.
  revert l'. induction l as [| x l IH]; intros [| y l']; simpl; try discriminate.
  intros Hi Hs. inversion Hi as [[Hy Hi']]. inversion Hs as [[Hsy Hs']].
  rewrite Hy. destruct (Nat.eqb (cand_id x) cid).
  - intro H; inversion H; subst. exists y. split; [ reflexivity | exact Hsy ].
  - apply IH; assumption.
Qed.

(* ================================================================== *)
(** ** Scoring and completion *)

(** [evaluate_interview] never raises once the pipeline is found: it
    makes one scoring call and returns the scoring result. *)
Lemma evaluate_interview_run env s p w :
  find (fun d => Nat.eqb (pl_id d) (pipeline_id s)) (pipelines w) = Some p ->
  exists w',
    evaluate_interview env s w
    = (Ok (scoring_result env
             (client env (List.length (llm_calls w)) (scoring_request env p s))), w')
    /\ interview_sessions w' = interview_sessions w
    /\ pipelines w' = pipelines w
    /\ llm_calls w'
       = (llm_calls w
          ++ [(Scoring, scoring_request env p s,
               client env (List.length (llm_calls w)) (scoring_request env p s))])%list
    /\ map cand_id (candidates w') = map cand_id (candidates w)
    /\ map cand_status (candidates w') = map cand_status (candidates w).
Proof.
  intro Hp. unfold evaluate_interview, find_pipeline. unfold bind at 1, gets at 1.
  rewrite Hp. unfold try_except, bind at 1, chat_completions_create.
  destruct (client env (List.length (llm_calls w)) (scoring_request env p s))
    as [r | e] eqn:Hout.
  - unfold bind at 1.
    match goal with |- context [log_usage_if_present env r ?c ?k ?w0] =>
      destruct (log_usage_run env r c k w0) as [w1 [E1 [S1 [P1 [L1 [I1 T1]]]]]] end.
    rewrite E1. simpl in S1, P1, L1, I1, T1.
    unfold scoring_result, loads.
    destruct (ai_content r) as [text | ];
      [ destruct (json_loads env text) as [v | e] | ];
      exists w1; repeat split; assumption.
  - eexists. split; [ reflexivity | repeat split ].
Qed.

Lemma scoring_fails_result env out :
  scoring_fails env out -> scoring_result env out = scoring_failed.
Proof.
  destruct out as [r | e]; simpl; [ | reflexivity ].
  destruct (ai_content r) as [text | ]; [ | reflexivity ].
  intros [e H]. rewrite H. reflexivity.
Qed.

(** The completion flow once scoring produced an object: the session is
    closed with the object's scores and total, the candidate is marked,
    the CRM sync cannot fail the flow. *)
Lemma complete_interview_run env s p w kv :
  find (fun d => Nat.eqb (pl_id d) (pipeline_id s)) (pipelines w) = Some p ->
  scoring_result env (client env (List.length (llm_calls w)) (scoring_request env p s))
  = JObject kv ->
  exists w' now,
    complete_interview env s w = (Ok tt, w')
    /\ interview_sessions w'
       = update_one (by_id (session_id s))
           (complete_doc (get_or "scores" (JArray []) kv)
              (get_or "total_score" (JInt 0) kv) now)
           (interview_sessions w)
    /\ llm_calls w'
       = (llm_calls w
          ++ [(Scoring, scoring_request env p s,
               client env (List.length (llm_calls w)) (scoring_request env p s))])%list
    /\ (forall c,
           find (fun d => Nat.eqb (cand_id d) (candidate_id s)) (candidates w) = Some c ->
           exists c',
             find (fun d => Nat.eqb (cand_id d) (candidate_id s)) (candidates w') = Some c'
             /\ cand_status c' = "interview_completed").
Proof.
  intros Hp Hkv. unfold complete_interview. unfold bind at 1.
  destruct (evaluate_interview_run env s p w Hp) as [w1 [E1 [S1 [P1 [L1 [I1 T1]]]]]].
  rewrite E1, Hkv.
  set (sc := get_or "scores" (JArray []) kv).
  set (total := get_or "total_score" (JInt 0) kv).
  set (summary := get_or "summary_notes" (JString "") kv).
  set (w4 := with_candidates
               (update_one (fun c => Nat.eqb (cand_id c) (candidate_id s))
                  (set_candidate_status_doc "interview_completed" (S (clock w1))))
               (with_clock S
                  (with_interview_sessions
                     (update_one (fun x => Nat.eqb (session_id x) (session_id s))
                        (complete_doc sc total (clock w1)))
                     (with_clock S w1)))).
  assert (Hrun : exists w5,
             (now <- utcnow ;;
              modify (with_interview_sessions
                        (update_one (fun x => Nat.eqb (session_id x) (session_id s))
                           (complete_doc sc total now))) ;;;
              now <- utcnow ;;
              modify (with_candidates
                        (update_one (fun c => Nat.eqb (cand_id c) (candidate_id s))
                           (set_candidate_status_doc "interview_completed" now))) ;;;
              try_except (airtable_sync env s total summary) (fun _ => ret tt)) w1
             = (Ok tt, w5) /\ side_step w4 w5).
  { pose proof (airtable_sync_side_step env s total summary w4) as Hs.
    unfold bind, utcnow, modify, try_except.
    match goal with |- context [airtable_sync env s total summary ?x] =>
      change x with w4 end.
    destruct (airtable_sync env s total summary w4) as [[[] | e] w5]; simpl in Hs;
      exists w5; split; first [ reflexivity | exact Hs ]. }
  destruct Hrun as [w5 [E5 [S5 [P5 [L5 [I5 T5]]]]]].
  exists w5, (clock w1). split; [ exact E5 | ]. split; [ | split ].
  - rewrite S5. simpl. rewrite S1. reflexivity.
  - rewrite L5. simpl. exact L1.
  - intros c Hc.
    destruct (find_candidate_kept _ _ _ c I1 T1 Hc) as [c1 [Hc1 _]].
    assert (H4 : find (fun d => Nat.eqb (cand_id d) (candidate_id s)) (candidates w4)
                 = Some (set_candidate_status_doc "interview_completed" (S (clock w1)) c1)).
    { simpl. apply find_update_one; [ reflexivity | exact Hc1 ]. }
    destruct (find_candidate_kept _ _ _ _ I5 T5 H4) as [c5 [Hc5 Hst]].
    exists c5. split; [ exact Hc5 | exact Hst ].
Qed.

(** C8.  When the session's pipeline is stored and the scoring call
    raises, returns no content, or returns text that [json.loads]
    rejects, [evaluate_interview] does not raise: it returns empty scores,
    total 0 and the summary "Scoring failed."; [complete_interview] then
    returns normally and leaves the stored session completed with empty
    scores and total 0. *)
Theorem scoring_failure_is_absorbed env s p w :
  find (fun d => Nat.eqb (pl_id d) (pipeline_id s)) (pipelines w) = Some p ->
  scoring_fails env (client env (List.length (llm_calls w)) (scoring_request env p s)) ->
  fst (evaluate_interview env s w)
  = Ok (JObject [("scores", JArray []); ("total_score", JInt 0);
                 ("summary_notes", JString "Scoring failed.")])
  /\ fst (complete_interview env s w) = Ok tt
  /\ forall d,
       find (by_id (session_id s)) (interview_sessions w) = Some d ->
       exists d',
         find (by_id (session_id s))
           (interview_sessions (snd (complete_interview env s w))) = Some d'
         /\ status d' = "completed" /\ scores d' = JArray []
         /\ total_score d' = JInt 0 /\ messages d' = messages d.
Proof.
  intros Hp Hfail. pose proof (scoring_fails_result env _ Hfail) as Hres.
  destruct (evaluate_interview_run env s p w Hp) as [w1 [E1 _]].
  destruct (complete_interview_run env s p w _ Hp Hres) as [w' [now [E [S _]]]].
  rewrite E1, E, Hres. simpl fst. simpl snd.
  split; [ reflexivity | ]. split; [ reflexivity | ].
  intros d Hd. eexists. split.
  - rewrite S. apply find_update_one; [ reflexivity | exact Hd ].
  - repeat split.
Qed.

Lemma scoring_failure_is_absorbed_witness :
  fst (evaluate_interview (Demo.env []) Demo.session Demo.world)
  = Ok (JObject [("scores", JArray []); ("total_score", JInt 0);
                 ("summary_notes", JString "Scoring failed.")])
  /\ fst (complete_interview (Demo.env []) Demo.session Demo.world) = Ok tt.
Proof.
  pose proof (scoring_failure_is_absorbed (Demo.env []) Demo.session Demo.pipeline
                Demo.world eq_refl I) as [H1 [H2 _]].
  split; [ exact H1 | exact H2 ].
Defined.

(* ================================================================== *)
(** ** A turn that ends the interview *)

Lemma get_system_prompt_run pid w :
  get_system_prompt pid w = (Ok (system_prompt_in w pid), w).
Proof.
  unfold system_prompt_in.
  unfold get_system_prompt, find_pipeline. unfold bind, gets.
  destruct (find _ (pipelines w)) as [p | ]; [ | reflexivity ].
  destruct (interview_agent p) as [a | ]; [ | reflexivity ].
  destruct (enabled a); reflexivity.
Qed.

(** An active, loadable session: the turn runs its [try] block after
    storing the candidate's message. *)
Lemma process_message_active_run env sid text w d :
  find (by_id sid) (interview_sessions w) = Some d ->
  status d = "active" ->
  scores_valid (scores d) = true ->
  pydantic_int env (total_score d) = true ->
  process_message env sid text w
  = try_except (turn env sid d (turn_history w d text))
      (fun e => ret ("Error: " ++ exc_str e))
      (with_interview_sessions
         (update_one (by_id sid) (push_message_doc (plain_message "user" text) (clock w)))
         (with_clock S w)).
Proof.
  intros Hd Hs Hv Hi. unfold by_id in Hd.
  unfold process_message, find_session. unfold bind at 1, gets at 1. rewrite Hd.
  unfold InterviewSession_of_doc. rewrite Hv, Hi, Hs. simpl andb. cbv iota.
  unfold bind at 1, ret at 1. rewrite Hs.
  change (String.eqb "active" "completed") with false. cbv iota.
  unfold bind at 1. rewrite get_system_prompt_run.
  reflexivity.
Qed.

(** The loop reaches the first [end_interview] call and completes. *)
Lemma run_tool_calls_until_end env s before tc rest :
  Forall (answered env) before ->
  String.eqb (tc_name tc) "end_interview" = true ->
  (exists a, json_loads env (tc_arguments tc) = inl a) ->
  forall msgs w,
    run_tool_calls env s (before ++ tc :: rest) msgs w
    = (complete_interview env s ;;; ret (inl "Interview Completed. Thank you!")) w.
Proof.
  intros Hb Hname [a Ha]. induction Hb as [| c before [Hc [x [Hx Hobj]]] _ IH];
    intros msgs w; simpl.
  - unfold loads. rewrite Ha, Hname. reflexivity.
  - unfold loads. rewrite Hx, Hc. unfold bind at 1, ret at 1.
    destruct (String.eqb (tc_name c) "Retrieve_messages1").
    + unfold bind at 1, ret at 1. apply IH.
    + destruct (String.eqb (tc_name c) "User_Info1").
      * destruct (Hobj eq_refl) as [kv ->]. unfold bind at 1, ret at 1. apply IH.
      * unfold bind at 1, ret at 1. apply IH.
Qed.

Lemma turn_end_run env sid d msgs w resp before tc rest p kv :
  client env (List.length (llm_calls w)) (chat_request msgs) = Returned resp ->
  ai_tool_calls resp = (before ++ tc :: rest)%list ->
  Forall (answered env) before ->
  String.eqb (tc_name tc) "end_interview" = true ->
  (exists a, json_loads env (tc_arguments tc) = inl a) ->
  find (fun x => Nat.eqb (pl_id x) (pipeline_id d)) (pipelines w) = Some p ->
  scoring_result env
    (client env (S (List.length (llm_calls w))) (scoring_request env p d)) = JObject kv ->
  exists w' now,
    turn env sid d msgs w = (Ok "Interview Completed. Thank you!", w')
    /\ interview_sessions w'
       = update_one (by_id (session_id d))
           (complete_doc (get_or "scores" (JArray []) kv)
              (get_or "total_score" (JInt 0) kv) now)
           (interview_sessions w)
    /\ map call_kind (new_calls w w') = [Chat; Scoring]
    /\ (forall c,
           find (fun x => Nat.eqb (cand_id x) (candidate_id d)) (candidates w) = Some c ->
           exists c',
             find (fun x => Nat.eqb (cand_id x) (candidate_id d)) (candidates w') = Some c'
             /\ cand_status c' = "interview_completed").
Proof.
  intros Hcall Htools Hb Hname Hargs Hp Hkv.
  unfold turn. unfold bind at 1, chat_completions_create. rewrite Hcall.
  set (w2 := with_llm_calls
               (fun l => (l ++ [(Chat, chat_request msgs, Returned resp)])%list) w).
  unfold bind at 1.
  destruct (log_usage_run env resp (candidate_id d) Chat w2)
    as [w3 [E3 [S3 [P3 [L3 [I3 T3]]]]]].
  rewrite E3. simpl in S3, P3, L3.
  assert (Hlen : List.length (llm_calls w3) = S (List.length (llm_calls w))).
  { rewrite L3, length_app. simpl. lia. }
  assert (Hp3 : find (fun x => Nat.eqb (pl_id x) (pipeline_id d)) (pipelines w3) = Some p).
  { rewrite P3. exact Hp. }
  rewrite <- Hlen in Hkv.
  destruct (complete_interview_run env d p w3 kv Hp3 Hkv) as [w' [now [E [S [L C]]]]].
  exists w', now. split; [ | split; [ | split ] ].
  - destruct (ai_tool_calls resp) as [| t ts] eqn:Et;
      [ destruct before; discriminate | ].
    rewrite Htools. unfold bind at 1.
    rewrite (run_tool_calls_until_end env d before tc rest Hb Hname Hargs).
    unfold bind at 1. rewrite E. reflexivity.
  - rewrite S, S3. reflexivity.
  - rewrite (new_calls_app w w'
               [(Chat, chat_request msgs, Returned resp);
                (Scoring, scoring_request env p d,
                 client env (List.length (llm_calls w3)) (scoring_request env p d))]);
      [ reflexivity | ].
    rewrite L, L3, <- app_assoc. reflexivity.
  - intros c Hc. simpl in I3, T3.
    destruct (find_candidate_kept _ _ _ c I3 T3 Hc) as [c3 [Hc3 _]].
    apply (C c3 Hc3).
Qed.

(** C6 (amended).  For a stored, active, loadable session whose pipeline
    is stored: when the model's first response of the turn carries an
    [end_interview] tool call whose arguments parse, every tool call
    ahead of it is one the loop answers, and the scoring result is a JSON
    object (the parsed answer or the failure record), then
    [process_message] returns "Interview Completed. Thank you!", the
    turn's only LLM calls are the chat call and the scoring call (no
    chat_tool_response call), the stored session is completed with the
    scores and total of the scoring result, and the candidate, if stored,
    gets status interview_completed. *)
Theorem end_interview_completes env sid text w d resp before tc rest p kv :
  find (by_id sid) (interview_sessions w) = Some d ->
  status d = "active" ->
  scores_valid (scores d) = true ->
  pydantic_int env (total_score d) = true ->
  client env (List.length (llm_calls w)) (chat_request (turn_history w d text))
  = Returned resp ->
  ai_tool_calls resp = (before ++ tc :: rest)%list ->
  Forall (answered env) before ->
  tc_name tc = "end_interview" ->
  (exists a, json_loads env (tc_arguments tc) = inl a) ->
  find (fun x => Nat.eqb (pl_id x) (pipeline_id d)) (pipelines w) = Some p ->
  scoring_result env
    (client env (S (List.length (llm_calls w))) (scoring_request env p d)) = JObject kv ->
  fst (process_message env sid text w) = Ok "Interview Completed. Thank you!"
  /\ map call_kind (new_calls w (snd (process_message env sid text w))) = [Chat; Scoring]
  /\ (exists d',
         find (by_id sid) (interview_sessions (snd (process_message env sid text w)))
         = Some d'
         /\ status d' = "completed"
         /\ scores d' = get_or "scores" (JArray []) kv
         /\ total_score d' = get_or "total_score" (JInt 0) kv)
  /\ (forall c,
         find (fun x => Nat.eqb (cand_id x) (candidate_id d)) (candidates w) = Some c ->
         exists c',
           find (fun x => Nat.eqb (cand_id x) (candidate_id d))
             (candidates (snd (process_message env sid text w))) = Some c'
           /\ cand_status c' = "interview_completed").
Proof.
  intros Hd Hs Hv Hi Hcall Htools Hb Hname Hargs Hp Hkv.
  rewrite (process_message_active_run env sid text w d Hd Hs Hv Hi).
  set (w1 := with_interview_sessions
               (update_one (by_id sid)
                  (push_message_doc (plain_message "user" text) (clock w)))
               (with_clock S w)).
  assert (Hend : String.eqb (tc_name tc) "end_interview" = true).
  { rewrite Hname. reflexivity. }
  destruct (turn_end_run env sid d (turn_history w d text) w1 resp before tc rest p kv
              Hcall Htools Hb Hend Hargs Hp Hkv) as [w' [now [E [S [L C]]]]].
  unfold try_except. rewrite E. simpl fst. simpl snd.
  split; [ reflexivity | ]. split; [ exact L | ]. split; [ | exact C ].
  eexists. split.
  - rewrite S, (find_by_id_id sid _ _ Hd). simpl.
    apply find_update_one; [ reflexivity | ].
    apply find_update_one; [ reflexivity | exact Hd ].
  - repeat split.
Qed.

Lemma end_interview_completes_witness :
  fst (process_message (Demo.env [Demo.calls [Demo.end_call "{}"]]) 4 "bye" Demo.world)
  = Ok "Interview Completed. Thank you!"
  /\ map call_kind
       (new_calls Demo.world
          (snd (process_message (Demo.env [Demo.calls [Demo.end_call "{}"]]) 4 "bye"
                  Demo.world)))
     = [Chat; Scoring].
Proof.
  pose proof (end_interview_completes (Demo.env [Demo.calls [Demo.end_call "{}"]])
                4 "bye" Demo.world Demo.session
                {| ai_content := None; ai_tool_calls := [Demo.end_call "{}"];
                   usage := None |}
                [] (Demo.end_call "{}") [] Demo.pipeline
                [("scores", JArray []); ("total_score", JInt 0);
                 ("summary_notes", JString "Scoring failed.")]
                eq_refl eq_refl eq_refl eq_refl eq_refl eq_refl
                (Forall_nil _) eq_refl
                (ex_intro _ (JObject []) eq_refl) eq_refl eq_refl) as [H1 [H2 _]].
  split; [ exact H1 | exact H2 ].
Defined.

(** C6 as stated fails: the model's response carries an [end_interview]
    tool call, its arguments are not JSON, and the turn answers with an
    error text while the session stays active. *)
Lemma end_interview_counterexample :
  map (fun c => match call_outcome c with
                | Returned r => map tc_name (ai_tool_calls r)
                | Raised _ => []
                end)
    (llm_calls (snd (process_message (Demo.env [Demo.calls [Demo.end_call ""]])
                       4 "bye" Demo.world)))
  = [["end_interview"]]
  /\ fst (process_message (Demo.env [Demo.calls [Demo.end_call ""]]) 4 "bye" Demo.world)
     = Ok "Error: Expecting value: line 1 column 1 (char 0)"
  /\ map status
       (interview_sessions
          (snd (process_message (Demo.env [Demo.calls [Demo.end_call ""]]) 4 "bye"
                  Demo.world)))
     = ["active"].
Proof. repeat split; vm_compute; reflexivity. Qed.

(* ================================================================== *)
(** ** Closed, missing and abandoned sessions *)

(** X1.  A message sent to a completed session is answered with the
    fixed notice and changes nothing: no message is stored and no LLM
    call is made, through the service and through the chat endpoint. *)
Theorem completed_session_is_closed env sid text w d :
  find (by_id sid) (interview_sessions w) = Some d ->
  status d = "completed" ->
  scores_valid (scores d) = true ->
  pydantic_int env (total_score d) = true ->
  process_message env sid text w
  = (Ok "This interview has already been completed. Thank you!", w)
  /\ routers.chat env sid text w
     = (Ok "This interview has already been completed. Thank you!", w).
Proof.
  intros Hd Hs Hv Hi. unfold by_id in Hd.
  assert (H : process_message env sid text w
              = (Ok "This interview has already been completed. Thank you!", w)).
  { unfold process_message, find_session. unfold bind at 1, gets at 1. rewrite Hd.
    unfold InterviewSession_of_doc. rewrite Hv, Hi, Hs.
    change (status_literal "completed" && true && true) with true. cbv iota.
    unfold bind at 1, ret at 1. rewrite Hs. reflexivity. }
  split; [ exact H | ].
  unfold routers.chat, try_except. rewrite H. reflexivity.
Qed.

Lemma completed_session_is_closed_witness :
  process_message (Demo.env []) 4 "hello" completed_world
  = (Ok "This interview has already been completed. Thank you!", completed_world)
  /\ routers.chat (Demo.env []) 4 "hello" completed_world
     = (Ok "This interview has already been completed. Thank you!", completed_world).
Proof.
  exact (completed_session_is_closed (Demo.env []) 4 "hello" completed_world
           (complete_doc (JArray []) (JInt 0) 3 Demo.session)
           eq_refl eq_refl eq_refl eq_refl).
Defined.

(** X2.  Requests that name a document that is not stored are answered
    404 and write nothing: a chat message or a session read for an
    unknown session id ("Session not found"), and a start for an unknown
    candidate ("Candidate not found") or for a candidate whose pipeline is
    gone ("Pipeline not found"). *)
Theorem missing_documents_give_404 env w :
  (forall sid text,
      find (by_id sid) (interview_sessions w) = None ->
      routers.chat env sid text w = (Raise (routers.HTTP 404 "Session not found"), w)
      /\ routers.get_session env sid w
         = (Raise (routers.HTTP 404 "Session not found"), w))
  /\ (forall cid pf ch,
         find (fun c => Nat.eqb (cand_id c) cid) (candidates w) = None ->
         routers.start_interview env cid pf ch w
         = (Raise (routers.HTTP 404 "Candidate not found"), w))
  /\ (forall cid pf ch c,
         find (fun c => Nat.eqb (cand_id c) cid) (candidates w) = Some c ->
         find (fun p => Nat.eqb (pl_id p) (cand_pipeline_id c)) (pipelines w) = None ->
         routers.start_interview env cid pf ch w
         = (Raise (routers.HTTP 404 "Pipeline not found"), w)).
Proof.
  split; [ | split ].
  - intros sid text H. unfold by_id in H. split.
    + unfold routers.chat, try_except, process_message, find_session.
      unfold bind, gets. rewrite H. reflexivity.
    + unfold routers.get_session, find_session. unfold bind, gets. rewrite H.
      reflexivity.
  - intros cid pf ch H.
    unfold routers.start_interview, try_except, create_session, find_candidate.
    unfold bind, gets. rewrite H. reflexivity.
  - intros cid pf ch c Hc Hp.
    unfold routers.start_interview, try_except, create_session, find_candidate,
      find_pipeline.
    unfold bind, gets. rewrite Hc, Hp. reflexivity.
Qed.

Lemma missing_documents_give_404_witness :
  routers.chat (Demo.env []) 9 "hello" Demo.world
  = (Raise (routers.HTTP 404 "Session not found"), Demo.world)
  /\ routers.start_interview (Demo.env []) 9 web_simulator None Demo.world
     = (Raise (routers.HTTP 404 "Candidate not found"), Demo.world).
Proof.
  destruct (missing_documents_give_404 (Demo.env []) Demo.world) as [Hs [Hc _]].
  split.
  - exact (proj1 (Hs 9 "hello" eq_refl)).
  - exact (Hc 9 web_simulator None eq_refl).
Defined.

(** X3.  A session that the bot has marked abandoned cannot be used any
    more: its document no longer loads into the session model, so a chat
    message to it is answered 404 and a read of it fails validation, and
    neither writes anything. *)
Theorem abandoned_session_is_unreachable env sid text w d :
  find (by_id sid) (interview_sessions w) = Some d ->
  status d = "abandoned" ->
  (exists detail, routers.chat env sid text w = (Raise (routers.HTTP 404 detail), w))
  /\ (exists e, routers.get_session env sid w = (Raise e, w)
                /\ exc_class e = ValidationError).
Proof.
  intros Hd Hs. unfold by_id in Hd. split.
  - eexists. unfold routers.chat, try_except, process_message, find_session.
    unfold bind at 1, gets at 1. rewrite Hd.
    unfold InterviewSession_of_doc. rewrite Hs. reflexivity.
  - eexists. unfold routers.get_session, find_session.
    unfold bind at 1, gets at 1. rewrite Hd.
    unfold InterviewSession_of_doc. rewrite Hs. split; reflexivity.
Qed.

Lemma abandoned_session_is_unreachable_witness :
  exists detail,
    routers.chat (Demo.env []) 4 "hello" abandoned_world
    = (Raise (routers.HTTP 404 detail), abandoned_world).
Proof.
  exact (proj1 (abandoned_session_is_unreachable (Demo.env []) 4 "hello" abandoned_world
                  (set_status_doc "abandoned" Demo.session) eq_refl eq_refl)).
Defined.

(* ================================================================== *)
(** ** What a turn stores *)

Lemma same_logs_refl w : same_logs w w.
Proof. apply Forall2_diag. intro; split; reflexivity. Qed.

Lemma same_logs_trans a b c : same_logs a b -> same_logs b c -> same_logs a c.
Proof.
  apply Forall2_compose. intros x y z [I1 M1] [I2 M2]. split; congruence.
Qed.

Lemma same_logs_eq w w' :
  interview_sessions w' = interview_sessions w -> same_logs w w'.
Proof. intro E. unfold same_logs. rewrite E. apply same_logs_refl. Qed.

Lemma same_logs_update w (p : InterviewSession -> bool) f :
  (forall s, session_id (f s) = session_id s /\ messages (f s) = messages s) ->
  same_logs w (with_interview_sessions (update_one p f) w).
Proof.
  intro H. apply Forall2_update_one; [ intro; split; reflexivity | intros x _; apply H ].
Qed.

(** Discharges the framing conditions of [same_logs]. *)
Ltac same_logs_frame :=
  first [ exact same_logs_refl
        | exact same_logs_trans
        | intros; apply same_logs_eq; reflexivity
        | intros; apply same_logs_update; intro; split; reflexivity
        | intros; exact I ].

Lemma log_usage_same_logs env r cid k : rel same_logs (log_usage_if_present env r cid k).
Proof. apply (rel_log_usage_if_present env same_logs); same_logs_frame. Qed.

Lemma run_tool_calls_same_logs env s calls msgs :
  rel same_logs (run_tool_calls env s calls msgs).
Proof.
  apply (rel_run_tool_calls env same_logs (fun _ _ => True)); same_logs_frame.
Qed.

Lemma chat_call_same_logs env k req : rel same_logs (chat_completions_create env k req).
Proof.
  apply (rel_chat_completions_create env same_logs (fun _ _ => True));
    same_logs_frame.
Qed.

Lemma find_same_logs sid l l' d :
  Forall2 (fun s s' => session_id s' = session_id s /\ messages s' = messages s) l l' ->
  find (by_id sid) l = Some d ->
  exists d', find (by_id sid) l' = Some d' /\ messages d' = messages d.
Proof.
  induction 1 as [| a b l l' [I Hm] _ IH]; simpl; [ discriminate | ].
  unfold by_id in *. rewrite I.
  destruct (Nat.eqb (session_id a) sid).
  - intro E; inversion E; subst. exists b. split; [ reflexivity | exact Hm ].
  - exact IH.
Qed.

Lemma adds_reply_same sid (m : M string) :
  rel same_logs m -> forall w, adds_reply sid m w.
Proof.
  intros Hm w d Hd. destruct (find_same_logs sid _ _ d (Hm w) Hd) as [d' [Hd' E]].
  exists d'. split; [ exact Hd' | left; exact E ].
Qed.

Lemma adds_reply_bind {A : Type} sid (m : M A) (k : A -> M string) :
  rel same_logs m -> (forall a w, adds_reply sid (k a) w) ->
  forall w, adds_reply sid (bind m k) w.
Proof.
  intros Hm Hk w d Hd. unfold bind.
  destruct (find_same_logs sid _ _ d (Hm w) Hd) as [d1 [Hd1 E1]].
  destruct (m w) as [[a | e] w1]; simpl in Hd1.
  - destruct (Hk a w1 d1 Hd1) as [d' [Hd' H]]. exists d'. split; [ exact Hd' | ].
    rewrite <- E1. exact H.
  - exists d1. split; [ exact Hd1 | left; exact E1 ].
Qed.

Lemma adds_reply_ret sid text w : adds_reply sid (ret text) w.
Proof. apply adds_reply_same. intro; apply same_logs_refl. Qed.

Lemma adds_reply_raise sid e w : adds_reply sid (raise e) w.
Proof. apply adds_reply_same. intro; apply same_logs_refl. Qed.

Lemma adds_reply_push sid text w :
  adds_reply sid (push_message sid (assistant_message text) ;;; ret text) w.
Proof.
  intros d Hd. eexists. split.
  - simpl. apply find_update_one; [ reflexivity | exact Hd ].
  - right. exists text. split; reflexivity.
Qed.

(** The try block of a turn stores nothing but the answer it returns. *)
Lemma turn_adds_reply env sid s msgs w : adds_reply sid (turn env sid s msgs) w.
Proof.
  revert w. unfold turn.
  apply adds_reply_bind; [ apply chat_call_same_logs | intros r ].
  apply adds_reply_bind; [ apply log_usage_same_logs | intros _ ].
  destruct (ai_tool_calls r) as [| tc tcs].
  - destruct (ai_content r) as [t | ]; [ | intro; apply adds_reply_raise ].
    destruct (String.eqb t ""); intro; [ apply adds_reply_ret | apply adds_reply_push ].
  - apply adds_reply_bind; [ apply run_tool_calls_same_logs | intros out ].
    destruct out as [reply | msgs']; [ intro; apply adds_reply_ret | ].
    apply adds_reply_bind; [ apply chat_call_same_logs | intros r2 ].
    apply adds_reply_bind; [ apply log_usage_same_logs | intros _ ].
    destruct (ai_content r2) as [t | ]; [ | intro; apply adds_reply_ret ].
    destruct (String.eqb t ""); intro; [ apply adds_reply_ret | apply adds_reply_push ].
Qed.

(** X4.  A message to an active session is always answered with a text,
    whatever the model, the tools or the scoring do; the stored log gains
    the candidate's message and, after it, at most the one assistant
    message whose text is the reply.  The candidate's message is stored
    even when the turn then fails. *)
Theorem turn_appends_to_the_log env sid text w d :
  find (by_id sid) (interview_sessions w) = Some d ->
  status d = "active" ->
  scores_valid (scores d) = true ->
  pydantic_int env (total_score d) = true ->
  exists reply d',
    fst (process_message env sid text w) = Ok reply
    /\ find (by_id sid) (interview_sessions (snd (process_message env sid text w)))
       = Some d'
    /\ (messages d' = (messages d ++ [plain_message "user" text])%list
        \/ messages d'
           = (messages d ++ [plain_message "user" text;
                             plain_message "assistant" reply])%list).
Proof.
  intros Hd Hs Hv Hi.
  rewrite (process_message_active_run env sid text w d Hd Hs Hv Hi).
  set (w1 := with_interview_sessions
               (update_one (by_id sid)
                  (push_message_doc (plain_message "user" text) (clock w)))
               (with_clock S w)).
  assert (H1 : find (by_id sid) (interview_sessions w1)
               = Some (push_message_doc (plain_message "user" text) (clock w) d)).
  { simpl. apply find_update_one; [ reflexivity | exact Hd ]. }
  destruct (turn_adds_reply env sid d (turn_history w d text) w1 _ H1) as [d' [Hd' H]].
  unfold try_except.
  destruct (turn env sid d (turn_history w d text) w1) as [[reply | e] w2];
    simpl in Hd', H |- *.
  - exists reply, d'. split; [ reflexivity | ]. split; [ exact Hd' | ].
    destruct H as [H | [reply' [E H]]].
    + left. exact H.
    + right. inversion E; subst reply'. rewrite H, <- app_assoc. reflexivity.
  - eexists. exists d'. split; [ reflexivity | ]. split; [ exact Hd' | ].
    destruct H as [H | [reply' [E _]]]; [ left; exact H | discriminate ].
Qed.

Lemma turn_appends_to_the_log_witness :
  exists reply d',
    fst (process_message (Demo.env []) 4 "I am ready" Demo.world) = Ok reply
    /\ find (by_id 4)
         (interview_sessions (snd (process_message (Demo.env []) 4 "I am ready"
                                     Demo.world)))
       = Some d'
    /\ (messages d'
        = (messages Demo.session ++ [plain_message "user" "I am ready"])%list
        \/ messages d'
           = (messages Demo.session ++ [plain_message "user" "I am ready";
                                        plain_message "assistant" reply])%list).
Proof.
  exact (turn_appends_to_the_log (Demo.env []) 4 "I am ready" Demo.world Demo.session
           eq_refl eq_refl eq_refl eq_refl).
Defined.

(* ================================================================== *)
(** ** Opening a session *)

Lemma greeting_stored env s w r text :
  greeting_outcome env w (pipeline_id s) = Returned r ->
  ai_content r = Some text -> text <> "" ->
  greeting_pushes env s w (plain_message "assistant" text).
Proof.
  intros Hout Hc Ht. unfold greeting_pushes, _generate_initial_greeting, try_except.
  unfold bind at 1. rewrite get_system_prompt_run.
  unfold bind at 1, chat_completions_create.
  unfold greeting_outcome, greeting_request in Hout. rewrite Hout.
  unfold bind at 1.
  match goal with |- context [log_usage_if_present env r ?c ?k ?w0] =>
    destruct (log_usage_run env r c k w0) as [w3 [E3 [S3 _]]] end.
  rewrite E3, Hc. apply String.eqb_neq in Ht. rewrite Ht.
  exists (with_interview_sessions
            (update_one (fun x => Nat.eqb (session_id x) (session_id s))
               (push_message_doc (assistant_message text) (clock w3)))
            (with_clock S w3)), (clock w3).
  split; [ reflexivity | ]. simpl. rewrite S3. reflexivity.
Qed.

Lemma greeting_failed env s w e :
  greeting_outcome env w (pipeline_id s) = Raised e ->
  greeting_pushes env s w (apology e).
Proof.
  intros Hout. unfold greeting_pushes, _generate_initial_greeting, try_except.
  unfold bind at 1. rewrite get_system_prompt_run.
  unfold bind at 1, chat_completions_create.
  unfold greeting_outcome, greeting_request in Hout. rewrite Hout.
  eexists. exists (clock w). split; reflexivity.
Qed.

Lemma system_prompt_in_pipelines w w' pid :
  pipelines w' = pipelines w -> system_prompt_in w' pid = system_prompt_in w pid.
Proof.
  intro E. unfold system_prompt_in, get_system_prompt, find_pipeline.
  unfold bind, gets. rewrite E.
  destruct (find _ (pipelines w)) as [p | ]; [ | reflexivity ].
  destruct (interview_agent p) as [a | ]; [ | reflexivity ].
  destruct (enabled a); reflexivity.
Qed.

Lemma greeting_outcome_same env w w' pid :
  pipelines w' = pipelines w -> llm_calls w' = llm_calls w ->
  greeting_outcome env w' pid = greeting_outcome env w pid.
Proof.
  intros Hp Hl. unfold greeting_outcome.
  rewrite (system_prompt_in_pipelines w w' pid Hp), Hl. reflexivity.
Qed.

Lemma update_one_fresh {A : Type} (p : A -> bool) (f : A -> A) (l : list A) (x : A) :
  find p l = None -> p x = true -> update_one p f (l ++ [x]) = (l ++ [f x])%list.
Proof.
  intros Hn Hx. induction l as [| y l IH]; simpl in *.
  - rewrite Hx. reflexivity.
  - destruct (p y); [ discriminate | ]. rewrite (IH Hn). reflexivity.
Qed.

(** A candidate without an active session gets a new one, which holds
    the message the opening block stores. *)
Lemma create_session_fresh env cid pf ch w c p m :
  Forall (fun s => session_id s < next_oid w) (interview_sessions w) ->
  find (fun d => Nat.eqb (cand_id d) cid) (candidates w) = Some c ->
  find (fun d => Nat.eqb (pl_id d) (cand_pipeline_id c)) (pipelines w) = Some p ->
  find (is_active_for cid) (interview_sessions w) = None ->
  pydantic_int env (JInt 0) = true ->
  greeting_pushes env
    (new_session (next_oid w) cid (cand_pipeline_id c) pf ch (clock w) (S (clock w)))
    (with_interview_sessions
       (fun l => (l ++ [new_session (next_oid w) cid (cand_pipeline_id c) pf ch
                          (clock w) (S (clock w))])%list)
       (with_next_oid S (with_clock S (with_clock S w))))
    m ->
  exists s,
    fst (create_session env cid pf ch w) = Ok s
    /\ interview_sessions (snd (create_session env cid pf ch w))
       = (interview_sessions w ++ [s])%list
    /\ session_id s = next_oid w /\ candidate_id s = cid
    /\ pipeline_id s = cand_pipeline_id c /\ platform s = pf
    /\ telegram_chat_id s = ch /\ status s = "active" /\ messages s = [m].
Proof.
  intros Hwf Hc Hp Hnone Hint [w2 [now [Eg Es]]].
  set (s0 := new_session (next_oid w) cid (cand_pipeline_id c) pf ch
               (clock w) (S (clock w))) in *.
  assert (Hfresh : find (by_id (next_oid w)) (interview_sessions w) = None)
    by (apply find_fresh_id, Hwf).
  simpl in Es. rewrite (update_one_fresh _ _ _ s0 Hfresh) in Es
    by (unfold by_id; simpl; apply Nat.eqb_refl).
  assert (E : create_session env cid pf ch w = (Ok (push_message_doc m now s0), w2)).
  { unfold create_session, find_candidate, find_pipeline, find_active_session.
    unfold bind at 1, gets at 1. rewrite Hc.
    unfold bind at 1, gets at 1. rewrite Hp.
    unfold bind at 1, gets at 1. rewrite Hnone.
    unfold bind at 1.
    change (insert_session cid (cand_pipeline_id c) pf ch w)
      with (Ok s0,
            with_interview_sessions (fun l => (l ++ [s0])%list)
              (with_next_oid S (with_clock S (with_clock S w)))).
    unfold bind at 1. rewrite Eg.
    unfold fetch_session, find_session. unfold bind at 1, gets at 1.
    change (session_id s0) with (next_oid w). fold (by_id (next_oid w)).
    rewrite Es, find_app, Hfresh. unfold s0, by_id. simpl.
    rewrite Nat.eqb_refl.
    unfold InterviewSession_of_doc. simpl. rewrite Hint. reflexivity. }
  exists (push_message_doc m now s0). rewrite E. simpl fst. simpl snd.
  repeat split; try reflexivity. exact Es.
Qed.

(** X5.  A candidate without an active session gets a new session under
    a fresh id, active, for the candidate's pipeline and the requested
    channel; when the model answers the opening call with a non-empty
    text, that text is the one message of the session's log, stored and
    returned. *)
Theorem new_session_opens_with_the_greeting env cid pf ch w c p r text :
  Forall (fun s => session_id s < next_oid w) (interview_sessions w) ->
  find (fun d => Nat.eqb (cand_id d) cid) (candidates w) = Some c ->
  find (fun d => Nat.eqb (pl_id d) (cand_pipeline_id c)) (pipelines w) = Some p ->
  find (is_active_for cid) (interview_sessions w) = None ->
  pydantic_int env (JInt 0) = true ->
  greeting_outcome env w (cand_pipeline_id c) = Returned r ->
  ai_content r = Some text ->
  text <> "" ->
  exists s,
    fst (create_session env cid pf ch w) = Ok s
    /\ interview_sessions (snd (create_session env cid pf ch w))
       = (interview_sessions w ++ [s])%list
    /\ session_id s = next_oid w /\ candidate_id s = cid
    /\ pipeline_id s = cand_pipeline_id c /\ platform s = pf
    /\ telegram_chat_id s = ch /\ status s = "active"
    /\ messages s = [plain_message "assistant" text].
Proof.
  intros Hwf Hc Hp Hnone Hint Hout Hr Ht.
  apply (create_session_fresh env cid pf ch w c p _ Hwf Hc Hp Hnone Hint).
  apply (greeting_stored env _ _ r text); [ | exact Hr | exact Ht ].
  rewrite <- Hout. apply greeting_outcome_same; reflexivity.
Qed.

Lemma new_session_opens_with_the_greeting_witness :
  exists s,
    fst (create_session (Demo.env [Demo.says "Hi! Describe your background."])
           3 web_simulator None Demo.fresh) = Ok s
    /\ interview_sessions
         (snd (create_session (Demo.env [Demo.says "Hi! Describe your background."])
                 3 web_simulator None Demo.fresh))
       = (interview_sessions Demo.fresh ++ [s])%list
    /\ session_id s = 4 /\ candidate_id s = 3 /\ pipeline_id s = 2
    /\ platform s = web_simulator /\ telegram_chat_id s = None /\ status s = "active"
    /\ messages s = [plain_message "assistant" "Hi! Describe your background."].
Proof.
  refine (new_session_opens_with_the_greeting
            (Demo.env [Demo.says "Hi! Describe your background."])
            3 web_simulator None Demo.fresh Demo.candidate Demo.pipeline
            {| ai_content := Some "Hi! Describe your background."; ai_tool_calls := [];
               usage := Some {| prompt_tokens := 100; completion_tokens := 50 |} |}
            "Hi! Describe your background."
            (Forall_nil _) eq_refl eq_refl eq_refl eq_refl eq_refl eq_refl _).
  discriminate.
Defined.

(** X6.  When the opening call raises, the failure is absorbed: the new
    session is still created and returned active, and its log holds one
    assistant message, the apology that carries the error text. *)
Theorem failed_greeting_becomes_an_apology env cid pf ch w c p e :
  Forall (fun s => session_id s < next_oid w) (interview_sessions w) ->
  find (fun d => Nat.eqb (cand_id d) cid) (candidates w) = Some c ->
  find (fun d => Nat.eqb (pl_id d) (cand_pipeline_id c)) (pipelines w) = Some p ->
  find (is_active_for cid) (interview_sessions w) = None ->
  pydantic_int env (JInt 0) = true ->
  greeting_outcome env w (cand_pipeline_id c) = Raised e ->
  exists s,
    fst (create_session env cid pf ch w) = Ok s
    /\ interview_sessions (snd (create_session env cid pf ch w))
       = (interview_sessions w ++ [s])%list
    /\ session_id s = next_oid w /\ candidate_id s = cid
    /\ pipeline_id s = cand_pipeline_id c /\ platform s = pf
    /\ telegram_chat_id s = ch /\ status s = "active"
    /\ messages s
       = [plain_message "assistant"
            ("I apologize, I'm having trouble starting the interview. Error details: "
             ++ exc_str e)].
Proof.
  intros Hwf Hc Hp Hnone Hint Hout.
  apply (create_session_fresh env cid pf ch w c p (apology e) Hwf Hc Hp Hnone Hint).
  apply (greeting_failed env _ _ e).
  rewrite <- Hout. apply greeting_outcome_same; reflexivity.
Qed.

Lemma failed_greeting_becomes_an_apology_witness :
  exists s,
    fst (create_session (Demo.env []) 3 web_simulator None Demo.fresh) = Ok s
    /\ interview_sessions (snd (create_session (Demo.env []) 3 web_simulator None
                                  Demo.fresh))
       = (interview_sessions Demo.fresh ++ [s])%list
    /\ session_id s = 4 /\ candidate_id s = 3 /\ pipeline_id s = 2
    /\ platform s = web_simulator /\ telegram_chat_id s = None /\ status s = "active"
    /\ messages s
       = [plain_message "assistant"
            ("I apologize, I'm having trouble starting the interview. Error details: "
             ++ exc_str Demo.upstream_down)].
Proof.
  exact (failed_greeting_becomes_an_apology (Demo.env []) 3 web_simulator None
           Demo.fresh Demo.candidate Demo.pipeline Demo.upstream_down
           (Forall_nil _) eq_refl eq_refl eq_refl eq_refl eq_refl).
Defined.

(** X7.  Self-healing: when the candidate's active session has an empty
    log, [create_session] creates no second session; it runs the opening
    call again for that session and, when the model answers with a
    non-empty text, stores the text as the session's first message and
    returns the session with it. *)
Theorem empty_session_is_healed env cid pf ch w c p s r text :
  NoDup (map session_id (interview_sessions w)) ->
  find (fun d => Nat.eqb (cand_id d) cid) (candidates w) = Some c ->
  find (fun d => Nat.eqb (pl_id d) (cand_pipeline_id c)) (pipelines w) = Some p ->
  find (is_active_for cid) (interview_sessions w) = Some s ->
  messages s = [] ->
  scores_valid (scores s) = true ->
  pydantic_int env (total_score s) = true ->
  greeting_outcome env w (pipeline_id s) = Returned r ->
  ai_content r = Some text ->
  text <> "" ->
  exists s',
    fst (create_session env cid pf ch w) = Ok s'
    /\ session_id s' = session_id s /\ status s' = "active"
    /\ messages s' = [plain_message "assistant" text]
    /\ find (by_id (session_id s))
         (interview_sessions (snd (create_session env cid pf ch w))) = Some s'
    /\ map session_id (interview_sessions (snd (create_session env cid pf ch w)))
       = map session_id (interview_sessions w).
Proof.
  intros Hd Hc Hp Hex Hm Hv Hi Hout Hr Ht.
  destruct (find_some _ _ Hex) as [Hin Hact].
  apply is_active_for_candidate in Hact. destruct Hact as [_ Hact].
  pose proof (find_by_id_unique _ _ Hd Hin) as Hfind.
  destruct (greeting_stored env s w r text Hout Hr Ht) as [w2 [now [Eg Es]]].
  set (s' := push_message_doc (plain_message "assistant" text) now s).
  assert (Hfind' : find (by_id (session_id s)) (interview_sessions w2) = Some s').
  { rewrite Es. apply find_update_one; [ reflexivity | exact Hfind ]. }
  assert (E : create_session env cid pf ch w = (Ok s', w2)).
  { unfold create_session, find_candidate, find_pipeline, find_active_session.
    unfold bind at 1, gets at 1. rewrite Hc.
    unfold bind at 1, gets at 1. rewrite Hp.
    unfold bind at 1, gets at 1. rewrite Hex, Hm.
    unfold bind at 1, InterviewSession_of_doc at 1. rewrite Hv, Hi, Hact.
    change (status_literal "active" && true && true) with true. cbv iota.
    unfold ret at 1. unfold bind at 1. rewrite Eg.
    unfold fetch_session, find_session. unfold bind at 1, gets at 1.
    fold (by_id (session_id s)). rewrite Hfind'.
    unfold InterviewSession_of_doc. unfold s'. simpl. rewrite Hv, Hi, Hact.
    reflexivity. }
  exists s'. rewrite E. simpl fst. simpl snd.
  split; [ reflexivity | ]. split; [ reflexivity | ]. split; [ exact Hact | ].
  split; [ unfold s'; simpl; rewrite Hm; reflexivity | ].
  split; [ exact Hfind' | ].
  rewrite Es. apply map_update_one. reflexivity.
Qed.

Lemma empty_session_is_healed_witness :
  exists s',
    fst (create_session (Demo.env [Demo.says "Hi! Describe your background."])
           3 telegram (Some "77") unopened_world) = Ok s'
    /\ session_id s' = 4 /\ status s' = "active"
    /\ messages s' = [plain_message "assistant" "Hi! Describe your background."].
Proof.
  destruct (empty_session_is_healed
              (Demo.env [Demo.says "Hi! Describe your background."])
              3 telegram (Some "77") unopened_world Demo.candidate Demo.pipeline
              unopened_session
              {| ai_content := Some "Hi! Describe your background."; ai_tool_calls := [];
                 usage := Some {| prompt_tokens := 100; completion_tokens := 50 |} |}
              "Hi! Describe your background.")
    as [s' [H1 [H2 [H3 [H4 _]]]]];
    try reflexivity.
  - constructor; [ intros [] | constructor ].
  - discriminate.
  - exists s'. repeat split; assumption.
Defined.

(* ================================================================== *)
(** ** What the operations leave alone *)

Lemma extends_refl {A : Type} (l : list A) : extends l l.
Proof. exists []. symmetry. apply app_nil_r. Qed.

Lemma extends_trans {A : Type} (a b c : list A) :
  extends a b -> extends b c -> extends a c.
Proof.
  intros [n1 E1] [n2 E2]. exists (n1 ++ n2)%list. rewrite E2, E1, app_assoc.
  reflexivity.
Qed.

Lemma extends_snoc {A : Type} (l : list A) (x : A) : extends l (l ++ [x]).
Proof. exists [x]. reflexivity. Qed.

Lemma trails_grow_refl w : trails_grow w w.
Proof. repeat split; first [ apply extends_refl | lia ]. Qed.

Lemma trails_grow_trans a b c : trails_grow a b -> trails_grow b c -> trails_grow a c.
Proof.
  intros [U1 [L1 [A1 [O1 [C1 N1]]]]] [U2 [L2 [A2 [O2 [C2 N2]]]]].
  repeat split; first [ eapply extends_trans; eassumption | lia ].
Qed.

(** Discharges the framing conditions of [trails_grow]. *)
Ltac trails_frame :=
  first [ exact trails_grow_refl
        | exact trails_grow_trans
        | intros; exact I
        | intros; repeat split; simpl;
          first [ apply extends_refl | apply extends_snoc | lia ] ].

(** X8.  No operation (start, chat, bot button, bot message,
    auto-configure) removes or rewrites an entry of the usage ledger, of
    the LLM call log, of the CRM updates sent or of the bot's outbox:
    each is the former one with entries added at the end; the clock and
    the id counter never go back. *)
Theorem trails_are_append_only env op w :
  (exists new, token_usage_logs (run env op w) = (token_usage_logs w ++ new)%list)
  /\ (exists new, llm_calls (run env op w) = (llm_calls w ++ new)%list)
  /\ (exists new, airtable_calls (run env op w) = (airtable_calls w ++ new)%list)
  /\ (exists new, telegram_outbox (run env op w) = (telegram_outbox w ++ new)%list)
  /\ clock w <= clock (run env op w)
  /\ next_oid w <= next_oid (run env op w).
Proof.
  apply (rel_run env trails_grow (fun _ _ => True)); trails_frame.
Qed.

Lemma config_kept_refl w : config_kept w w.
Proof. repeat split. apply extends_refl. Qed.

Lemma config_kept_trans a b c : config_kept a b -> config_kept b c -> config_kept a c.
Proof.
  intros [P1 [U1 [O1 C1]]] [P2 [U2 [O2 C2]]].
  repeat split; try congruence. eapply extends_trans; eassumption.
Qed.

Lemma config_kept_candidates w p (f : Candidate -> Candidate) :
  (forall c, candidate_identity (f c) = candidate_identity c) ->
  config_kept w (with_candidates (update_one p f) w).
Proof.
  intro H. repeat split. simpl. rewrite (map_update_one _ _ _ _ H).
  apply extends_refl.
Qed.

Lemma config_kept_organizations w p (f : Organization -> Organization) :
  (forall o, (org_id (f o), airtable_config (f o)) = (org_id o, airtable_config o)) ->
  config_kept w (with_organizations (update_one p f) w).
Proof.
  intro H. repeat split; [ | apply extends_refl ]. simpl.
  apply (map_update_one (fun o => (org_id o, airtable_config o))). exact H.
Qed.

(** Discharges the framing conditions of [config_kept]. *)
Ltac config_frame :=
  first [ exact config_kept_refl
        | exact config_kept_trans
        | intros; exact I
        | intros; apply config_kept_candidates; intro; reflexivity
        | intros; apply config_kept_organizations; intro; reflexivity
        | intros; repeat split; simpl;
          first [ rewrite map_app; apply extends_snoc | apply extends_refl ] ].

Lemma create_session_config env cid pf ch : rel config_kept (create_session env cid pf ch).
Proof.
  apply (rel_create_session env config_kept (fun _ _ => True)); config_frame.
Qed.

Lemma process_message_config env sid text : rel config_kept (process_message env sid text).
Proof.
  apply (rel_process_message env config_kept (fun _ _ => True)); config_frame.
Qed.

Lemma button_click_config env pid ch f l : rel config_kept (button_click env pid ch f l).
Proof.
  apply (rel_button_click env config_kept (fun _ _ => True)); config_frame.
Qed.

Lemma handle_message_config env ch text : rel config_kept (handle_message env ch text).
Proof.
  apply (rel_handle_message env config_kept (fun _ _ => True)); config_frame.
Qed.

Lemma to_http_config {A : Type} e : rel config_kept (@routers.to_http A e).
Proof. apply (rel_to_http config_kept); config_frame. Qed.

(** X9.  The interview engine (start, chat, bot button, bot message)
    never edits the configuration it runs on: pipelines and users are
    left as they are, organizations keep their ids and CRM settings, and
    candidates are only added, every stored candidate keeping its id,
    organization, pipeline, e-mail address and CRM record. *)
Theorem engine_keeps_the_configuration env op w :
  engine_op op ->
  pipelines (run env op w) = pipelines w
  /\ users (run env op w) = users w
  /\ map (fun o => (org_id o, airtable_config o)) (organizations (run env op w))
     = map (fun o => (org_id o, airtable_config o)) (organizations w)
  /\ exists new,
       map candidate_identity (candidates (run env op w))
       = (map candidate_identity (candidates w) ++ new)%list.
Proof.
  intro Hop. destruct op; simpl in Hop; try contradiction; simpl.
  - apply (rel_try config_kept config_kept_trans _ _
             (create_session_config _ _ _ _) to_http_config).
  - apply (rel_try config_kept config_kept_trans _ _
             (process_message_config _ _ _) to_http_config).
  - apply button_click_config.
  - apply handle_message_config.
Qed.

Lemma engine_keeps_the_configuration_witness :
  pipelines (run (Demo.env []) (ButtonClick 2 "78" None None) Demo.world)
  = pipelines Demo.world
  /\ exists new,
       map candidate_identity
         (candidates (run (Demo.env []) (ButtonClick 2 "78" None None) Demo.world))
       = (map candidate_identity (candidates Demo.world) ++ new)%list.
Proof.
  destruct (engine_keeps_the_configuration (Demo.env []) (ButtonClick 2 "78" None None)
              Demo.world I) as [H1 [_ [_ H2]]].
  split; [ exact H1 | exact H2 ].
Defined.

(* ================================================================== *)
(** ** The messaging adapter *)

Lemma same_outbox_refl w : same_outbox w w.
Proof. reflexivity. Qed.

Lemma same_outbox_trans a b c : same_outbox a b -> same_outbox b c -> same_outbox a c.
Proof. unfold same_outbox. congruence. Qed.

(** Discharges the framing conditions of [same_outbox]. *)
Ltac outbox_frame :=
  first [ exact same_outbox_refl
        | exact same_outbox_trans
        | intros; exact I
        | intros; reflexivity ].

Lemma process_message_outbox env sid text : rel same_outbox (process_message env sid text).
Proof.
  apply (rel_process_message env same_outbox (fun _ _ => True)); outbox_frame.
Qed.


Lemma handle_message_run env ch text w :
  exists reply w',
    handle_message env ch text w = (Ok tt, w')
    /\ telegram_outbox w' = (telegram_outbox w ++ [(ch, reply)])%list.
Proof.
  unfold handle_message, find_active_chat. unfold bind at 1, gets at 1.
  match goal with |- context [fold_left latest ?l None] =>
    destruct (fold_left latest l None) as [d | ] end.
  - unfold try_except, bind, send_message, modify.
    pose proof (process_message_outbox env (session_id d) text w) as Ho.
    destruct (process_message env (session_id d) text w) as [[reply | e] w1];
      unfold same_outbox in Ho; simpl in Ho; eexists; eexists;
      (split; [ reflexivity | simpl; rewrite Ho; reflexivity ]).
  - eexists. eexists. split; reflexivity.
Qed.

(** X10.  The bot answers every text message with exactly one message to
    the same chat and never raises, whatever the store and the model do;
    when the chat has no active session the answer is the invitation to
    type /start and nothing else changes. *)
Theorem handle_message_sends_one_reply env ch text w :
  (exists reply,
      fst (handle_message env ch text w) = Ok tt
      /\ telegram_outbox (snd (handle_message env ch text w))
         = (telegram_outbox w ++ [(ch, reply)])%list)
  /\ (fst (find_active_chat ch w) = Ok None ->
      handle_message env ch text w
      = (Ok tt,
         with_telegram_outbox
           (fun l => (l ++ [(ch, "You don't have an active interview. Type /start to apply.")])%list)
           w)).
Proof.
  split.
  - destruct (handle_message_run env ch text w) as [reply [w' [E Ho]]].
    exists reply. rewrite E. split; [ reflexivity | exact Ho ].
  - unfold handle_message, find_active_chat. unfold bind, gets. simpl.
    match goal with |- context [fold_left latest ?l None] =>
      destruct (fold_left latest l None) as [d | ] end;
      [ intro H; discriminate | intros _; reflexivity ].
Qed.

(** The newest of [best] and the sessions of [l], by [latest]. *)
Lemma fold_latest (l : list InterviewSession) :
  forall best,
    exists r,
      fold_left latest l (Some best) = Some r
      /\ (r = best \/ In r l)
      /\ created_at best <= created_at r
      /\ forall x, In x l -> created_at x <= created_at r.
Proof.
  induction l as [| y l IH]; intro best; simpl.
  - exists best. repeat split; [ left; reflexivity | lia | intros x [] ].
  - destruct (Nat.ltb (created_at best) (created_at y)) eqn:E.
    + apply Nat.ltb_lt in E. destruct (IH y) as [r [Hr [Hin [Hb Hall]]]].
      exists r. split; [ exact Hr | ]. split; [ right; destruct Hin; auto | ].
      split; [ lia | ]. intros x [<- | Hx]; [ exact Hb | apply Hall, Hx ].
    + apply Nat.ltb_ge in E. destruct (IH best) as [r [Hr [Hin [Hb Hall]]]].
      exists r. split; [ exact Hr | ]. split; [ destruct Hin; auto | ].
      split; [ exact Hb | ]. intros x [<- | Hx]; [ lia | apply Hall, Hx ].
Qed.

(** The lookup of [handle_message]: when the chat has an active session,
    the one found is stored, belongs to the chat, is active and is the
    newest such session. *)
Lemma find_active_chat_newest ch w s0 :
  In s0 (interview_sessions w) ->
  active_in_chat ch s0 ->
  exists s,
    find_active_chat ch w = (Ok (Some s), w)
    /\ In s (interview_sessions w)
    /\ telegram_chat_id s = Some ch
    /\ status s = "active"
    /\ forall s', In s' (interview_sessions w) -> active_in_chat ch s' ->
                  created_at s' <= created_at s.
Proof.
  intros Hin [Hc Hs]. unfold find_active_chat, gets.
  set (sel := fun s => match telegram_chat_id s with
                       | Some t => String.eqb t ch
                       | None => false
                       end && String.eqb (status s) "active").
  assert (Hsel : forall x, sel x = true <-> active_in_chat ch x).
  { intro x. unfold sel, active_in_chat. rewrite andb_true_iff, String.eqb_eq.
    destruct (telegram_chat_id x) as [t | ].
    - rewrite String.eqb_eq. split; intros [A B]; split; congruence.
    - split; intros [A B]; [ discriminate | discriminate ]. }
  assert (Hf : In s0 (filter sel (interview_sessions w))).
  { apply filter_In. split; [ exact Hin | apply Hsel; split; assumption ]. }
  destruct (filter sel (interview_sessions w)) as [| y l] eqn:El; [ destruct Hf | ].
  simpl. destruct (fold_latest l y) as [r [Hr [Hrin [Hb Hall]]]].
  assert (Hr' : In r (filter sel (interview_sessions w))).
  { rewrite El. destruct Hrin as [-> | H]; [ left; reflexivity | right; exact H ]. }
  apply filter_In in Hr'. destruct Hr' as [Hri Hrs]. apply Hsel in Hrs.
  exists r. rewrite Hr. split; [ reflexivity | ]. split; [ exact Hri | ].
  split; [ apply Hrs | ]. split; [ apply Hrs | ].
  intros s' Hs' Ha.
  assert (Hf' : In s' (filter sel (interview_sessions w))).
  { apply filter_In. split; [ exact Hs' | apply Hsel, Ha ]. }
  rewrite El in Hf'. destruct Hf' as [<- | Hf']; [ exact Hb | apply Hall, Hf' ].
Qed.

(** X11.  When the chat has an active session, [handle_message] hands the
    text to [process_message] for one stored session, which belongs to the
    chat, is active and is the newest such session by [created_at]
    (completed and abandoned sessions are never chosen), and sends what
    that call returns to the chat, or the apology when it raises. *)
Theorem bot_message_goes_to_the_newest_active_session env ch text w s0 :
  In s0 (interview_sessions w) ->
  active_in_chat ch s0 ->
  exists s,
    In s (interview_sessions w)
    /\ telegram_chat_id s = Some ch
    /\ status s = "active"
    /\ (forall s', In s' (interview_sessions w) -> active_in_chat ch s' ->
                   created_at s' <= created_at s)
    /\ handle_message env ch text w
       = (Ok tt,
          with_telegram_outbox
            (fun l =>
               (l ++ [(ch,
                       match fst (process_message env (session_id s) text w) with
                       | Ok reply => reply
                       | Raise _ => "Sorry, I encountered an error. Please try again."
                       end)])%list)
            (snd (process_message env (session_id s) text w))).
Proof.
  intros Hin Ha.
  destruct (find_active_chat_newest ch w s0 Hin Ha) as [s [E [Hs [Hc [Hst Hnew]]]]].
  exists s. repeat (split; [ assumption | ]).
  unfold handle_message. unfold bind at 1. rewrite E.
  unfold try_except, bind, send_message, modify.
  destruct (process_message env (session_id s) text w) as [[reply | e] w1]; reflexivity.
Qed.

Lemma bot_message_goes_to_the_newest_active_session_witness :
  exists s,
    In s (interview_sessions busy_chat_world)
    /\ telegram_chat_id s = Some "77"
    /\ status s = "active"
    /\ (forall s', In s' (interview_sessions busy_chat_world) ->
                   active_in_chat "77" s' -> created_at s' <= created_at s)
    /\ handle_message (Demo.env [Demo.says "Noted."]) "77" "hello" busy_chat_world
       = (Ok tt,
          with_telegram_outbox
            (fun l =>
               (l ++ [("77",
                       match fst (process_message (Demo.env [Demo.says "Noted."])
                                    (session_id s) "hello" busy_chat_world) with
                       | Ok reply => reply
                       | Raise _ => "Sorry, I encountered an error. Please try again."
                       end)])%list)
            (snd (process_message (Demo.env [Demo.says "Noted."])
                    (session_id s) "hello" busy_chat_world))).
Proof.
  apply (bot_message_goes_to_the_newest_active_session
           (Demo.env [Demo.says "Noted."]) "77" "hello" busy_chat_world Demo.session).
  - left. reflexivity.
  - split; reflexivity.
Defined.

(** Of the three sessions of the chat, the older active one and the
    completed one are left alone: the newer active one receives the
    message and the answer, and the answer is sent to the chat. *)
Example bot_message_example :
  let w' := snd (handle_message (Demo.env [Demo.says "Noted."]) "77" "hello"
                   busy_chat_world) in
  map (fun s => (session_id s, status s, List.length (messages s)))
    (interview_sessions w')
  = [(4, "active", 1); (6, "active", 3); (7, "completed", 1)]
  /\ telegram_outbox w' = [("77", "Noted.")].
Proof. vm_compute. split; reflexivity. Qed.

Lemma handle_message_sends_one_reply_witness :
  handle_message (Demo.env []) "77" "hello" Demo.fresh
  = (Ok tt,
     with_telegram_outbox
       (fun l => (l ++ [("77", "You don't have an active interview. Type /start to apply.")])%list)
       Demo.fresh).
Proof.
  exact (proj2 (handle_message_sends_one_reply (Demo.env []) "77" "hello" Demo.fresh)
           eq_refl).
Defined.

Lemma get_target_org_id_world w : snd (get_target_org_id w) = w.
Proof.
  unfold get_target_org_id. unfold bind, gets.
  destruct (find _ (users w)); reflexivity.
Qed.

(** X12.  A first button click of a chat for a pipeline creates the
    candidate under a fresh id, active, in the target organization, with
    the chat's handle and the placeholder e-mail address; a second click
    finds that candidate and creates nothing. *)
Theorem candidate_is_created_once pid ch f l f' l' w org :
  Forall (fun c => cand_id c < next_oid w) (candidates w) ->
  find (applied_from ch pid) (candidates w) = None ->
  fst (get_target_org_id w) = Ok (Some org) ->
  exists w' c,
    find_or_create_candidate pid ch f l w = (Ok (next_oid w), w')
    /\ candidates w' = (candidates w ++ [c])%list
    /\ cand_id c = next_oid w /\ cand_organization_id c = org
    /\ cand_pipeline_id c = pid /\ cand_telegram_chat_id c = Some ch
    /\ email c = "telegram_" ++ ch ++ "@example.com" /\ cand_status c = "active"
    /\ find_or_create_candidate pid ch f' l' w' = (Ok (next_oid w), w').
Proof.
  intros Hwf Hnone Horg. unfold applied_from in Hnone.
  assert (Hfresh : find (fun c => Nat.eqb (cand_id c) (next_oid w)) (candidates w) = None).
  { clear Hnone. induction Hwf as [| x xs Hx _ IH]; simpl; [ reflexivity | ].
    destruct (Nat.eqb (cand_id x) (next_oid w)) eqn:E; [ | exact IH ].
    apply Nat.eqb_eq in E. lia. }
  pose proof (get_target_org_id_world w) as Hw.
  destruct (get_target_org_id w) as [r w0] eqn:Eorg. simpl in Horg, Hw. subst r w0.
  set (c0 := new_candidate (next_oid w) org pid (or_default f "Telegram")
               (or_default l "User") ch (clock w) (S (clock w))).
  set (w' := with_candidates
               (update_one (fun c => Nat.eqb (cand_id c) (next_oid w))
                  (set_candidate_chat_doc ch))
               (with_candidates (fun l0 => (l0 ++ [c0])%list)
                  (with_next_oid S (with_clock S (with_clock S w))))).
  assert (Hc : candidates w' = (candidates w ++ [set_candidate_chat_doc ch c0])%list).
  { simpl. apply (update_one_fresh _ _ _ c0 Hfresh). simpl. apply Nat.eqb_refl. }
  exists w', (set_candidate_chat_doc ch c0).
  split; [ | split; [ exact Hc | repeat split ] ].
  - unfold find_or_create_candidate. unfold bind at 1, gets at 1. rewrite Hnone.
    unfold bind at 1. rewrite Eorg. reflexivity.
  - unfold find_or_create_candidate. unfold bind at 1, gets at 1.
    rewrite Hc, find_app, Hnone. simpl.
    rewrite String.eqb_refl, Nat.eqb_refl. reflexivity.
Qed.

Lemma candidate_is_created_once_witness :
  exists w' c,
    find_or_create_candidate 2 "78" None None Demo.world = (Ok 5, w')
    /\ candidates w' = (candidates Demo.world ++ [c])%list
    /\ cand_id c = 5 /\ cand_organization_id c = 1
    /\ cand_pipeline_id c = 2 /\ cand_telegram_chat_id c = Some "78"
    /\ email c = "telegram_78@example.com" /\ cand_status c = "active"
    /\ find_or_create_candidate 2 "78" (Some "Ana") None w' = (Ok 5, w').
Proof.
  refine (candidate_is_created_once 2 "78" None None (Some "Ana") None Demo.world 1
            _ eq_refl eq_refl).
  constructor; [ simpl; lia | constructor ].
Defined.








(** The three kinds of second message: the opening message of the
    resumed interview, the request to start again when the model opens
    with an empty text, and the error text when the candidate's pipeline
    is gone. *)
Example button_click_example :
  map snd (telegram_outbox
             (snd (button_click (Demo.env []) 2 "77" None None Demo.world)))
  = ["Great! Starting your interview for the role... 🚀"; "Hello, shall we start?"]
  /\ map snd (telegram_outbox
                (snd (button_click (Demo.env [Demo.says ""]) 2 "77" None None
                        Demo.fresh)))
     = ["Great! Starting your interview for the role... 🚀";
        "Something went wrong initiating the interview. Please try /start again."]
  /\ map snd (telegram_outbox
                (snd (button_click (Demo.env []) 2 "77" None None orphaned_world)))
     = ["Great! Starting your interview for the role... 🚀";
        "Error starting interview: Pipeline not found"].
Proof. vm_compute. repeat split. Qed.

(* ================================================================== *)
(** ** The /start command and the callback data *)

Lemma split_without_sep sep s : has_char sep s = false -> Py.split sep s = [s].
Proof.
  induction s as [| c s IH]; simpl; [ reflexivity | ].
  intro H. apply orb_false_iff in H. destruct H as [Hc Hs].
  rewrite Hc, (IH Hs). reflexivity.
Qed.

Lemma split_at_sep sep a b :
  has_char sep a = false ->
  Py.split sep (a ++ String sep b) = a :: Py.split sep b.
Proof.
  induction a as [| c a IH]; simpl.
  - intros _. rewrite Ascii.eqb_refl. reflexivity.
  - intro H. apply orb_false_iff in H. destruct H as [Hc Ha].
    rewrite Hc, (IH Ha). reflexivity.
Qed.

Lemma hex_digit_not_underscore n : Ascii.eqb (bson.hex_digit n) "_" = false.
Proof.
  destruct n as [| p]; [ reflexivity | ].
  do 4 (try destruct p as [p | p | ]); reflexivity.
Qed.

Lemma hex_without_underscore digits :
  forall n acc, has_char "_" acc = false -> has_char "_" (bson.hex digits n acc) = false.
Proof.
  induction digits as [| d IH]; intros n acc H; simpl; [ exact H | ].
  apply IH. simpl. rewrite hex_digit_not_underscore. exact H.
Qed.

(** The data of an apply button gives back the id text it was built from. *)
Lemma callback_round_trip oid :
  callback_pipeline_id ("apply_" ++ bson.str oid) = Some (bson.str oid).
Proof.
  unfold callback_pipeline_id.
  change (String.prefix "apply_" ("apply_" ++ bson.str oid)) with true. cbv iota.
  change ("apply_" ++ bson.str oid) with ("apply" ++ String "_" (bson.str oid)).
  rewrite split_at_sep by reflexivity.
  rewrite split_without_sep by (apply hex_without_underscore; reflexivity).
  reflexivity.
Qed.

Lemma in_firstn {A : Type} (n : nat) (l : list A) (x : A) :
  In x (firstn n l) -> In x l.
Proof.
  revert l. induction n as [| n IH]; intros [| y l]; simpl; try (intros []; fail).
  intros [-> | H]; [ left; reflexivity | right; apply IH, H ].
Qed.

Lemma get_target_org_id_returns w : exists o, fst (get_target_org_id w) = Ok o.
Proof.
  unfold get_target_org_id. unfold bind, gets.
  destruct (find _ (users w)); eexists; reflexivity.
Qed.

(** X14.  The /start command never raises and offers only open positions:
    at most ten buttons, each labelled with the name of an active
    pipeline of the target organization and carrying the data "apply_"
    followed by the pipeline's id, from which [button_click] reads that
    same id text back; when the organization has at most ten open
    positions, each of them is offered. *)
Theorem start_offers_the_open_positions ch name w :
  exists kb,
    fst (start ch name w) = Ok kb
    /\ List.length kb <= 10
    /\ (forall label data,
           In (label, data) kb ->
           exists p,
             In p (pipelines w) /\ pl_status p = "active"
             /\ fst (get_target_org_id w) = Ok (Some (pl_organization_id p))
             /\ label = pl_name p
             /\ data = "apply_" ++ bson.str (pl_id p)
             /\ callback_pipeline_id data = Some (bson.str (pl_id p)))
    /\ (forall p,
           In p (pipelines w) -> pl_status p = "active" ->
           fst (get_target_org_id w) = Ok (Some (pl_organization_id p)) ->
           List.length (filter (open_position (pl_organization_id p)) (pipelines w)) <= 10 ->
           In (pl_name p, "apply_" ++ bson.str (pl_id p)) kb).
Proof.
  unfold start. unfold bind at 1, send_message at 1, modify at 1.
  unfold bind at 1.
  set (w1 := with_telegram_outbox _ w).
  assert (Horg : get_target_org_id w1 = (fst (get_target_org_id w), w1)).
  { unfold get_target_org_id. unfold bind, gets. simpl.
    destruct (find _ (users w)); reflexivity. }
  rewrite Horg. destruct (get_target_org_id_returns w) as [o Ho]. rewrite Ho.
  destruct o as [org | ].
  - unfold bind at 1, gets at 1. change (pipelines w1) with (pipelines w).
    fold (open_position org).
    set (offered := firstn 10 (filter (open_position org) (pipelines w))).
    assert (Hlen : List.length offered <= 10) by apply firstn_le_length.
    assert (Hin : forall p, In p offered ->
                            In p (pipelines w) /\ open_position org p = true).
    { intros p Hp. apply filter_In. eapply in_firstn. exact Hp. }
    exists (match offered with
            | [] => []
            | _ => map (fun p => (pl_name p, "apply_" ++ bson.str (pl_id p))) offered
            end).
    split; [ destruct offered; reflexivity | ].
    split; [ destruct offered; [ simpl; lia | rewrite length_map; exact Hlen ] | ].
    split.
    + intros label data Hkb.
      assert (Hmap : In (label, data)
                       (map (fun p => (pl_name p, "apply_" ++ bson.str (pl_id p)))
                          offered)).
      { destruct offered; [ destruct Hkb | exact Hkb ]. }
      apply in_map_iff in Hmap. destruct Hmap as [p [E Hp]]. inversion E; subst.
      destruct (Hin p Hp) as [Hpl Hop]. unfold open_position in Hop.
      apply andb_true_iff in Hop. destruct Hop as [Hpo Hs].
      apply Nat.eqb_eq in Hpo. apply String.eqb_eq in Hs.
      exists p. rewrite Hpo. repeat split; try assumption.
      apply callback_round_trip.
    + intros p Hp Hs Ho' Hfew. inversion Ho'; subst org.
      assert (Hoff : In p offered).
      { unfold offered. rewrite firstn_all2 by exact Hfew.
        apply filter_In. split; [ exact Hp | ].
        unfold open_position. rewrite Nat.eqb_refl, Hs. reflexivity. }
      destruct offered; [ destruct Hoff | ].
      apply (in_map (fun p => (pl_name p, "apply_" ++ bson.str (pl_id p)))), Hoff.
  - exists []. split; [ reflexivity | ]. split; [ simpl; lia | ].
    split; [ intros label data [] | intros p _ _ H; discriminate ].
Qed.

Example start_example :
  fst (start "77" "Ana" Demo.world)
  = Ok [("Operator", "apply_000000000000000000000002")].
Proof. vm_compute. reflexivity. Qed.

(* ================================================================== *)
(** ** The CRM update of a completed interview *)

Lemma truthy_some o : truthy o = true -> exists s, o = Some s /\ s <> "".
Proof.
  destruct o as [s | ]; simpl; [ | discriminate ].
  intro H. exists s. split; [ reflexivity | ].
  intro E. subst s. discriminate.
Qed.

(** X15.  The CRM sync of a completed interview sends at most one update,
    and none unless the candidate is stored with a non-empty record id,
    its organization is stored with a non-empty API key and base id, and
    its pipeline is stored with a non-empty table id; the update is then
    addressed to exactly that base, table and record, sets the status
    Interview Completed and carries the score, the summary and at most
    5000 characters of transcript.  Nothing else in the store changes. *)
Theorem crm_update_needs_all_settings env s total summary w :
  (snd (airtable_sync env s total summary w) = w)
  \/ exists c o cfg p rec key base table,
       find (fun d => Nat.eqb (cand_id d) (candidate_id s)) (candidates w) = Some c
       /\ find (fun d => Nat.eqb (org_id d) (cand_organization_id c)) (organizations w)
          = Some o
       /\ find (fun d => Nat.eqb (pl_id d) (cand_pipeline_id c)) (pipelines w) = Some p
       /\ airtable_record_id c = Some rec /\ rec <> ""
       /\ airtable_config o = Some cfg
       /\ api_key cfg = Some key /\ key <> ""
       /\ base_id cfg = Some base /\ base <> ""
       /\ airtable_table_id p = Some table /\ table <> ""
       /\ snd (airtable_sync env s total summary w)
          = with_airtable_calls
              (fun l =>
                 (l ++ [{| at_api_key := key; at_base_id := base; at_table_id := table;
                           at_record_id := rec; at_status := "Interview Completed";
                           at_notes :=
                             "SCORE: " ++ py_str env total ++ nl ++ nl
                             ++ "SUMMARY: " ++ py_str env summary ++ nl ++ nl
                             ++ "TRANSCRIPT:" ++ nl
                             ++ take 5000
                                  (join (nl ++ nl) (transcript (messages s))) |}])%list)
              w.
Proof.
  destruct (airtable_sync env s total summary w) as [r w'] eqn:E. simpl snd.
  revert E. unfold airtable_sync, find_candidate, find_organization, find_pipeline.
  unfold bind at 1, gets at 1.
  assert (Hleft : forall x : Result unit, (x, w) = (r, w') ->
            w' = w \/ exists c o cfg p rec key base table,
       find (fun d => Nat.eqb (cand_id d) (candidate_id s)) (candidates w) = Some c
       /\ find (fun d => Nat.eqb (org_id d) (cand_organization_id c)) (organizations w)
          = Some o
       /\ find (fun d => Nat.eqb (pl_id d) (cand_pipeline_id c)) (pipelines w) = Some p
       /\ airtable_record_id c = Some rec /\ rec <> ""
       /\ airtable_config o = Some cfg
       /\ api_key cfg = Some key /\ key <> ""
       /\ base_id cfg = Some base /\ base <> ""
       /\ airtable_table_id p = Some table /\ table <> ""
       /\ w'
          = with_airtable_calls
              (fun l =>
                 (l ++ [{| at_api_key := key; at_base_id := base; at_table_id := table;
                           at_record_id := rec; at_status := "Interview Completed";
                           at_notes :=
                             "SCORE: " ++ py_str env total ++ nl ++ nl
                             ++ "SUMMARY: " ++ py_str env summary ++ nl ++ nl
                             ++ "TRANSCRIPT:" ++ nl
                             ++ take 5000
                                  (join (nl ++ nl) (transcript (messages s))) |}])%list)
              w).
  { intros x H. inversion H. left. reflexivity. }
  destruct (find _ (candidates w)) as [c | ] eqn:Hc; [ | apply Hleft ].
  destruct (truthy (airtable_record_id c)) eqn:Hrec; [ | apply Hleft ].
  change (negb true) with false. cbv iota. unfold bind at 1, gets at 1.
  destruct (find _ (organizations w)) as [o | ] eqn:Ho; [ | apply Hleft ].
  unfold bind at 1, gets at 1.
  destruct (find _ (pipelines w)) as [p | ] eqn:Hp; [ | apply Hleft ].
  destruct (airtable_config o) as [cfg | ] eqn:Hcfg; [ | apply Hleft ].
  destruct (truthy (api_key cfg)) eqn:Hkey; [ | apply Hleft ].
  destruct (truthy (base_id cfg)) eqn:Hbase; [ | apply Hleft ].
  destruct (truthy (airtable_table_id p)) eqn:Htable; [ | apply Hleft ].
  change (negb (true && true && true)) with false. cbv iota.
  destruct (truthy_some _ Hrec) as [rec [Er Hr]].
  destruct (truthy_some _ Hkey) as [key [Ek Hk]].
  destruct (truthy_some _ Hbase) as [base [Eb Hb]].
  destruct (truthy_some _ Htable) as [table [Et Ht]].
  clear Hleft. intro E. inversion E; subst.
  right. exists c, o, cfg, p, rec, key, base, table.
  rewrite Er, Ek, Eb, Et. repeat split; try assumption; reflexivity.
Qed.

Example crm_update_example :
  map (fun u => (at_api_key u, at_base_id u, at_table_id u, at_record_id u, at_status u))
    (airtable_calls (snd (complete_interview (Demo.env []) Demo.session crm_world)))
  = [("key1", "app1", "tbl1", "rec1", "Interview Completed")].
Proof. vm_compute. reflexivity. Qed.

(* ================================================================== *)
(** ** Reading sessions back *)

Lemma session_of_doc_ok env d w s w' :
  InterviewSession_of_doc env d w = (Ok s, w') ->
  s = d /\ w' = w
  /\ status_literal (status d) && scores_valid (scores d)
     && pydantic_int env (total_score d) = true.
Proof.
  unfold InterviewSession_of_doc.
  destruct (status_literal (status d) && scores_valid (scores d)
            && pydantic_int env (total_score d)).
  - intro H. inversion H. repeat split.
  - discriminate.
Qed.

Lemma fetch_session_ok env sid w s w' :
  fetch_session env sid w = (Ok s, w') ->
  status_literal (status s) && scores_valid (scores s)
  && pydantic_int env (total_score s) = true.
Proof.
  unfold fetch_session, find_session. unfold bind, gets.
  destruct (find _ (interview_sessions w)) as [d | ]; [ | discriminate ].
  intro H. destruct (session_of_doc_ok _ _ _ _ _ H) as [-> [_ Hv]]. exact Hv.
Qed.

Lemma greet_and_fetch_ok env s0 sid w s w' :
  (_generate_initial_greeting env s0 ;;; fetch_session env sid) w = (Ok s, w') ->
  status_literal (status s) && scores_valid (scores s)
  && pydantic_int env (total_score s) = true.
Proof.
  unfold bind.
  destruct (_generate_initial_greeting env s0 w) as [[[] | e] w1]; [ | discriminate ].
  apply fetch_session_ok.
Qed.

(** A session that [create_session] returns has passed the model's checks. *)
Lemma create_session_returns_loaded env cid pf ch w s w' :
  create_session env cid pf ch w = (Ok s, w') ->
  status_literal (status s) && scores_valid (scores s)
  && pydantic_int env (total_score s) = true.
Proof.
  unfold create_session, find_candidate, find_pipeline, find_active_session.
  unfold bind at 1, gets at 1.
  destruct (find _ (candidates w)) as [c | ]; [ | discriminate ].
  unfold bind at 1, gets at 1.
  destruct (find _ (pipelines w)) as [p | ]; [ | discriminate ].
  unfold bind at 1, gets at 1.
  destruct (find _ (interview_sessions w)) as [ex | ].
  - destruct (messages ex) as [| m ms].
    + unfold bind at 1.
      destruct (InterviewSession_of_doc env ex w) as [[x | e] w1]; [ | discriminate ].
      apply greet_and_fetch_ok.
    + intro H. destruct (session_of_doc_ok _ _ _ _ _ H) as [-> [_ Hv]]. exact Hv.
  - unfold bind at 1.
    destruct (insert_session cid (cand_pipeline_id c) pf ch w) as [[x | e] w1];
      [ | discriminate ].
    apply greet_and_fetch_ok.
Qed.

(** X16.  A session handed out by the start endpoint can be read back: on
    a store with unique session ids, reading the returned session's id
    gives the very session that was returned, it is active, and the
    read writes nothing. *)
Theorem started_session_can_be_read env cid pf ch w s w' :
  ids_wf w ->
  routers.start_interview env cid pf ch w = (Ok s, w') ->
  routers.get_session env (session_id s) w' = (Ok s, w')
  /\ status s = "active".
Proof.
  intros Hwf. unfold routers.start_interview, try_except.
  destruct (create_session env cid pf ch w) as [[s1 | e] w1] eqn:E.
  - intro H. inversion H; subst s1 w1.
    destruct (create_session_spec _ _ _ _ _ _ _ E) as [_ Hret].
    destruct (Hret Hwf s eq_refl) as [Hfind Hact].
    pose proof (create_session_returns_loaded _ _ _ _ _ _ _ E) as Hv.
    split; [ | exact Hact ].
    unfold routers.get_session, find_session. unfold bind, gets.
    fold (by_id (session_id s)). rewrite Hfind.
    unfold InterviewSession_of_doc. rewrite Hv. reflexivity.
  - unfold routers.to_http. destruct (is_ValueError e); discriminate.
Qed.

Lemma started_session_can_be_read_witness :
  exists s w',
    routers.start_interview (Demo.env []) 3 web_simulator None Demo.world = (Ok s, w')
    /\ routers.get_session (Demo.env []) (session_id s) w' = (Ok s, w')
    /\ status s = "active".
Proof.
  exists Demo.session, Demo.world. split; [ reflexivity | ].
  apply (started_session_can_be_read (Demo.env []) 3 web_simulator None Demo.world).
  - split; simpl.
    + constructor; [ intros [] | constructor ].
    + constructor; [ simpl; lia | constructor ].
  - reflexivity.
Defined.

(** [Py.sorted] gives a permutation in ascending key order. *)
Lemma insert_by_perm {A : Type} (key : A -> Z) (x : A) (l : list A) :
  Permutation (Py.insert_by key x l) (x :: l).
Proof.
  induction l as [| y l IH]; simpl; [ apply Permutation_refl | ].
  destruct (key x <=? key y)%Z; [ apply Permutation_refl | ].
  eapply Permutation_trans; [ apply perm_skip, IH | apply perm_swap ].
Qed.

Lemma sorted_perm {A : Type} (key : A -> Z) (l : list A) :
  Permutation (Py.sorted key l) l.
Proof.
  induction l as [| x l IH]; simpl; [ apply perm_nil | ].
  eapply Permutation_trans; [ apply insert_by_perm | apply perm_skip, IH ].
Qed.

Lemma insert_by_sorted {A : Type} (key : A -> Z) (x : A) (l : list A) :
  StronglySorted (fun a b => (key a <= key b)%Z) l ->
  StronglySorted (fun a b => (key a <= key b)%Z) (Py.insert_by key x l).
Proof.
  induction 1 as [| y l Hs IH Hy]; simpl.
  - constructor; constructor.
  - destruct (key x <=? key y)%Z eqn:E.
    + apply Z.leb_le in E. constructor; [ constructor; assumption | ].
      constructor; [ exact E | ].
      eapply Forall_impl; [ | exact Hy ]. simpl. intros a Ha. lia.
    + apply Z.leb_gt in E. constructor; [ exact IH | ].
      eapply Permutation_Forall;
        [ apply Permutation_sym, insert_by_perm | constructor; [ lia | exact Hy ] ].
Qed.

Lemma sorted_sorted {A : Type} (key : A -> Z) (l : list A) :
  StronglySorted (fun a b => (key a <= key b)%Z) (Py.sorted key l).
Proof.
  induction l as [| x l IH]; simpl; [ constructor | ].
  apply insert_by_sorted, IH.
Qed.

Lemma firstn_sorted {A : Type} (R : A -> A -> Prop) (n : nat) (l : list A) :
  StronglySorted R l -> StronglySorted R (firstn n l).
Proof.
  intro H. revert n. induction H as [| x l Hs IH Hx]; intros [| n]; simpl;
    try constructor.
  - apply IH.
  - apply Forall_forall. intros y Hy. rewrite Forall_forall in Hx.
    apply Hx. eapply in_firstn. exact Hy.
Qed.

(** X17.  The list of a candidate's sessions is read without writing
    anything; when it is returned it holds only stored sessions of that
    candidate, whatever their status, newest first, at most a hundred of
    them, and all of them when the candidate has no more than a hundred. *)
Theorem candidate_sessions_are_listed_newest_first pydantic_float cid w :
  snd (routers.get_candidate_sessions pydantic_float cid w) = w
  /\ forall l,
       fst (routers.get_candidate_sessions pydantic_float cid w) = Ok l ->
       (forall s, In s l -> In s (interview_sessions w) /\ candidate_id s = cid)
       /\ List.length l <= 100
       /\ StronglySorted (fun a b => created_at b <= created_at a) l
       /\ (List.length (filter (routers.of_candidate cid) (interview_sessions w)) <= 100 ->
           forall s, In s (interview_sessions w) -> candidate_id s = cid -> In s l).
Proof.
  unfold routers.get_candidate_sessions. unfold bind, gets.
  set (mine := filter (routers.of_candidate cid) (interview_sessions w)).
  set (listed := firstn 100 (routers.newest_first mine)).
  assert (Hin : forall s, In s listed -> In s (interview_sessions w) /\ candidate_id s = cid).
  { intros s Hs. apply in_firstn in Hs.
    apply (Permutation_in _ (sorted_perm _ mine)) in Hs.
    apply filter_In in Hs. destruct Hs as [Hs Hc].
    split; [ exact Hs | apply Nat.eqb_eq, Hc ]. }
  assert (Hsorted : StronglySorted (fun a b => created_at b <= created_at a) listed).
  { apply firstn_sorted. unfold routers.newest_first.
    eapply StronglySorted_ind with (l := Py.sorted _ mine);
      [ constructor | | apply sorted_sorted ].
    intros a l _ IH Ha. constructor; [ exact IH | ].
    eapply Forall_impl; [ | exact Ha ]. simpl. intros b Hb. lia. }
  destruct (forallb (routers.response_valid pydantic_float) listed);
    (split; [ reflexivity | ]); simpl; intros l H; inversion H; subst l.
  split; [ exact Hin | ]. split; [ apply firstn_le_length | ].
  split; [ exact Hsorted | ].
  intros Hfew s Hs Hc. unfold listed.
  rewrite firstn_all2.
  - apply (Permutation_in _ (Permutation_sym (sorted_perm _ mine))).
    apply filter_In. split; [ exact Hs | apply Nat.eqb_eq, Hc ].
  - unfold routers.newest_first.
    rewrite (Permutation_length (sorted_perm _ mine)). exact Hfew.
Qed.

Example candidate_sessions_example :
  map (fun s => (session_id s, status s))
    (match fst (routers.get_candidate_sessions Demo.is_int 3
                  (run (Demo.env []) (ButtonClick 2 "77" None None) stuck_world)) with
     | Ok l => l
     | Raise _ => []
     end)
  = [(5, "active"); (4, "abandoned")].
Proof. vm_compute. reflexivity. Qed.

(* ================================================================== *)
(** ** Question management *)

Lemma find_update_one_other {A : Type} (p q : A -> bool) (f : A -> A) (l : list A) :
  (forall x, p x = true -> q x = false) ->
  (forall x, q (f x) = q x) ->
  find q (update_one p f l) = find q l.
Proof.
  intros Hpq Hq. induction l as [| y l IH]; simpl; [ reflexivity | ].
  destruct (p y) eqn:E; simpl.
  - rewrite Hq, (Hpq y E). reflexivity.
  - destruct (q y); [ reflexivity | exact IH ].
Qed.

Lemma find_existsb {A : Type} (p : A -> bool) (l : list A) (x : A) :
  find p l = Some x -> existsb p l = true.
Proof.
  intro H. apply find_some in H. apply existsb_exists. exists x. exact H.
Qed.

(** The pipeline of the caller's organization, before and after a write
    to it by id. *)
Lemma find_own env_org pid (l : list Pipeline) p :
  find (fun d => Nat.eqb (pl_id d) pid) l = Some p ->
  pl_organization_id p = env_org ->
  find (fun d => Nat.eqb (pl_id d) pid && Nat.eqb (pl_organization_id d) env_org) l
  = Some p.
Proof.
  intros H E. apply (find_by_id_and _ (fun d => Nat.eqb (pl_organization_id d) env_org));
    [ exact H | apply Nat.eqb_eq, E ].
Qed.

Lemma find_stored pid (f : Pipeline -> Pipeline) (l : list Pipeline) p :
  (forall x, pl_id (f x) = pl_id x) ->
  find (fun d => Nat.eqb (pl_id d) pid) l = Some p ->
  find (fun d => Nat.eqb (pl_id d) pid)
    (update_one (fun d => Nat.eqb (pl_id d) pid) f l) = Some (f p).
Proof.
  intros Hf H. apply find_update_one; [ | exact H ].
  intro y. rewrite Hf. reflexivity.
Qed.

Lemma find_other_pipeline pid pid' (f : Pipeline -> Pipeline) (l : list Pipeline) :
  (forall x, pl_id (f x) = pl_id x) -> pid' <> pid ->
  find (fun d => Nat.eqb (pl_id d) pid')
    (update_one (fun d => Nat.eqb (pl_id d) pid) f l)
  = find (fun d => Nat.eqb (pl_id d) pid') l.
Proof.
  intros Hf Hne. apply find_update_one_other.
  - intros x Hx. apply Nat.eqb_eq in Hx. apply Nat.eqb_neq. congruence.
  - intro x. rewrite Hf. reflexivity.
Qed.

(** X18.  A question added to a stage is returned with the identifier
    drawn for it and is then listed last in that stage; the lists of the
    other stages and the other pipelines are as before. *)
Theorem added_question_is_listed pid sid request org uuid4 w p stage :
  find (fun d => Nat.eqb (pl_id d) pid) (pipelines w) = Some p ->
  pl_organization_id p = org ->
  find (routers.is_stage sid) (stages p) = Some stage ->
  exists w',
    routers.add_question pid sid request org uuid4 w
    = (Ok (routers.new_question uuid4 request), w')
    /\ routers.list_questions pid sid org w'
       = (Ok (questions stage ++ [routers.new_question uuid4 request])%list, w')
    /\ (forall sid', sid' <> sid ->
          fst (routers.list_questions pid sid' org w')
          = fst (routers.list_questions pid sid' org w))
    /\ (forall pid', pid' <> pid ->
          find (fun d => Nat.eqb (pl_id d) pid') (pipelines w')
          = find (fun d => Nat.eqb (pl_id d) pid') (pipelines w)).
Proof.
  intros Hp Horg Hst.
  set (q := routers.new_question uuid4 request).
  set (sts := update_one (routers.is_stage sid)
                (fun st => routers.set_questions (questions st ++ [q]) st) (stages p)).
  set (w' := with_pipelines
               (update_one (fun d => Nat.eqb (pl_id d) pid) (routers.set_stages_doc sts))
               w).
  assert (Hp' : find (fun d => Nat.eqb (pl_id d) pid) (pipelines w')
                = Some (routers.set_stages_doc sts p)).
  { simpl. apply find_stored; [ reflexivity | exact Hp ]. }
  exists w'. split; [ | split; [ | split ] ].
  - unfold routers.add_question, routers.find_own_pipeline. unfold bind at 1, gets at 1.
    rewrite (find_own org pid _ p Hp Horg), (find_existsb _ _ _ Hst). reflexivity.
  - unfold routers.list_questions, routers.find_own_pipeline. unfold bind, gets.
    rewrite (find_own org pid _ _ Hp' Horg).
    change (stages (routers.set_stages_doc sts p)) with sts. unfold sts.
    rewrite (find_update_one _ _ _ stage); [ reflexivity | reflexivity | exact Hst ].
  - intros sid' Hne.
    unfold routers.list_questions, routers.find_own_pipeline. unfold bind, gets.
    rewrite (find_own org pid _ _ Hp' Horg), (find_own org pid _ _ Hp Horg).
    change (stages (routers.set_stages_doc sts p)) with sts. unfold sts.
    rewrite find_update_one_other; [ | | reflexivity ].
    + destruct (find (routers.is_stage sid') (stages p)); reflexivity.
    + intros x Hx. unfold routers.is_stage in *. apply String.eqb_eq in Hx.
      apply String.eqb_neq. congruence.
  - intros pid' Hne. simpl. apply find_other_pipeline; [ reflexivity | exact Hne ].
Qed.

Lemma added_question_is_listed_witness :
  exists w',
    routers.add_question 2 "s1" salary_request 1 "q2" screening_world
    = (Ok (routers.new_question "q2" salary_request), w')
    /\ routers.list_questions 2 "s1" 1 w'
       = (Ok [screening_question; routers.new_question "q2" salary_request], w').
Proof.
  destruct (added_question_is_listed 2 "s1" salary_request 1 "q2" screening_world
              screening_pipeline
              {| stage_id := "s1"; stage_name := "Screen";
                 questions := [screening_question] |}
              eq_refl eq_refl eq_refl) as [w' [H1 [H2 _]]].
  exists w'. split; [ exact H1 | exact H2 ].
Defined.

Lemma pop_first_added {A : Type} (p : A -> bool) (l : list A) (x : A) :
  existsb p l = false -> p x = true -> routers.pop_first p (l ++ [x]) = l.
Proof.
  intros Hl Hx. induction l as [| y l IH]; simpl in *.
  - rewrite Hx. reflexivity.
  - apply orb_false_iff in Hl. destruct Hl as [Hy Hl]. rewrite Hy, (IH Hl).
    reflexivity.
Qed.

Lemma update_one_twice {A : Type} (p : A -> bool) (f g : A -> A) (l : list A) :
  (forall x, p (f x) = p x) ->
  update_one p g (update_one p f l) = update_one p (fun x => g (f x)) l.
Proof.
  intro Hp. induction l as [| y l IH]; simpl; [ reflexivity | ].
  destruct (p y) eqn:E; simpl.
  - rewrite Hp, E. reflexivity.
  - rewrite E, IH. reflexivity.
Qed.

Lemma update_one_found_same {A : Type} (p : A -> bool) (f : A -> A) (l : list A) (x : A) :
  find p l = Some x -> f x = x -> update_one p f l = l.
Proof.
  intros H Hf. induction l as [| y l IH]; simpl in *; [ reflexivity | ].
  destruct (p y).
  - inversion H; subst. rewrite Hf. reflexivity.
  - rewrite (IH H). reflexivity.
Qed.

(** X19.  Adding a question under an identifier that the stage does not
    use yet and deleting that identifier again restores the pipelines
    exactly: the delete removes the added question and nothing else. *)
Theorem add_then_delete_restores pid sid request org uuid4 w p stage :
  find (fun d => Nat.eqb (pl_id d) pid) (pipelines w) = Some p ->
  pl_organization_id p = org ->
  find (routers.is_stage sid) (stages p) = Some stage ->
  existsb (routers.is_question uuid4) (questions stage) = false ->
  exists w1 w2,
    routers.add_question pid sid request org uuid4 w
    = (Ok (routers.new_question uuid4 request), w1)
    /\ routers.delete_question pid sid uuid4 org w1
       = (Ok "Question deleted successfully", w2)
    /\ pipelines w2 = pipelines w.
Proof.
  intros Hp Horg Hst Hnew.
  set (q := routers.new_question uuid4 request).
  assert (Hq : routers.is_question uuid4 q = true) by apply String.eqb_refl.
  set (sts := update_one (routers.is_stage sid)
                (fun st => routers.set_questions (questions st ++ [q]) st) (stages p)).
  set (w1 := with_pipelines
               (update_one (fun d => Nat.eqb (pl_id d) pid) (routers.set_stages_doc sts))
               w).
  assert (Hp1 : find (fun d => Nat.eqb (pl_id d) pid) (pipelines w1)
                = Some (routers.set_stages_doc sts p)).
  { simpl. apply find_stored; [ reflexivity | exact Hp ]. }
  assert (Hst1 : find (routers.is_stage sid) sts
                 = Some (routers.set_questions (questions stage ++ [q]) stage)).
  { unfold sts.
    apply (find_update_one _ (fun st => routers.set_questions (questions st ++ [q]) st)
             _ stage); [ reflexivity | exact Hst ]. }
  set (sts2 := update_one (routers.is_stage sid)
                 (fun st =>
                    routers.set_questions
                      (routers.pop_first (routers.is_question uuid4) (questions st)) st)
                 sts).
  assert (Hback : sts2 = stages p).
  { unfold sts2, sts. rewrite update_one_twice by reflexivity.
    apply (update_one_found_same _ _ _ stage Hst).
    simpl. rewrite (pop_first_added _ _ _ Hnew Hq). destruct stage; reflexivity. }
  exists w1.
  exists (with_pipelines
            (update_one (fun d => Nat.eqb (pl_id d) pid) (routers.set_stages_doc sts2))
            w1).
  split; [ | split ].
  - unfold routers.add_question, routers.find_own_pipeline. unfold bind at 1, gets at 1.
    rewrite (find_own org pid _ p Hp Horg), (find_existsb _ _ _ Hst). reflexivity.
  - unfold routers.delete_question, routers.find_own_pipeline.
    unfold bind at 1, gets at 1. rewrite (find_own org pid _ _ Hp1 Horg).
    change (stages (routers.set_stages_doc sts p)) with sts. rewrite Hst1.
    change (questions (routers.set_questions (questions stage ++ [q]) stage))
      with (questions stage ++ [q])%list.
    rewrite existsb_app, Hnew.
    change (existsb (routers.is_question uuid4) [q])
      with (routers.is_question uuid4 q || false).
    rewrite Hq. reflexivity.
  - simpl. rewrite Hback, update_one_twice by reflexivity.
    apply (update_one_found_same _ _ _ p Hp). destruct p; reflexivity.
Qed.

Lemma add_then_delete_restores_witness :
  exists w1 w2,
    routers.add_question 2 "s1" salary_request 1 "q2" screening_world
    = (Ok (routers.new_question "q2" salary_request), w1)
    /\ routers.delete_question 2 "s1" "q2" 1 w1 = (Ok "Question deleted successfully", w2)
    /\ pipelines w2 = pipelines screening_world.
Proof.
  exact (add_then_delete_restores 2 "s1" salary_request 1 "q2" screening_world
           screening_pipeline
           {| stage_id := "s1"; stage_name := "Screen";
              questions := [screening_question] |}
           eq_refl eq_refl eq_refl eq_refl).
Defined.


Lemma find_foreign pid org (l : list Pipeline) :
  (forall p, In p l -> pl_id p = pid -> pl_organization_id p <> org) ->
  find (fun d => Nat.eqb (pl_id d) pid && Nat.eqb (pl_organization_id d) org) l = None.
Proof.
  intro H. destruct (find _ l) as [p | ] eqn:E; [ | reflexivity ].
  apply find_some in E. destruct E as [Hin Hp].
  apply andb_true_iff in Hp. destruct Hp as [Hi Ho].
  apply Nat.eqb_eq in Hi. apply Nat.eqb_eq in Ho.
  destruct (H p Hin Hi Ho).
Qed.

(** X20.  Tenant isolation of the pipeline endpoints: when the pipeline
    of the given id belongs to another organization (or does not exist),
    adding, deleting and listing questions, configuring, reading and
    auto-configuring the interview agent are all answered 404 "Pipeline
    not found" and write nothing. *)
Theorem foreign_pipelines_are_out_of_reach pid org w :
  (forall p, In p (pipelines w) -> pl_id p = pid -> pl_organization_id p <> org) ->
  (forall sid request uuid4,
      routers.add_question pid sid request org uuid4 w
      = (Raise (routers.HTTP 404 "Pipeline not found"), w))
  /\ (forall sid qid,
         routers.delete_question pid sid qid org w
         = (Raise (routers.HTTP 404 "Pipeline not found"), w))
  /\ (forall sid,
         routers.list_questions pid sid org w
         = (Raise (routers.HTTP 404 "Pipeline not found"), w))
  /\ (forall request,
         routers.configure_interview_agent pid request org w
         = (Raise (routers.HTTP 404 "Pipeline not found"), w))
  /\ routers.get_interview_agent pid org w
     = (Raise (routers.HTTP 404 "Pipeline not found"), w)
  /\ (forall target,
         routers.auto_configure_interview_agent pid target org w
         = (Raise (routers.HTTP 404 "Pipeline not found"), w)).
Proof.
  intro H. pose proof (find_foreign pid org _ H) as Hnone.
  repeat split; intros;
    unfold routers.add_question, routers.delete_question, routers.list_questions,
      routers.configure_interview_agent, routers.get_interview_agent,
      routers.auto_configure_interview_agent, routers.find_own_pipeline;
    unfold bind, gets; rewrite Hnone; reflexivity.
Qed.

Lemma foreign_pipelines_are_out_of_reach_witness :
  routers.list_questions 2 "s1" 7 screening_world
  = (Raise (routers.HTTP 404 "Pipeline not found"), screening_world)
  /\ routers.get_interview_agent 2 7 screening_world
     = (Raise (routers.HTTP 404 "Pipeline not found"), screening_world).
Proof.
  assert (H : forall p, In p (pipelines screening_world) -> pl_id p = 2 ->
                        pl_organization_id p <> 7).
  { intros p [<- | []] _. discriminate. }
  destruct (foreign_pipelines_are_out_of_reach 2 7 screening_world H)
    as [_ [_ [Hl [_ [Hg _]]]]].
  split; [ exact (Hl "s1") | exact Hg ].
Defined.

(** X21.  Requests on an own pipeline that miss their target write
    nothing: adding to or listing a stage that the pipeline does not have
    is answered 404 "Stage not found"; deleting a question from a missing
    stage, or a question that the stage does not hold, 404 "Question not
    found"; reading an agent that was never configured, 404 "Interview
    agent not configured". *)
Theorem missing_targets_write_nothing pid org w p :
  find (fun d => Nat.eqb (pl_id d) pid) (pipelines w) = Some p ->
  pl_organization_id p = org ->
  (forall sid,
      find (routers.is_stage sid) (stages p) = None ->
      (forall request uuid4,
          routers.add_question pid sid request org uuid4 w
          = (Raise (routers.HTTP 404 "Stage not found"), w))
      /\ routers.list_questions pid sid org w
         = (Raise (routers.HTTP 404 "Stage not found"), w)
      /\ (forall qid,
             routers.delete_question pid sid qid org w
             = (Raise (routers.HTTP 404 "Question not found"), w)))
  /\ (forall sid stage qid,
         find (routers.is_stage sid) (stages p) = Some stage ->
         existsb (routers.is_question qid) (questions stage) = false ->
         routers.delete_question pid sid qid org w
         = (Raise (routers.HTTP 404 "Question not found"), w))
  /\ (interview_agent p = None ->
      routers.get_interview_agent pid org w
      = (Raise (routers.HTTP 404 "Interview agent not configured"), w)).
Proof.
  intros Hp Horg. pose proof (find_own org pid _ p Hp Horg) as Hown.
  split; [ | split ].
  - intros sid Hnone.
    assert (Hex : existsb (routers.is_stage sid) (stages p) = false).
    { destruct (existsb (routers.is_stage sid) (stages p)) eqn:E; [ | reflexivity ].
      apply existsb_exists in E. destruct E as [x [Hx Hs]].
      pose proof (find_none _ _ Hnone x Hx) as Hn. congruence. }
    repeat split; intros;
      unfold routers.add_question, routers.list_questions, routers.delete_question,
        routers.find_own_pipeline;
      unfold bind, gets; rewrite Hown; rewrite ?Hex, ?Hnone; reflexivity.
  - intros sid stage qid Hst Hq.
    unfold routers.delete_question, routers.find_own_pipeline.
    unfold bind, gets. rewrite Hown, Hst, Hq. reflexivity.
  - intro Ha. unfold routers.get_interview_agent, routers.find_own_pipeline.
    unfold bind, gets. rewrite Hown, Ha. reflexivity.
Qed.

Lemma missing_targets_write_nothing_witness :
  routers.list_questions 2 "s9" 1 screening_world
  = (Raise (routers.HTTP 404 "Stage not found"), screening_world)
  /\ routers.delete_question 2 "s1" "q9" 1 screening_world
     = (Raise (routers.HTTP 404 "Question not found"), screening_world)
  /\ routers.get_interview_agent 2 1 screening_world
     = (Raise (routers.HTTP 404 "Interview agent not configured"), screening_world).
Proof.
  destruct (missing_targets_write_nothing 2 1 screening_world screening_pipeline
              eq_refl eq_refl) as [Hs [Hq Ha]].
  split; [ exact (proj1 (proj2 (Hs "s9" eq_refl))) | ].
  split; [ exact (Hq "s1" _ "q9" eq_refl eq_refl) | exact (Ha eq_refl) ].
Defined.

(* ================================================================== *)
(** ** The interview agent of a pipeline *)

Lemma get_system_prompt_of pid w p :
  find (fun d => Nat.eqb (pl_id d) pid) (pipelines w) = Some p ->
  get_system_prompt pid w
  = (Ok match interview_agent p with
        | Some a =>
            if enabled a then fill_template (agent_prompt a) (prompt_questions p)
            else "You are a helpful interviewer. Please ask questions in English."
        | None => "You are a helpful interviewer. Please ask questions in English."
        end, w).
Proof.
  intro Hp. unfold get_system_prompt, find_pipeline, prompt_questions.
  unfold bind, gets. rewrite Hp.
  destruct (interview_agent p) as [a | ]; [ | reflexivity ].
  destruct (enabled a); [ | reflexivity ].
  destruct (flat_map _ (stages p)); reflexivity.
Qed.

(** X22.  The agent configured for a pipeline is the one read back
    afterwards (without its API key) and the one the sessions of the
    pipeline are prompted with: when it is enabled its prompt is the
    template of the system prompt, filled with the pipeline's questions;
    when it is disabled the sessions get the fixed fallback prompt.  The
    other pipelines are left as they are. *)
Theorem configured_agent_is_served pid request org w p :
  find (fun d => Nat.eqb (pl_id d) pid) (pipelines w) = Some p ->
  pl_organization_id p = org ->
  exists w',
    routers.configure_interview_agent pid request org w
    = (Ok (routers.agent_response request), w')
    /\ routers.get_interview_agent pid org w'
       = (Ok (routers.agent_response request), w')
    /\ get_system_prompt pid w'
       = (Ok (if enabled request
              then fill_template (agent_prompt request) (prompt_questions p)
              else "You are a helpful interviewer. Please ask questions in English."),
          w')
    /\ (forall pid', pid' <> pid ->
          find (fun d => Nat.eqb (pl_id d) pid') (pipelines w')
          = find (fun d => Nat.eqb (pl_id d) pid') (pipelines w)).
Proof.
  intros Hp Horg.
  set (w' := with_pipelines
               (update_one (fun d => Nat.eqb (pl_id d) pid) (routers.set_agent_doc request))
               w).
  assert (Hp' : find (fun d => Nat.eqb (pl_id d) pid) (pipelines w')
                = Some (routers.set_agent_doc request p)).
  { simpl. apply find_stored; [ reflexivity | exact Hp ]. }
  exists w'. split; [ | split; [ | split ] ].
  - unfold routers.configure_interview_agent, routers.find_own_pipeline.
    unfold bind at 1, gets at 1. rewrite (find_own org pid _ p Hp Horg). reflexivity.
  - unfold routers.get_interview_agent, routers.find_own_pipeline.
    unfold bind, gets. rewrite (find_own org pid _ _ Hp' Horg). reflexivity.
  - rewrite (get_system_prompt_of pid w' _ Hp'). reflexivity.
  - intros pid' Hne. simpl. apply find_other_pipeline; [ reflexivity | exact Hne ].
Qed.

Lemma configured_agent_is_served_witness :
  exists w',
    routers.configure_interview_agent 2 Demo.agent 1 screening_world
    = (Ok (routers.agent_response Demo.agent), w')
    /\ routers.get_interview_agent 2 1 w' = (Ok (routers.agent_response Demo.agent), w')
    /\ get_system_prompt 2 w'
       = (Ok (if enabled Demo.agent
              then fill_template (agent_prompt Demo.agent)
                     (prompt_questions screening_pipeline)
              else "You are a helpful interviewer. Please ask questions in English."),
          w').
Proof.
  destruct (configured_agent_is_served 2 Demo.agent 1 screening_world screening_pipeline
              eq_refl eq_refl) as [w' [H1 [H2 [H3 _]]]].
  exists w'. split; [ exact H1 | ]. split; [ exact H2 | exact H3 ].
Defined.

(** X23.  Auto-configuration of a pipeline with questions to draw on
    stores and returns an enabled agent whose prompt is the prompt
    generated from those questions; an agent configured before keeps its
    name, provider, model, temperature, language and key, a pipeline
    without one gets the defaults (Laura, openai, gpt-4, es); the stored
    agent is the one read back afterwards. *)
Theorem auto_configure_installs_the_generated_prompt pid target org w p q qs :
  find (fun d => Nat.eqb (pl_id d) pid) (pipelines w) = Some p ->
  pl_organization_id p = org ->
  routers.gather_questions p target = q :: qs ->
  exists a w',
    routers.auto_configure_interview_agent pid target org w = (Ok a, w')
    /\ enabled a = true
    /\ agent_prompt a = prompt_generator.generate_system_prompt (q :: qs)
    /\ match interview_agent p with
       | Some old =>
           agent_name a = agent_name old /\ llm_provider a = llm_provider old
           /\ llm_model a = llm_model old /\ temperature a = temperature old
           /\ language a = language old /\ agent_api_key a = agent_api_key old
       | None =>
           agent_name a = "Laura" /\ llm_provider a = "openai"
           /\ llm_model a = "gpt-4" /\ language a = "es" /\ agent_api_key a = None
       end
    /\ find (fun d => Nat.eqb (pl_id d) pid) (pipelines w')
       = Some (routers.set_agent_doc a p)
    /\ routers.get_interview_agent pid org w' = (Ok (routers.agent_response a), w').
Proof.
  intros Hp Horg Hq.
  set (a := match interview_agent p with
            | Some old =>
                routers.with_prompt (prompt_generator.generate_system_prompt (q :: qs)) old
            | None =>
                routers.default_agent (prompt_generator.generate_system_prompt (q :: qs))
            end).
  set (w' := with_pipelines
               (update_one (fun d => Nat.eqb (pl_id d) pid) (routers.set_agent_doc a)) w).
  assert (Hp' : find (fun d => Nat.eqb (pl_id d) pid) (pipelines w')
                = Some (routers.set_agent_doc a p)).
  { simpl. apply find_stored; [ reflexivity | exact Hp ]. }
  exists a, w'. split; [ | split; [ | split; [ | split; [ | split ] ] ] ].
  - unfold routers.auto_configure_interview_agent. unfold bind at 1, gets at 1.
    rewrite (find_own org pid _ p Hp Horg), Hq. reflexivity.
  - unfold a. destruct (interview_agent p); reflexivity.
  - unfold a. destruct (interview_agent p); reflexivity.
  - unfold a. destruct (interview_agent p); repeat split.
  - exact Hp'.
  - unfold routers.get_interview_agent, routers.find_own_pipeline.
    unfold bind, gets. rewrite (find_own org pid _ _ Hp' Horg). reflexivity.
Qed.

Lemma auto_configure_installs_the_generated_prompt_witness :
  exists a w',
    routers.auto_configure_interview_agent 2 None 1 screening_world = (Ok a, w')
    /\ enabled a = true
    /\ agent_prompt a = prompt_generator.generate_system_prompt [screening_question].
Proof.
  destruct (auto_configure_installs_the_generated_prompt 2 None 1 screening_world
              screening_pipeline screening_question [] eq_refl eq_refl eq_refl)
    as [a [w' [H1 [H2 [H3 _]]]]].
  exists a, w'. split; [ exact H1 | ]. split; [ exact H2 | exact H3 ].
Defined.

(* ================================================================== *)
(** ** Templates and generated prompts *)

Lemma prefix_absent c0 old s :
  has_char c0 s = false -> String.prefix (String c0 old) s = false.
Proof.
  destruct s as [| c s]; simpl; [ reflexivity | ].
  intro H. apply orb_false_iff in H. destruct H as [Hc _].
  destruct (ascii_dec c0 c) as [-> | _]; [ | reflexivity ].
  rewrite Ascii.eqb_refl in Hc. discriminate.
Qed.

Lemma replace_absent c0 old new s :
  has_char c0 s = false -> Py.replace (String c0 old) new s = s.
Proof.
  unfold Py.replace. induction s as [| c s IH]; [ reflexivity | ].
  intro H. unfold Py.replace_from; fold Py.replace_from.
  rewrite (prefix_absent c0 old _ H).
  simpl in H. apply orb_false_iff in H. destruct H as [_ Hs].
  rewrite (IH Hs). reflexivity.
Qed.

Lemma fill_template_verbatim template entries :
  has_char "{" template = false -> fill_template template entries = template.
Proof.
  intro H. unfold fill_template.
  rewrite (replace_absent "{" _ _ _ H), (replace_absent "{" _ _ _ H),
    (replace_absent "{" _ _ _ H), (replace_absent "{" _ _ _ H).
  reflexivity.
Qed.

(** X24.  Placeholders are the only thing prompt compilation touches: an
    enabled agent's prompt that holds no brace is served to the model
    exactly as it was configured, whatever the pipeline's questions. *)
Theorem prompt_without_placeholders_is_served_verbatim pid w p a :
  find (fun d => Nat.eqb (pl_id d) pid) (pipelines w) = Some p ->
  interview_agent p = Some a ->
  enabled a = true ->
  has_char "{" (agent_prompt a) = false ->
  get_system_prompt pid w = (Ok (agent_prompt a), w).
Proof.
  intros Hp Ha He Hb. rewrite (get_system_prompt_of pid w p Hp), Ha, He.
  rewrite (fill_template_verbatim _ _ Hb). reflexivity.
Qed.

Lemma has_char_app c a b : has_char c (a ++ b) = has_char c a || has_char c b.
Proof.
  induction a as [| x a IH]; simpl; [ reflexivity | ].
  rewrite IH, orb_assoc. reflexivity.
Qed.

Lemma has_char_concat c sep parts :
  has_char c sep = false ->
  Forall (fun s => has_char c s = false) parts ->
  has_char c (String.concat sep parts) = false.
Proof.
  intros Hsep H. induction H as [| x l Hx Hl IH]; simpl; [ reflexivity | ].
  destruct l as [| y l]; [ exact Hx | ].
  rewrite !has_char_app, Hx, Hsep. exact IH.
Qed.

Lemma digits_without_brace d : has_char "{" (NilEmpty.string_of_uint d) = false.
Proof. induction d; simpl; auto. Qed.

Lemma str_of_nat_without_brace n : has_char "{" (str_of_nat n) = false.
Proof.
  unfold str_of_nat, NilZero.string_of_uint.
  destruct (Nat.to_uint n) eqn:E; try reflexivity;
    rewrite <- E; apply digits_without_brace.
Qed.

Lemma prompt_without_placeholders_is_served_verbatim_witness :
  get_system_prompt 2 plain_world
  = (Ok "Ask the candidate about their last job, then end the interview.", plain_world).
Proof.
  exact (prompt_without_placeholders_is_served_verbatim 2 plain_world
           (routers.set_agent_doc plain_agent screening_pipeline) plain_agent
           eq_refl eq_refl eq_refl eq_refl).
Defined.

Lemma logic_for_without_brace num cond :
  has_char "{" num = false -> has_char "{" cond = false ->
  Forall (fun s => has_char "{" s = false) (prompt_generator.logic_for num cond).
Proof.
  intros Hn Hc. unfold prompt_generator.logic_for.
  destruct (String.eqb (lower cond) "yes");
    [ | destruct (String.eqb (lower cond) "no");
        [ | destruct (String.eqb (lower cond) "ai_judgment") ] ];
    repeat constructor; rewrite !has_char_app, ?Hn, ?Hc; reflexivity.
Qed.

Lemma enumerate_from_snd {A : Type} (P : A -> Prop) (l : list A) :
  Forall P l -> forall i, Forall (fun iq => P (snd iq)) (enumerate_from i l).
Proof.
  induction 1 as [| x l Hx _ IH]; intro i; simpl; constructor; auto.
Qed.

Lemma question_lines_without_brace iq :
  brace_free (snd iq) -> has_char "{" (prompt_generator.question_lines iq) = false.
Proof.
  intros [Ht Hf]. unfold prompt_generator.question_lines.
  pose proof (str_of_nat_without_brace (fst iq + 1)) as Hn.
  destruct (follow_up (snd iq)) as [f | ].
  - destruct Hf as [Hft _]. rewrite !has_char_app, Hn, Ht, Hft. reflexivity.
  - rewrite !has_char_app, Hn, Ht. reflexivity.
Qed.

Lemma question_logic_without_brace iq :
  brace_free (snd iq) ->
  Forall (fun s => has_char "{" s = false) (prompt_generator.question_logic iq).
Proof.
  intros [_ Hf]. unfold prompt_generator.question_logic.
  destruct (follow_up (snd iq)) as [f | ]; [ | constructor ].
  apply logic_for_without_brace; [ apply str_of_nat_without_brace | apply Hf ].
Qed.

Lemma Forall_flat_map {A B : Type} (P : B -> Prop) (f : A -> list B) (l : list A) :
  Forall (fun x => Forall P (f x)) l -> Forall P (flat_map f l).
Proof.
  induction 1 as [| x l Hx _ IH]; simpl; [ constructor | ].
  apply Forall_app. split; assumption.
Qed.

(** A prompt generated from questions without braces holds no brace. *)
Lemma generated_prompt_without_brace qs :
  Forall brace_free qs ->
  has_char "{" (prompt_generator.generate_system_prompt qs) = false.
Proof.
  intro H. unfold prompt_generator.generate_system_prompt.
  assert (Hs : Forall (fun iq => brace_free (snd iq))
                 (enumerate (Py.sorted order qs))).
  { apply enumerate_from_snd.
    eapply Permutation_Forall; [ apply Permutation_sym, sorted_perm | exact H ]. }
  set (numbered := enumerate (Py.sorted order qs)) in *.
  assert (Hlist : has_char "{"
                    (String.concat "" (map prompt_generator.question_lines numbered))
                  = false).
  { apply has_char_concat; [ reflexivity | ]. apply Forall_map.
    eapply Forall_impl; [ | exact Hs ]. apply question_lines_without_brace. }
  assert (Hlogic : has_char "{"
                     (join (nl ++ "   ")
                        (flat_map prompt_generator.question_logic numbered))
                   = false).
  { apply has_char_concat; [ reflexivity | ]. apply Forall_flat_map.
    eapply Forall_impl; [ | exact Hs ]. apply question_logic_without_brace. }
  pose proof (str_of_nat_without_brace (List.length (Py.sorted order qs))) as Htotal.
  set (total_main := str_of_nat (List.length (Py.sorted order qs))) in *.
  set (question_list_text :=
         String.concat "" (map prompt_generator.question_lines numbered)) in *.
  set (logic_block :=
         join (nl ++ "   ") (flat_map prompt_generator.question_logic numbered)) in *.
  unfold prompt_generator.prompt.
  apply has_char_concat; [ reflexivity | ].
  repeat constructor; rewrite ?has_char_app, ?Htotal, ?Hlogic, ?Hlist; reflexivity.
Qed.

(** X25.  After auto-configuration the sessions of the pipeline are
    prompted with exactly the generated prompt, provided that no question
    text, follow-up text or follow-up condition it was generated from
    holds a brace: prompt compilation finds no placeholder to fill. *)
Theorem auto_configured_prompt_is_served_verbatim pid target org w p q qs :
  find (fun d => Nat.eqb (pl_id d) pid) (pipelines w) = Some p ->
  pl_organization_id p = org ->
  routers.gather_questions p target = q :: qs ->
  Forall brace_free (q :: qs) ->
  exists a w',
    routers.auto_configure_interview_agent pid target org w = (Ok a, w')
    /\ get_system_prompt pid w'
       = (Ok (prompt_generator.generate_system_prompt (q :: qs)), w').
Proof.
  intros Hp Horg Hq Hb.
  set (a := match interview_agent p with
            | Some old =>
                routers.with_prompt (prompt_generator.generate_system_prompt (q :: qs)) old
            | None =>
                routers.default_agent (prompt_generator.generate_system_prompt (q :: qs))
            end).
  set (w' := with_pipelines
               (update_one (fun d => Nat.eqb (pl_id d) pid) (routers.set_agent_doc a)) w).
  assert (Hp' : find (fun d => Nat.eqb (pl_id d) pid) (pipelines w')
                = Some (routers.set_agent_doc a p)).
  { simpl. apply find_stored; [ reflexivity | exact Hp ]. }
  assert (Ha : enabled a = true
               /\ agent_prompt a = prompt_generator.generate_system_prompt (q :: qs)).
  { unfold a. destruct (interview_agent p); split; reflexivity. }
  destruct Ha as [He Hpr].
  exists a, w'. split.
  - unfold routers.auto_configure_interview_agent. unfold bind at 1, gets at 1.
    rewrite (find_own org pid _ p Hp Horg), Hq. reflexivity.
  - rewrite (get_system_prompt_of pid w' _ Hp').
    change (interview_agent (routers.set_agent_doc a p)) with (Some a).
    cbv iota. rewrite He, Hpr.
    rewrite (fill_template_verbatim _ _ (generated_prompt_without_brace _ Hb)).
    reflexivity.
Qed.

Lemma auto_configured_prompt_is_served_verbatim_witness :
  exists a w',
    routers.auto_configure_interview_agent 2 None 1 screening_world = (Ok a, w')
    /\ get_system_prompt 2 w'
       = (Ok (prompt_generator.generate_system_prompt [screening_question]), w').
Proof.
  apply (auto_configured_prompt_is_served_verbatim 2 None 1 screening_world
           screening_pipeline screening_question [] eq_refl eq_refl eq_refl).
  constructor; [ | constructor ].
  split; [ reflexivity | split; reflexivity ].
Defined.

Lemma sorted_unique {A : Type} (key : A -> Z) (l1 : list A) :
  forall l2,
    StronglySorted (fun a b => (key a <= key b)%Z) l1 ->
    StronglySorted (fun a b => (key a <= key b)%Z) l2 ->
    Permutation l1 l2 -> NoDup (map key l1) -> l1 = l2.
Proof.
  induction l1 as [| a l1 IH]; intros l2 S1 S2 P N.
  - apply Permutation_nil in P. congruence.
  - destruct l2 as [| b l2];
      [ apply Permutation_sym, Permutation_nil in P; discriminate | ].
    inversion S1 as [| ? ? S1' F1]; subst. inversion S2 as [| ? ? S2' F2]; subst.
    inversion N as [| ? ? Hnot N']; subst.
    rewrite Forall_forall in F1, F2.
    assert (Hab : a = b).
    { assert (Ha : In a (b :: l2))
        by (apply (Permutation_in _ P); left; reflexivity).
      assert (Hb : In b (a :: l1))
        by (apply (Permutation_in _ (Permutation_sym P)); left; reflexivity).
      destruct Hb as [Hb | Hb]; [ exact Hb | ].
      destruct Ha as [Ha | Ha]; [ symmetry; exact Ha | ].
      exfalso. apply Hnot.
      assert (E : key a = key b).
      { pose proof (F1 b Hb). pose proof (F2 a Ha). lia. }
      rewrite E. apply in_map, Hb. }
    subst b. f_equal. apply IH; try assumption.
    apply (Permutation_cons_inv P).
Qed.

Lemma sorted_of_permutation {A : Type} (key : A -> Z) (l l' : list A) :
  Permutation l l' -> NoDup (map key l) -> Py.sorted key l = Py.sorted key l'.
Proof.
  intros P N. apply (sorted_unique key); try apply sorted_sorted.
  - eapply Permutation_trans; [ apply sorted_perm | ].
    eapply Permutation_trans; [ exact P | apply Permutation_sym, sorted_perm ].
  - eapply Permutation_NoDup; [ | exact N ].
    apply Permutation_map, Permutation_sym, sorted_perm.
Qed.

(** X26.  The generated prompt depends on the order fields of the
    questions, not on the order in which they are stored: for questions
    with pairwise distinct order fields, two listings of the same
    questions generate the same prompt. *)
Theorem generated_prompt_ignores_storage_order qs qs' :
  Permutation qs qs' ->
  NoDup (map order qs) ->
  prompt_generator.generate_system_prompt qs
  = prompt_generator.generate_system_prompt qs'.
Proof.
  intros P N. unfold prompt_generator.generate_system_prompt.
  rewrite (sorted_of_permutation order qs qs' P N). reflexivity.
Qed.

Lemma generated_prompt_ignores_storage_order_witness :
  prompt_generator.generate_system_prompt [screening_question; opening_question]
  = prompt_generator.generate_system_prompt [opening_question; screening_question].
Proof.
  apply generated_prompt_ignores_storage_order.
  - apply perm_swap.
  - constructor; [ intros [H | []]; discriminate | ].
    constructor; [ intros [] | constructor ].
Defined.

(* ================================================================== *)
(** ** The allowed origins *)

Lemma split_length sep s : List.length (Py.split sep s) = S (count_char sep s).
Proof.
  induction s as [| c s IH]; simpl; [ reflexivity | ].
  destruct (Ascii.eqb c sep); simpl; [ rewrite IH; reflexivity | ].
  destruct (Py.split sep s) as [| piece pieces]; [ discriminate | exact IH ].
Qed.

Lemma split_pieces sep s :
  Forall (fun piece => has_char sep piece = false) (Py.split sep s).
Proof.
  induction s as [| c s IH]; simpl; [ repeat constructor | ].
  destruct (Ascii.eqb c sep) eqn:E; [ constructor; [ reflexivity | exact IH ] | ].
  destruct (Py.split sep s) as [| piece pieces].
  - constructor; [ simpl; rewrite E; reflexivity | constructor ].
  - inversion IH; subst. constructor; [ simpl; rewrite E; assumption | assumption ].
Qed.

Lemma lstrip_keeps c s : has_char c s = false -> has_char c (Py.lstrip s) = false.
Proof.
  induction s as [| x s IH]; simpl; [ reflexivity | ].
  intro H. destruct (is_space x); [ | exact H ].
  apply IH. apply orb_false_iff in H. apply H.
Qed.

Lemma rstrip_keeps c s : has_char c s = false -> has_char c (Py.rstrip s) = false.
Proof.
  induction s as [| x s IH]; simpl; [ reflexivity | ].
  intro H. apply orb_false_iff in H. destruct H as [Hx Hs].
  specialize (IH Hs). destruct (Py.rstrip s) as [| y r].
  - destruct (is_space x); [ reflexivity | simpl; rewrite Hx; reflexivity ].
  - simpl in *. rewrite Hx. exact IH.
Qed.

Lemma lstrip_first s c : first_char (Py.lstrip s) = Some c -> is_space c = false.
Proof.
  induction s as [| x s IH]; simpl; [ discriminate | ].
  destruct (is_space x) eqn:E; [ exact IH | ].
  simpl. intro H. inversion H; subst. exact E.
Qed.

Lemma rstrip_first s c : first_char (Py.rstrip s) = Some c -> first_char s = Some c.
Proof.
  destruct s as [| x s]; simpl; [ discriminate | ].
  destruct (Py.rstrip s) as [| y r].
  - destruct (is_space x); [ discriminate | exact (fun H => H) ].
  - exact (fun H => H).
Qed.

Lemma rstrip_last s c : last_char (Py.rstrip s) = Some c -> is_space c = false.
Proof.
  induction s as [| x s IH]; simpl; [ discriminate | ].
  destruct (Py.rstrip s) as [| y r].
  - destruct (is_space x) eqn:E; [ discriminate | ].
    simpl. intro H. inversion H; subst. exact E.
  - change (last_char (String x (String y r)))
      with (match last_char (String y r) with Some z => Some z | None => Some x end).
    destruct (last_char (String y r)) as [z | ] eqn:El.
    + intro H. inversion H; subst. apply IH. reflexivity.
    + simpl in El. destruct (last_char r); discriminate.
Qed.

(** X27.  The list of allowed origins has one entry more than the setting
    has commas, so it is never empty; no entry holds a comma, and none
    begins or ends with white space. *)
Theorem allowed_origins_are_split_and_trimmed allowed_origins :
  List.length (allowed_origins_list allowed_origins)
  = S (count_char "," allowed_origins)
  /\ Forall (fun origin => has_char "," origin = false /\ trimmed origin)
       (allowed_origins_list allowed_origins).
Proof.
  unfold allowed_origins_list. split.
  - rewrite length_map. apply split_length.
  - apply Forall_map. eapply Forall_impl; [ | apply split_pieces ].
    intros piece Hp. unfold Py.strip. split; [ apply rstrip_keeps, lstrip_keeps, Hp | ].
    split.
    + intros c Hc. apply rstrip_first in Hc. apply (lstrip_first _ _ Hc).
    + apply rstrip_last.
Qed.

Example allowed_origins_example :
  allowed_origins_list "http://localhost:5173, http://localhost:3000 ,"
  = ["http://localhost:5173"; "http://localhost:3000"; ""].
Proof. reflexivity. Qed.

(* ================================================================== *)
(** ** Ending an interview whose pipeline is gone *)

Lemma turn_end_without_pipeline env sid d msgs w resp before tc rest :
  client env (List.length (llm_calls w)) (chat_request msgs) = Returned resp ->
  ai_tool_calls resp = (before ++ tc :: rest)%list ->
  Forall (answered env) before ->
  String.eqb (tc_name tc) "end_interview" = true ->
  (exists a, json_loads env (tc_arguments tc) = inl a) ->
  find (fun x => Nat.eqb (pl_id x) (pipeline_id d)) (pipelines w) = None ->
  exists w',
    turn env sid d msgs w = (Raise (no_attribute_get "NoneType"), w')
    /\ interview_sessions w' = interview_sessions w
    /\ llm_calls w' = (llm_calls w ++ [(Chat, chat_request msgs, Returned resp)])%list.
Proof.
  intros Hcall Htools Hb Hname Hargs Hp.
  unfold turn. unfold bind at 1, chat_completions_create. rewrite Hcall.
  set (w2 := with_llm_calls
               (fun l => (l ++ [(Chat, chat_request msgs, Returned resp)])%list) w).
  unfold bind at 1.
  destruct (log_usage_run env resp (candidate_id d) Chat w2)
    as [w3 [E3 [S3 [P3 [L3 _]]]]].
  rewrite E3. simpl in S3, P3, L3.
  exists w3. split; [ | split; [ exact S3 | exact L3 ] ].
  destruct (ai_tool_calls resp) as [| t ts] eqn:Et;
    [ destruct before; discriminate | ].
  rewrite Htools. unfold bind at 1.
  rewrite (run_tool_calls_until_end env d before tc rest Hb Hname Hargs).
  unfold bind at 1, complete_interview. unfold bind at 1.
  unfold evaluate_interview, find_pipeline. unfold bind at 1, gets at 1.
  rewrite P3, Hp. reflexivity.
Qed.

(** X28.  An interview whose pipeline is no longer stored cannot be
    ended: when the model calls [end_interview] (with arguments that
    parse, after tool calls the loop answers), the completion flow fails
    before the scoring call, the turn answers with the error text, the
    session stays active and only the candidate's message is stored. *)
Theorem interview_cannot_end_without_its_pipeline
    env sid text w d resp before tc rest :
  find (by_id sid) (interview_sessions w) = Some d ->
  status d = "active" ->
  scores_valid (scores d) = true ->
  pydantic_int env (total_score d) = true ->
  find (fun x => Nat.eqb (pl_id x) (pipeline_id d)) (pipelines w) = None ->
  client env (List.length (llm_calls w)) (chat_request (turn_history w d text))
  = Returned resp ->
  ai_tool_calls resp = (before ++ tc :: rest)%list ->
  Forall (answered env) before ->
  tc_name tc = "end_interview" ->
  (exists a, json_loads env (tc_arguments tc) = inl a) ->
  fst (process_message env sid text w)
  = Ok "Error: 'NoneType' object has no attribute 'get'"
  /\ map call_kind (new_calls w (snd (process_message env sid text w))) = [Chat]
  /\ exists d',
       find (by_id sid) (interview_sessions (snd (process_message env sid text w)))
       = Some d'
       /\ status d' = "active"
       /\ messages d' = (messages d ++ [plain_message "user" text])%list.
Proof.
  intros Hd Hs Hv Hi Hp Hcall Htools Hb Hname Hargs.
  rewrite (process_message_active_run env sid text w d Hd Hs Hv Hi).
  set (w1 := with_interview_sessions
               (update_one (by_id sid)
                  (push_message_doc (plain_message "user" text) (clock w)))
               (with_clock S w)).
  assert (Hend : String.eqb (tc_name tc) "end_interview" = true).
  { rewrite Hname. reflexivity. }
  destruct (turn_end_without_pipeline env sid d (turn_history w d text) w1 resp
              before tc rest Hcall Htools Hb Hend Hargs Hp) as [w' [E [S L]]].
  unfold try_except. rewrite E. simpl fst. simpl snd.
  split; [ reflexivity | ]. split.
  - rewrite (new_calls_app w w' [(Chat, chat_request (turn_history w d text),
                                  Returned resp)]); [ reflexivity | exact L ].
  - eexists. split.
    + rewrite S. simpl. apply find_update_one; [ reflexivity | exact Hd ].
    + split; [ exact Hs | reflexivity ].
Qed.

Lemma interview_cannot_end_without_its_pipeline_witness :
  fst (process_message (Demo.env [Demo.calls [Demo.end_call "{}"]]) 4 "bye"
         orphaned_world)
  = Ok "Error: 'NoneType' object has no attribute 'get'"
  /\ map status
       (interview_sessions
          (snd (process_message (Demo.env [Demo.calls [Demo.end_call "{}"]]) 4 "bye"
                  orphaned_world)))
     = ["active"].
Proof.
  pose proof (interview_cannot_end_without_its_pipeline
                (Demo.env [Demo.calls [Demo.end_call "{}"]])
                4 "bye" orphaned_world Demo.session
                {| ai_content := None; ai_tool_calls := [Demo.end_call "{}"];
                   usage := None |}
                [] (Demo.end_call "{}") []
                eq_refl eq_refl eq_refl eq_refl eq_refl eq_refl eq_refl
                (Forall_nil _) eq_refl
                (ex_intro _ (JObject []) eq_refl)) as [H1 _].
  split; [ exact H1 | vm_compute; reflexivity ].
Defined.

(* ================================================================== *)
(** ** Replacing a stuck session *)

(** The opening block always returns; it stores at most one message, in
    the log of its session. *)
Lemma greeting_run env s w :
  exists w',
    _generate_initial_greeting env s w = (Ok tt, w')
    /\ (interview_sessions w' = interview_sessions w
        \/ exists m now,
             interview_sessions w'
             = update_one (by_id (session_id s)) (push_message_doc m now)
                 (interview_sessions w)).
Proof.
  unfold _generate_initial_greeting, try_except.
  unfold bind at 1. rewrite get_system_prompt_run.
  unfold bind at 1, chat_completions_create.
  match goal with |- context [client env ?n ?req] =>
    destruct (client env n req) as [r | e] end.
  - unfold bind at 1.
    match goal with |- context [log_usage_if_present env r ?c ?k ?w0] =>
      destruct (log_usage_run env r c k w0) as [w3 [E3 [S3 _]]] end.
    rewrite E3. simpl in S3.
    destruct (ai_content r) as [t | ].
    + destruct (String.eqb t "").
      * exists w3. split; [ reflexivity | left; exact S3 ].
      * eexists. split; [ reflexivity | ]. right.
        exists (assistant_message t), (clock w3). simpl. rewrite S3. reflexivity.
    + eexists. split; [ reflexivity | ]. right.
      eexists. exists (clock w3). simpl. rewrite S3. reflexivity.
  - eexists. split; [ reflexivity | ]. right.
    eexists. exists (clock w). reflexivity.
Qed.


(** A candidate without an active session gets a new one, whatever the
    opening call does. *)
Lemma create_session_fresh_any env cid pf ch w c p :
  Forall (fun s => session_id s < next_oid w) (interview_sessions w) ->
  find (fun d => Nat.eqb (cand_id d) cid) (candidates w) = Some c ->
  find (fun d => Nat.eqb (pl_id d) (cand_pipeline_id c)) (pipelines w) = Some p ->
  find (is_active_for cid) (interview_sessions w) = None ->
  pydantic_int env (JInt 0) = true ->
  exists s w',
    create_session env cid pf ch w = (Ok s, w')
    /\ interview_sessions w' = (interview_sessions w ++ [s])%list
    /\ session_id s = next_oid w /\ candidate_id s = cid /\ platform s = pf
    /\ telegram_chat_id s = ch /\ status s = "active".
Proof.
  intros Hwf Hc Hp Hnone Hint.
  set (s0 := new_session (next_oid w) cid (cand_pipeline_id c) pf ch
               (clock w) (S (clock w))).
  set (w1 := with_interview_sessions (fun l => (l ++ [s0])%list)
               (with_next_oid S (with_clock S (with_clock S w)))).
  destruct (greeting_run env s0 w1) as [w2 [Eg [Hsame | [m [now Es]]]]].
  - assert (Hfresh : find (by_id (next_oid w)) (interview_sessions w) = None)
      by (apply find_fresh_id, Hwf).
    exists s0, w2. split; [ | split; [ exact Hsame | repeat split ] ].
    unfold create_session, find_candidate, find_pipeline, find_active_session.
    unfold bind at 1, gets at 1. rewrite Hc.
    unfold bind at 1, gets at 1. rewrite Hp.
    unfold bind at 1, gets at 1. rewrite Hnone.
    unfold bind at 1.
    change (insert_session cid (cand_pipeline_id c) pf ch w) with (Ok s0, w1).
    unfold bind at 1. rewrite Eg.
    unfold fetch_session, find_session. unfold bind at 1, gets at 1.
    change (session_id s0) with (next_oid w). fold (by_id (next_oid w)).
    rewrite Hsame.
    change (interview_sessions w1) with (interview_sessions w ++ [s0])%list.
    rewrite find_app, Hfresh.
    unfold s0, by_id. simpl. rewrite Nat.eqb_refl.
    unfold InterviewSession_of_doc. simpl. rewrite Hint. reflexivity.
  - assert (Hpush : greeting_pushes env s0 w1 m).
    { exists w2, now. split; [ exact Eg | exact Es ]. }
    destruct (create_session_fresh env cid pf ch w c p m Hwf Hc Hp Hnone Hint Hpush)
      as [s [H1 [H2 [H3 [H4 [_ [H6 [H7 [H8 _]]]]]]]]].
    destruct (create_session env cid pf ch w) as [r w'] eqn:E. simpl in H1, H2.
    subst r. exists s, w'. repeat split; assumption.
Qed.

Lemma one_active_in_tail y l : one_active_in (y :: l) -> one_active_in l.
Proof.
  intros H cid. specialize (H cid). unfold active_count in *. simpl in H.
  destruct (is_active_for cid y); simpl in H; lia.
Qed.

Lemma find_active_none cid l :
  active_count cid l = 0 -> find (is_active_for cid) l = None.
Proof.
  unfold active_count. induction l as [| y l IH]; simpl; [ reflexivity | ].
  destruct (is_active_for cid y); simpl; [ discriminate | exact IH ].
Qed.

(** Once the one active session of a candidate is abandoned, the
    candidate has none. *)
Lemma abandon_clears_active cid l s :
  one_active_in l ->
  find (is_active_for cid) l = Some s ->
  find (by_id (session_id s)) l = Some s ->
  find (is_active_for cid)
    (update_one (by_id (session_id s)) (set_status_doc "abandoned") l) = None.
Proof.
  induction l as [| y l IH]; simpl; [ discriminate | ].
  intros Hone Hact Hid.
  destruct (by_id (session_id s) y) eqn:Ey.
  - inversion Hid; subst y. simpl.
    assert (Hs : is_active_for cid s = true).
    { destruct (is_active_for cid s) eqn:E; [ reflexivity | ].
      apply find_some in Hact. destruct Hact as [_ H]. congruence. }
    assert (Hab : is_active_for cid (set_status_doc "abandoned" s) = false).
    { unfold is_active_for. simpl. apply andb_false_r. }
    rewrite Hab. apply find_active_none.
    specialize (Hone cid). unfold active_count in *. simpl in Hone.
    rewrite Hs in Hone. simpl in Hone. lia.
  - simpl. destruct (is_active_for cid y) eqn:Ea.
    + inversion Hact; subst y. unfold by_id in Ey. rewrite Nat.eqb_refl in Ey.
      discriminate.
    + apply IH; [ eapply one_active_in_tail; exact Hone | exact Hact | exact Hid ].
Qed.

Lemma stuck_has_messages s : stuck s = true -> messages s <> [].
Proof. unfold stuck. destruct (messages s); [ discriminate | discriminate ]. Qed.

(** The body of the try block of [button_click], for a candidate whose
    active session is stuck. *)
Lemma open_interview_replaces env cid ch w c p s :
  ids_wf w ->
  one_active w ->
  find (fun d => Nat.eqb (cand_id d) cid) (candidates w) = Some c ->
  find (fun d => Nat.eqb (pl_id d) (cand_pipeline_id c)) (pipelines w) = Some p ->
  find (is_active_for cid) (interview_sessions w) = Some s ->
  stuck s = true ->
  scores_valid (scores s) = true ->
  pydantic_int env (total_score s) = true ->
  pydantic_int env (JInt 0) = true ->
  exists s' w',
    open_interview env cid ch w = (Ok tt, w')
    /\ interview_sessions w'
       = (update_one (by_id (session_id s)) (set_status_doc "abandoned")
            (interview_sessions w) ++ [s'])%list
    /\ session_id s' = next_oid w /\ candidate_id s' = cid
    /\ platform s' = telegram /\ telegram_chat_id s' = Some ch
    /\ status s' = "active".
Proof.
  intros [Hd Hb] Hone Hc Hp Hact Hstuck Hv Hi Hint.
  destruct (find_some _ _ Hact) as [Hin Ha].
  apply is_active_for_candidate in Ha. destruct Ha as [_ Hst].
  pose proof (find_by_id_unique _ _ Hd Hin) as Hfind.
  (* the first call resumes the stuck session *)
  assert (E1 : create_session env cid telegram (Some ch) w = (Ok s, w)).
  { unfold create_session, find_candidate, find_pipeline, find_active_session.
    unfold bind at 1, gets at 1. rewrite Hc.
    unfold bind at 1, gets at 1. rewrite Hp.
    unfold bind at 1, gets at 1. rewrite Hact.
    pose proof (stuck_has_messages s Hstuck) as Hm.
    destruct (messages s) as [| m ms]; [ contradiction | ].
    unfold InterviewSession_of_doc. rewrite Hv, Hi, Hst. reflexivity. }
  (* the second call finds no active session *)
  set (w2 := with_interview_sessions
               (update_one (fun x => Nat.eqb (session_id x) (session_id s))
                  (set_status_doc "abandoned")) w).
  assert (Hb2 : Forall (fun x => session_id x < next_oid w2) (interview_sessions w2)).
  { simpl. apply Forall_forall. intros x Hx.
    assert (Hix : In (session_id x) (map session_id (interview_sessions w))).
    { rewrite <- (map_update_one session_id
                    (fun x => Nat.eqb (session_id x) (session_id s))
                    (set_status_doc "abandoned") (interview_sessions w))
        by reflexivity.
      apply in_map, Hx. }
    apply in_map_iff in Hix. destruct Hix as [y [Ey Hy]].
    rewrite Forall_forall in Hb. rewrite <- Ey. apply Hb, Hy. }
  assert (Hnone : find (is_active_for cid) (interview_sessions w2) = None).
  { simpl. apply (abandon_clears_active cid _ s Hone Hact Hfind). }
  destruct (create_session_fresh_any env cid telegram (Some ch) w2 c p
              Hb2 Hc Hp Hnone Hint)
    as [s' [w3 [E2 [S3 [I3 [C3 [P3 [T3 A3]]]]]]]].
  assert (Hshow : exists w',
             match List.last (map Some (messages s')) None with
             | Some last_msg =>
                 if String.eqb (role last_msg) "assistant"
                 then send_message ch (str_or_None (content last_msg))
                 else send_message ch went_wrong
             | None => send_message ch went_wrong
             end w3 = (Ok tt, w')
             /\ interview_sessions w' = interview_sessions w3).
  { destruct (List.last (map Some (messages s')) None) as [m | ];
      [ destruct (String.eqb (role m) "assistant") | ];
      eexists; split; reflexivity. }
  destruct Hshow as [w' [E3 S']].
  exists s', w'. split; [ | split; [ rewrite S', S3; reflexivity | ] ].
  - unfold open_interview. unfold bind at 1. rewrite E1.
    unfold bind at 1. rewrite Hstuck.
    unfold bind at 1, modify at 1. fold w2. rewrite E2. exact E3.
  - repeat split; assumption.
Qed.

(** X29.  Stuck-session recovery: when the candidate of the chat has an
    active session whose last message is not the assistant's, a click on
    the apply button marks that session abandoned and opens a new active
    session for the candidate on the bot channel under a fresh id; the
    stored sessions are the former ones, with that one mark, and the new
    session after them. *)
Theorem stuck_session_is_replaced env pid ch f l w c p s :
  ids_wf w ->
  one_active w ->
  find (applied_from ch pid) (candidates w) = Some c ->
  find (fun d => Nat.eqb (cand_id d) (cand_id c)) (candidates w) = Some c ->
  find (fun d => Nat.eqb (pl_id d) (cand_pipeline_id c)) (pipelines w) = Some p ->
  find (is_active_for (cand_id c)) (interview_sessions w) = Some s ->
  stuck s = true ->
  scores_valid (scores s) = true ->
  pydantic_int env (total_score s) = true ->
  pydantic_int env (JInt 0) = true ->
  exists s',
    fst (button_click env pid ch f l w) = Ok tt
    /\ interview_sessions (snd (button_click env pid ch f l w))
       = (update_one (by_id (session_id s)) (set_status_doc "abandoned")
            (interview_sessions w) ++ [s'])%list
    /\ session_id s' = next_oid w /\ candidate_id s' = cand_id c
    /\ platform s' = telegram /\ telegram_chat_id s' = Some ch
    /\ status s' = "active".
Proof.
  intros Hwf Hone Hc Hcid Hp Hact Hstuck Hv Hi Hint.
  unfold applied_from in Hc.
  set (w1 := with_telegram_outbox
               (fun l0 => (l0 ++ [(ch, "Great! Starting your interview for the role... 🚀")])%list)
               w).
  destruct (open_interview_replaces env (cand_id c) ch w1 c p s
              Hwf Hone Hcid Hp Hact Hstuck Hv Hi Hint)
    as [s' [w' [E [S' H]]]].
  assert (Eb : button_click env pid ch f l w = (Ok tt, w')).
  { unfold button_click, find_or_create_candidate.
    unfold bind at 1. unfold bind at 1, gets at 1. rewrite Hc.
    unfold ret at 1. unfold bind at 1, send_message at 1, modify at 1.
    fold w1. unfold try_except. rewrite E. reflexivity. }
  exists s'. rewrite Eb. split; [ reflexivity | ]. split; [ exact S' | exact H ].
Qed.

Lemma stuck_session_is_replaced_witness :
  exists s',
    fst (button_click (Demo.env []) 2 "77" None None stuck_world) = Ok tt
    /\ map (fun x => (session_id x, status x))
         (interview_sessions (snd (button_click (Demo.env []) 2 "77" None None
                                     stuck_world)))
       = [(4, "abandoned"); (session_id s', status s')]
    /\ session_id s' = 5 /\ status s' = "active".
Proof.
  destruct (stuck_session_is_replaced (Demo.env []) 2 "77" None None stuck_world
              Demo.candidate Demo.pipeline
              (push_message_doc (plain_message "user" "hello?") 3 Demo.session))
    as [s' [H1 [H2 [H3 [_ [_ [_ H7]]]]]]]; try reflexivity.
  - split; simpl.
    + constructor; [ intros [] | constructor ].
    + constructor; [ simpl; lia | constructor ].
  - intro cid. unfold active_count. simpl.
    destruct (is_active_for cid _); simpl; lia.
  - exists s'. split; [ exact H1 | ]. split; [ | split; assumption ].
    rewrite H2. reflexivity.
Defined.
